(** * uk_polling_api: the scrape-and-normalise pipeline, the store and
    the endpoints

    A shallow embedding of [src/uk_polling_api/scraper.py], of the models
    of [src/uk_polling_api/models.py], of the store of
    [src/uk_polling_api/store.py] and of the refresh and the endpoints of
    [src/uk_polling_api/app.py], followed by their properties.

    Conventions of the embedding.
    - A Python [str] is the list of its code points ([str := list Z]).
      Whitespace is the full set of [str.isspace]; the digits of [\d],
      [int] and [float] are the ASCII digits only.
    - [Optional[T]] is [option T]; [None] is [None].
    - A Python [float] is an IEEE binary64 value: NaN, an infinity, or a
      finite rational (kept in canonical form, so that equal values are
      equal terms).  The two zeros are identified: no operation used by
      the scraper distinguishes them.
    - Code that can raise returns a [result]; the exception is kept.
      [int] refuses more than 4300 digits, as CPython does by default.
    - A dictionary is the list of its items in insertion order.
    - [date.today().year], the only clock access of the scraper, is the
      parameter [today_year].
    - The HTTP fetch and the HTML parser are outside: [scrape_polls]
      starts from the [wikitable] tables of the page, each given by its
      text and, row by row, its cells with their span attributes as
      written.
    - The store is a value that its methods read and [load] replaces;
      the lock makes each method atomic.  [datetime.utcnow()],
      [date.today()] and [statistics.mean] are parameters of the methods
      that call them, and so is [str.lower] where arbitrary texts are
      compared with each other.
    - [refresh_polling_data] takes what the scrape did and the seed
      polls as arguments; an endpoint answers with its result or with
      the status of the [HTTPException] it raises. *)

From Stdlib Require Import ZArith QArith Qcanon List Bool Lia Lqa.
From Stdlib Require String Ascii.
Import String.StringSyntax.
Delimit Scope string_scope with string.
From Stdlib Require Import Sorting.Sorted Sorting.Permutation.
Import ListNotations.

Set Implicit Arguments.
Local Open Scope Z_scope.

(* ================================================================== *)
(** ** Python strings *)

Definition char := Z.
Definition str := list char.

(** An ASCII literal as a Python string. *)
Definition py (s : String.string) : str :=
  map (fun a => Z.of_N (Ascii.N_of_ascii a)) (String.list_ascii_of_string s).
Arguments py s%_string.

Definition EN_DASH : char := 8211.   (* U+2013 *)
Definition EM_DASH : char := 8212.   (* U+2014 *)
Definition MINUS_SIGN : char := 8722. (* U+2212 *)
Definition HYPHEN : char := 45.      (* U+002D *)

Fixpoint str_eqb (a b : str) : bool :=
  match a, b with
  | [], [] => true
  | x :: a', y :: b' => (x =? y) && str_eqb a' b'
  | _, _ => false
  end.

(** [str.isspace] on one code point, which is also the class [\s] of
    [re] on [str] patterns. *)
Definition isspace (c : char) : bool :=
  ((9 <=? c) && (c <=? 13)) || ((28 <=? c) && (c <=? 32))
  || (c =? 133) || (c =? 160) || (c =? 5760)
  || ((8192 <=? c) && (c <=? 8202))
  || (c =? 8232) || (c =? 8233) || (c =? 8239) || (c =? 8287)
  || (c =? 12288).

(** The class [\d], restricted to the ASCII digits (the other decimal
    digits of Unicode are outside the model). *)
Definition isdigit (c : char) : bool := (48 <=? c) && (c <=? 57).

(** The class [[A-Za-z]]. *)
Definition isalpha (c : char) : bool :=
  ((65 <=? c) && (c <=? 90)) || ((97 <=? c) && (c <=? 122)).

Fixpoint lstrip (s : str) : str :=
  match s with
  | c :: s' => if isspace c then lstrip s' else s
  | [] => []
  end.

Definition rstrip (s : str) : str := rev (lstrip (rev s)).

(** [s.strip()] *)
Definition strip (s : str) : str := rstrip (lstrip s).

(** [s.replace(c, "")] for a one-character [c]. *)
Definition remove_char (c : char) (s : str) : str :=
  filter (fun x => negb (x =? c)) s.

(** [s.lower()].  The ASCII capitals, and the two code points outside
    ASCII whose lower case contains an ASCII letter (U+0130 and the
    Kelvin sign U+212A); other cased letters are left as they are, which
    no comparison with an ASCII keyword can observe. *)
Definition lower_char (c : char) : str :=
  if (65 <=? c) && (c <=? 90) then [c + 32]
  else if c =? 304 then [105; 775]
  else if c =? 8490 then [107]
  else [c].

Definition lower (s : str) : str := flat_map lower_char s.

Fixpoint starts_with (p s : str) : bool :=
  match p, s with
  | [], _ => true
  | x :: p', y :: s' => (x =? y) && starts_with p' s'
  | _ :: _, [] => false
  end.

(** [needle in hay] *)
Fixpoint is_substr (needle hay : str) : bool :=
  starts_with needle hay ||
  match hay with
  | [] => false
  | _ :: hay' => is_substr needle hay'
  end.

(* ================================================================== *)
(** ** The fragment of [re] the scraper uses

    Every pattern of the module is a sequence of quantified character
    classes; [re] matches each class greedily and backtracks. *)

Record atom := Atom {
  cls : char -> bool;      (* the character class *)
  lo  : nat;               (* least number of repetitions *)
  hi  : option nat         (* greatest number, [None] for unbounded *)
}.

(** Number of leading characters of [s] in the class, up to the bound. *)
Fixpoint run (p : char -> bool) (bound : option nat) (s : str) : nat :=
  match s with
  | c :: s' =>
      if p c then
        match bound with
        | Some 0%nat => 0%nat
        | Some (S b) => S (run p (Some b) s')
        | None => S (run p None s')
        end
      else 0%nat
  | [] => 0%nat
  end.

(** Backtracking over the repetition count of one atom: [k] characters
    are taken first, then [k - 1], down to [lo]; [continue] matches what
    follows. *)
Fixpoint try_lengths (lo : nat) (s : str) (continue : str -> option (list str))
  (k : nat) : option (list str) :=
  let attempt :=
    if (lo <=? k)%nat
    then option_map (cons (firstn k s)) (continue (skipn k s))
    else None in
  match attempt with
  | Some r => Some r
  | None => match k with
            | O => None
            | S k' => try_lengths lo s continue k'
            end
  end.

(** [re.match]: the pieces of [s] matched by each atom, at the start of
    [s]; the longest repetition is tried first. *)
Fixpoint match_seq (re : list atom) (s : str) : option (list str) :=
  match re with
  | [] => Some []
  | a :: re' => try_lengths (lo a) s (match_seq re') (run (cls a) (hi a) s)
  end.

(** [re.search]: the leftmost match. *)
Fixpoint search (re : list atom) (s : str) : option (list str) :=
  match match_seq re s with
  | Some ps => Some ps
  | None => match s with
            | [] => None
            | _ :: s' => search re s'
            end
  end.

(** [re.split] with [maxsplit=1] on a character class: [None]
    stands for the one-element list [[s]]. *)
Fixpoint split_once (p : char -> bool) (s : str) : option (str * str) :=
  match s with
  | [] => None
  | c :: s' =>
      if p c then Some ([], s')
      else match split_once p s' with
           | Some (a, b) => Some (c :: a, b)
           | None => None
           end
  end.

Definition is_char (c : char) : char -> bool := fun x => x =? c.

Definition digits (n : nat) (m : option nat) : atom := Atom isdigit n m.

(** The pattern [\d+\.?\d*], one group. *)
Definition RE_NUMERAL : list atom :=
  [digits 1 None; Atom (is_char 46) 0 (Some 1%nat); digits 0 None].
(** The pattern [\d{3,}], one group. *)
Definition RE_SAMPLE : list atom := [digits 3 None].
(** The pattern [20\d{2}]. *)
Definition RE_YEAR : list atom :=
  [Atom (is_char 50) 1 (Some 1%nat); Atom (is_char 48) 1 (Some 1%nat);
   digits 2 (Some 2%nat)].
(** The pattern [\d{1,2}], [\s+], [[A-Za-z]+]: groups 1 and 2 are the
    first and the third piece. *)
Definition RE_DAY_MONTH : list atom :=
  [digits 1 (Some 2%nat); Atom isspace 1 None; Atom isalpha 1 None].
(** The pattern [\d{1,2}], one group. *)
Definition RE_DAY : list atom := [digits 1 (Some 2%nat)].
(** The class of the range separators, hyphen, en dash, em dash, minus. *)
Definition is_range_sep (c : char) : bool :=
  (c =? EN_DASH) || (c =? EM_DASH) || (c =? HYPHEN) || (c =? MINUS_SIGN).

(* ================================================================== *)
(** ** Python floats (IEEE binary64, round to nearest, ties to even) *)

Inductive float :=
| NaN
| Inf (negative : bool)
| Fin (q : Qc).

(** The integer nearest to [n/d] ([0 < d]), ties to the even one. *)
Definition round_half_even (n d : Z) : Z :=
  let q := n / d in
  let r := n mod d in
  match 2 * r ?= d with
  | Lt => q
  | Gt => q + 1
  | Eq => if Z.even q then q else q + 1
  end.

(** [(n/d) / 2^k] as a fraction. *)
Definition scale2 (n d k : Z) : Z * Z :=
  if 0 <=? k then (n, d * 2 ^ k) else (n * 2 ^ (- k), d).

(** [floor (log2 (n/d))] for positive [n], [d]. *)
Definition floor_log2 (n d : Z) : Z :=
  let l := Z.log2 n - Z.log2 d in
  let (n', d') := scale2 n d l in
  if d' <=? n' then l else l - 1.

(** [m * 2^e] as a rational. *)
Definition dyadic (m e : Z) : Q :=
  if 0 <=? e then inject_Z (m * 2 ^ e) else Qmake m (Z.to_pos (2 ^ (- e))).

(** The binary64 value nearest to the positive rational [n/d]: 53
    significant bits, least exponent [-1074], overflow to infinity from
    [2^1024]. *)
Definition round64_pos (n d : Z) : float :=
  let e := Z.max (floor_log2 n d - 52) (-1074) in
  let (n', d') := scale2 n d e in
  let m := round_half_even n' d' in
  if (971 <? e) || ((e =? 971) && (2 ^ 53 <=? m))
  then Inf false
  else Fin (Q2Qc (dyadic m e)).

Definition fneg (x : float) : float :=
  match x with
  | NaN => NaN
  | Inf s => Inf (negb s)
  | Fin q => Fin (- q)%Qc
  end.

(** Rounding of an exact rational result to binary64. *)
Definition round64 (q : Q) : float :=
  match Qnum q with
  | Z0 => Fin (Q2Qc 0)
  | Zpos n => round64_pos (Zpos n) (Zpos (Qden q))
  | Zneg n => fneg (round64_pos (Zpos n) (Zpos (Qden q)))
  end.

(** [x - y] *)
Definition fsub (x y : float) : float :=
  match x, y with
  | NaN, _ | _, NaN => NaN
  | Inf s, Inf s' => if Bool.eqb s s' then NaN else Inf s
  | Inf s, Fin _ => Inf s
  | Fin _, Inf s => Inf (negb s)
  | Fin a, Fin b => round64 (a - b)%Qc
  end.

(** [x > y] *)
Definition fgt (x y : float) : bool :=
  match x, y with
  | NaN, _ | _, NaN => false
  | Inf s, Inf s' => negb s && s'
  | Inf s, Fin _ => negb s
  | Fin _, Inf s => s
  | Fin a, Fin b => match (a ?= b)%Qc with Gt => true | _ => false end
  end.

(** [x >= y] *)
Definition fge (x y : float) : bool :=
  match x, y with
  | NaN, _ | _, NaN => false
  | Inf s, Inf s' => negb s || s'
  | Inf s, Fin _ => negb s
  | Fin _, Inf s => s
  | Fin a, Fin b => match (a ?= b)%Qc with Lt => false | _ => true end
  end.

(** [round(x, 1)]: the exact value of [x] is rounded to one decimal
    (ties to even) and the decimal is converted back; NaN and the
    infinities round to themselves. *)
Definition round1 (x : float) : float :=
  match x with
  | Fin q =>
      let t := round_half_even (Qnum q * 10) (Zpos (Qden q)) in
      round64 (Qmake t 10)
  | _ => x
  end.

(** Value of a string of ASCII digits. *)
Definition digit_val (c : char) : Z := c - 48.
Definition digits_val (s : str) : Z :=
  fold_left (fun acc c => acc * 10 + digit_val c) s 0.

(** [float(s)] for a text that matches [\d+\.?\d*]. *)
Definition float_of_numeral (s : str) : float :=
  match split_once (is_char 46) s with
  | None => round64 (inject_Z (digits_val s))
  | Some (i, f) =>
      round64 (Qmake (digits_val (i ++ f)) (Z.to_pos (10 ^ Z.of_nat (length f))))
  end.

Definition F (m e : Z) : float := Fin (Q2Qc (dyadic m e)).

(** The value of a float as plain data. *)
Inductive fview := VNaN | VInf (negative : bool) | VFin (n : Z) (d : positive).

Definition view (x : float) : fview :=
  match x with
  | NaN => VNaN
  | Inf s => VInf s
  | Fin q => VFin (Qnum q) (Qden q)
  end.


(* ================================================================== *)
(** ** Exceptions *)

Inductive exn := ValueError | IndexError.

Inductive result (A : Type) :=
| Ok (a : A)
| Raise (e : exn).
Arguments Ok {A} a.
Arguments Raise {A} e.

Definition bind {A B} (m : result A) (k : A -> result B) : result B :=
  match m with
  | Ok a => k a
  | Raise e => Raise e
  end.

Notation "x <- m ;; k" := (bind m (fun x => k))
  (at level 61, m at next level, right associativity).

(** [try: m  except ValueError: h] *)
Definition except_ValueError {A} (m : result A) (h : result A) : result A :=
  match m with
  | Raise ValueError => h
  | _ => m
  end.

(* ================================================================== *)
(** ** [int(str)] and list indexing *)

(** CPython's default bound on the digits of a decimal string that
    [int] converts ([sys.int_info.default_max_str_digits]). *)
Definition INT_MAX_STR_DIGITS : nat := 4300.

(** The digit part of an integer literal: digits, single underscores
    allowed between two digits.  Returns the value and the digit count. *)
Fixpoint int_digits (s : str) (after_digit : bool) (acc : Z) (n : nat)
  : option (Z * nat) :=
  match s with
  | [] => if after_digit then Some (acc, n) else None
  | c :: s' =>
      if isdigit c then int_digits s' true (acc * 10 + digit_val c) (S n)
      else if (c =? 95) && after_digit then int_digits s' false acc n
      else None
  end.

(** [int(s)] for a string [s]. *)
Definition py_int (s : str) : result Z :=
  let t := strip s in
  let '(neg, body) :=
    match t with
    | c :: r =>
        if c =? 43 then (false, r)        (* a leading [+] *)
        else if c =? 45 then (true, r)    (* a leading [-] *)
        else (false, t)
    | [] => (false, t)
    end in
  match int_digits body false 0 0 with
  | Some (v, n) =>
      if (INT_MAX_STR_DIGITS <? n)%nat then Raise ValueError
      else Ok (if neg then - v else v)
  | None => Raise ValueError
  end.

(** [range(n)] *)
Definition py_range (n : Z) : list Z := map Z.of_nat (seq 0 (Z.to_nat n)).

Definition len {A} (l : list A) : Z := Z.of_nat (List.length l).

(** Position denoted by the index [i] in a list of length [n]: negative
    indices count from the end, anything else out of range raises. *)
Definition py_index (n i : Z) : result nat :=
  let j := if i <? 0 then i + n else i in
  if (0 <=? j) && (j <? n) then Ok (Z.to_nat j) else Raise IndexError.

Fixpoint update_nth {A} (l : list A) (j : nat) (a : A) : list A :=
  match l, j with
  | [], _ => []
  | _ :: l', O => a :: l'
  | x :: l', S j' => x :: update_nth l' j' a
  end.

(** [l[i]] *)
Definition py_get {A} (l : list A) (i : Z) : result A :=
  j <- py_index (len l) i ;;
  match nth_error l j with
  | Some a => Ok a
  | None => Raise IndexError
  end.

(** [l[i] = a] *)
Definition py_set {A} (l : list A) (i : Z) (a : A) : result (list A) :=
  j <- py_index (len l) i ;;
  Ok (update_nth l j a).

(* ================================================================== *)
(** ** [datetime.date] *)

Record date := Date { year : Z; month : Z; day : Z }.

Definition is_leap (y : Z) : bool :=
  (y mod 4 =? 0) && (negb (y mod 100 =? 0) || (y mod 400 =? 0)).

Definition days_in_month (y m : Z) : Z :=
  if m =? 2 then (if is_leap y then 29 else 28)
  else if (m =? 4) || (m =? 6) || (m =? 9) || (m =? 11) then 30
  else 31.

(** [date(y, m, d)] *)
Definition make_date (y m d : Z) : result date :=
  if (1 <=? y) && (y <=? 9999) && (1 <=? m) && (m <=? 12)
     && (1 <=? d) && (d <=? days_in_month y m)
  then Ok (Date y m d)
  else Raise ValueError.

(** [date.min] *)
Definition date_min : date := Date 1 1 1.

(** [a <= b] on dates. *)
Definition date_leb (a b : date) : bool :=
  (year a <? year b) ||
  ((year a =? year b) &&
   ((month a <? month b) || ((month a =? month b) && (day a <=? day b)))).

(* ================================================================== *)
(** ** The data model ([models.py]) *)

(** The party codes, in the order of the fields of [PollResult]. *)
Inductive party := Con | Lab | LibDem | Reform | Green | SNP | Other.

Record PollResult := {
  pollster : str;
  client : option str;
  fieldwork_start : option date;
  fieldwork_end : option date;
  sample_size : option Z;
  con : option float;
  lab : option float;
  lib_dem : option float;
  reform : option float;
  green : option float;
  snp : option float;
  other : option float;
  lead_party : option str;
  lead_pct : option float;
  source_url : option str
}.

(* ================================================================== *)
(** ** Field value parsers *)

(** Canonical party column names mapped from common header variations. *)
Definition PARTY_COLUMN_MAP : list (str * party) :=
  [ (py "con", Con); (py "conservative", Con);
    (py "lab", Lab); (py "labour", Lab);
    (py "lib dem", LibDem); (py "libdem", LibDem); (py "ld", LibDem);
    (py "liberal democrats", LibDem);
    (py "reform", Reform); (py "reform uk", Reform); (py "ref", Reform);
    (py "green", Green); (py "greens", Green);
    (py "snp", SNP);
    (py "other", Other); (py "others", Other) ].

(** [d.get(k)] on a dictionary with string keys. *)
Fixpoint dict_get {V} (d : list (str * V)) (k : str) : option V :=
  match d with
  | [] => None
  | (k', v) :: d' => if str_eqb k' k then Some v else dict_get d' k
  end.

Definition is_empty (s : str) : bool :=
  match s with [] => true | _ => false end.

Definition _parse_percentage (text : str) : option float :=
  let text :=
    remove_char MINUS_SIGN (remove_char EM_DASH (remove_char EN_DASH (strip text))) in
  if is_empty text || str_eqb text (py "N/A") then None
  else
    match search RE_NUMERAL text with
    | Some ps => Some (float_of_numeral (concat ps))
    | None => None
    end.

Definition _parse_sample_size (text : str) : result (option Z) :=
  let text := remove_char 32 (remove_char 44 (strip text)) in
  match search RE_SAMPLE text with
  | Some ps => n <- py_int (concat ps) ;; Ok (Some n)
  | None => Ok None
  end.

(** Common month abbreviations. *)
Definition months : list (str * Z) :=
  [ (py "jan", 1); (py "feb", 2); (py "mar", 3); (py "apr", 4);
    (py "may", 5); (py "jun", 6); (py "jul", 7); (py "aug", 8);
    (py "sep", 9); (py "oct", 10); (py "nov", 11); (py "dec", 12);
    (py "january", 1); (py "february", 2); (py "march", 3);
    (py "april", 4); (py "june", 6); (py "july", 7); (py "august", 8);
    (py "september", 9); (py "october", 10); (py "november", 11);
    (py "december", 12) ].

Section Clock.

(** [date.today().year] *)
Variable today_year : Z.

(** The year of [text]: its first [20\d{2}] token, else this year. *)
Definition find_year (text : str) : result Z :=
  match search RE_YEAR text with
  | Some ps => py_int (concat ps)
  | None => Ok today_year
  end.

Definition _parse_date_text (text : str) (year : option Z)
  : result (option date) :=
  let text := strip text in
  if is_empty text then Ok None
  else
    year <- match year with
            | Some y => if y =? 0 then find_year text else Ok y
            | None => find_year text
            end ;;
    match search RE_DAY_MONTH text with
    | Some [g1; _; g2] =>
        day <- py_int g1 ;;
        let month_str := lower g2 in
        match dict_get months month_str with
        | Some month =>
            if negb (month =? 0) && (1 <=? day) && (day <=? 31)
            then except_ValueError
                   (d <- make_date year month day ;; Ok (Some d))
                   (Ok None)
            else Ok None
        | None => Ok None
        end
    | _ => Ok None
    end.

Definition _parse_fieldwork_dates (text : str)
  : result (option date * option date) :=
  let text := strip text in
  if is_empty text then Ok (None, None)
  else
    year <- find_year text ;;
    match split_once is_range_sep text with
    | Some (part0, part1) =>
        end_date <- _parse_date_text (strip part1) (Some year) ;;
        start_date <- _parse_date_text (strip part0) (Some year) ;;
        start_date <-
          match start_date, end_date with
          | None, Some e =>
              match search RE_DAY (strip part0) with
              | Some ps =>
                  except_ValueError
                    (n <- py_int (concat ps) ;;
                     d <- make_date year (month e) n ;;
                     Ok (Some d))
                    (Ok start_date)
              | None => Ok start_date
              end
          | _, _ => Ok start_date
          end ;;
        Ok (start_date, end_date)
    | None =>
        d <- _parse_date_text text (Some year) ;;
        Ok (d, d)
    end.

End Clock.

(* ================================================================== *)
(** ** Column identifier *)

(** The field names a column can be mapped to. *)
Inductive field :=
| F_party (p : party)
| F_fieldwork
| F_pollster
| F_client
| F_sample_size
| F_area
| F_lead.

Definition classify_header (header : str) : option field :=
  let h := lower (strip header) in
  match dict_get PARTY_COLUMN_MAP h with
  | Some p => Some (F_party p)
  | None =>
      if is_substr (py "date") h || is_substr (py "fieldwork") h
      then Some F_fieldwork
      else if is_substr (py "polling") h || is_substr (py "pollster") h
              || is_substr (py "organisation") h
      then Some F_pollster
      else if is_substr (py "client") h || is_substr (py "commissioner") h
      then Some F_client
      else if is_substr (py "sample") h || is_substr (py "size") h
      then Some F_sample_size
      else if is_substr (py "area") h then Some F_area
      else if is_substr (py "lead") h then Some F_lead
      else None
  end.

(** The body of the loop of [_identify_columns] from index [i] on; the
    dictionary is kept as the list of its items in insertion order. *)
Fixpoint identify_from (i : nat) (header_cells : list str) : list (nat * field) :=
  match header_cells with
  | [] => []
  | header :: rest =>
      match classify_header header with
      | Some f => (i, f) :: identify_from (S i) rest
      | None => identify_from (S i) rest
      end
  end.

Definition _identify_columns (header_cells : list str) : list (nat * field) :=
  identify_from 0 header_cells.

(* ================================================================== *)
(** ** Table grid builder *)

(** A [th] or [td] element: its [rowspan] and [colspan] attributes as
    written (if any) and [get_text(strip=True)]. *)
Record Cell := {
  rowspan : option str;
  colspan : option str;
  cell_text : str
}.

(** A [table] element: [get_text(strip=True)] and, for each [tr], its
    cells. *)
Record Table := {
  table_text : str;
  table_rows : list (list Cell)
}.

Definition Grid := list (list (option str)).

(** [int(cell.get(name, 1))] *)
Definition span_attr (a : option str) : result Z :=
  match a with
  | None => Ok 1
  | Some s => py_int s
  end.

(** A [for] loop whose body can raise. *)
Fixpoint for_each {A S} (l : list A) (s : S) (body : S -> A -> result S)
  : result S :=
  match l with
  | [] => Ok s
  | a :: l' => s' <- body s a ;; for_each l' s' body
  end.

(** First pass: determine grid dimensions. *)
Definition cols_in_row (row : list Cell) : result Z :=
  for_each row 0 (fun cols cell =>
    colspan <- span_attr (colspan cell) ;; Ok (cols + colspan)).

Definition count_max_cols (rows : list (list Cell)) : result Z :=
  for_each rows 0 (fun max_cols row =>
    cols <- cols_in_row row ;; Ok (Z.max max_cols cols)).

(** [grid[r][c] = text] *)
Definition set_cell (grid : Grid) (r c : Z) (text : str) : result Grid :=
  row <- py_get grid r ;;
  row' <- py_set row c (Some text) ;;
  py_set grid r row'.

Definition fill_slot (max_cols : Z) (text : str) (r c : Z) (grid : Grid)
  : result Grid :=
  if (r <? len grid) && (c <? max_cols) then set_cell grid r c text
  else Ok grid.

Definition fill_rect (max_cols row_idx col_idx rowspan colspan : Z)
  (text : str) (grid : Grid) : result Grid :=
  for_each (py_range rowspan) grid (fun grid dr =>
    for_each (py_range colspan) grid (fun grid dc =>
      fill_slot max_cols text (row_idx + dr) (col_idx + dc) grid)).

(** The [while] loop that finds the next empty column; [n] is the
    distance [max_cols - col_idx], so that [n = 0] is the exit
    [col_idx >= max_cols]. *)
Fixpoint skip_filled (n : nat) (grid : Grid) (row_idx col_idx : Z) : result Z :=
  match n with
  | O => Ok col_idx
  | S n' =>
      row <- py_get grid row_idx ;;
      slot <- py_get row col_idx ;;
      match slot with
      | Some _ => skip_filled n' grid row_idx (col_idx + 1)
      | None => Ok col_idx
      end
  end.

Definition next_empty (max_cols : Z) (grid : Grid) (row_idx col_idx : Z)
  : result Z :=
  skip_filled (Z.to_nat (max_cols - col_idx)) grid row_idx col_idx.

(** The loop over the cells of one row, with its [break]. *)
Fixpoint place_cells (max_cols row_idx : Z) (cells : list Cell)
  (col_idx : Z) (grid : Grid) : result Grid :=
  match cells with
  | [] => Ok grid
  | cell :: rest =>
      col_idx <- next_empty max_cols grid row_idx col_idx ;;
      if max_cols <=? col_idx then Ok grid
      else
        rowspan <- span_attr (rowspan cell) ;;
        colspan <- span_attr (colspan cell) ;;
        grid <- fill_rect max_cols row_idx col_idx rowspan colspan
                  (cell_text cell) grid ;;
        place_cells max_cols row_idx rest (col_idx + colspan) grid
  end.

Fixpoint place_rows (max_cols : Z) (rows : list (list Cell)) (row_idx : Z)
  (grid : Grid) : result Grid :=
  match rows with
  | [] => Ok grid
  | row :: rest =>
      grid <- place_cells max_cols row_idx row 0 grid ;;
      place_rows max_cols rest (row_idx + 1) grid
  end.

(** [cell or ""] *)
Definition or_empty (cell : option str) : str :=
  match cell with
  | Some s => s
  | None => []
  end.

Definition _expand_rowspans (table : Table) : result (list (list str)) :=
  let rows := table_rows table in
  match rows with
  | [] => Ok []
  | _ =>
      max_cols <- count_max_cols rows ;;
      let grid : Grid := map (fun _ => repeat None (Z.to_nat max_cols)) rows in
      grid <- place_rows max_cols rows 0 grid ;;
      Ok (map (map or_empty) grid)
  end.

(* ================================================================== *)
(** ** Table locator, header detector and row mapper ([scrape_polls]) *)

Definition party_eqb (a b : party) : bool :=
  match a, b with
  | Con, Con | Lab, Lab | LibDem, LibDem | Reform, Reform
  | Green, Green | SNP, SNP | Other, Other => true
  | _, _ => false
  end.

(** The main table will contain all major party names. *)
Definition REQUIRED_NAMES : list str :=
  [py "con"; py "lab"; py "reform"; py "green"].

Definition is_main_table (table : Table) : bool :=
  let text := lower (table_text table) in
  forallb (fun p => is_substr p text) REQUIRED_NAMES.

(** Membership in [("con", "lab", "lib_dem", "reform", "green")]. *)
Definition is_header_party (f : field) : bool :=
  match f with
  | F_party (Con | Lab | LibDem | Reform | Green) => true
  | _ => false
  end.

Definition field_party (f : field) : option party :=
  match f with
  | F_party p => Some p
  | _ => None
  end.

(** Insertion of a party into a set of parties. *)
Definition set_add (p : party) (s : list party) : list party :=
  if existsb (party_eqb p) s then s else s ++ [p].

(** The set comprehension [party_cols] of the header scan. *)
Definition party_cols (candidate_map : list (nat * field)) : list party :=
  fold_left
    (fun s item =>
       if is_header_party (snd item)
       then match field_party (snd item) with
            | Some p => set_add p s
            | None => s
            end
       else s)
    candidate_map [].

(** The header scan over the rows [i, i+1, ...] of the candidates. *)
Fixpoint find_header (i : nat) (candidates : list (list str))
  : option (nat * list (nat * field)) :=
  match candidates with
  | [] => None
  | row :: rest =>
      let candidate_map := _identify_columns row in
      if (3 <=? length (party_cols candidate_map))%nat
      then Some (i, candidate_map)
      else find_header (S i) rest
  end.

(** The dictionary [data] of one row.  A key that was never set and a
    key set to [None] are both [None] here: [data] is only read through
    [get], which does not tell them apart. *)
Record Data := {
  data_pollster : option str;
  data_client : option str;
  data_fieldwork_start : option date;
  data_fieldwork_end : option date;
  data_sample_size : option Z
}.

Definition empty_data : Data := Build_Data None None None None None.

(** The dictionary [party_values], as its items in insertion order. *)
Definition PartyValues := list (party * option float).

(** [party_values[k] = v]: a new key goes last, a known key keeps its
    place. *)
Fixpoint pv_set (d : PartyValues) (k : party) (v : option float) : PartyValues :=
  match d with
  | [] => [(k, v)]
  | (k', v') :: d' =>
      if party_eqb k' k then (k', v) :: d' else (k', v') :: pv_set d' k v
  end.

(** [party_values.get(k)] *)
Fixpoint pv_get (d : PartyValues) (k : party) : option float :=
  match d with
  | [] => None
  | (k', v) :: d' => if party_eqb k' k then v else pv_get d' k
  end.

(** Map internal party keys to display names. *)
Definition party_display (p : party) : str :=
  match p with
  | Con => py "Conservative"
  | Lab => py "Labour"
  | LibDem => py "Liberal Democrats"
  | Reform => py "Reform UK"
  | Green => py "Green"
  | SNP => py "SNP"
  | Other => py "Other"
  end.

Definition MINUS_ONE : float := Fin (Q2Qc (-1)).
Definition ZERO : float := Fin (Q2Qc 0).

Definition is_some {A} (o : option A) : bool :=
  match o with Some _ => true | None => false end.

(** Determine the leading party: the loop's state is
    [(best_party, best_val)]. *)
Definition best_of (party_values : PartyValues) : option party * float :=
  fold_left
    (fun st item =>
       match snd item with
       | Some v => if fgt v (snd st) then (Some (fst item), v) else st
       | None => st
       end)
    party_values (None, MINUS_ONE).

Definition differs (p : party) (best_party : option party) : bool :=
  match best_party with
  | Some b => negb (party_eqb p b)
  | None => true
  end.

(** Calculate lead over second place: the loop's state is [second_val]. *)
Definition second_of (party_values : PartyValues) (best_party : option party)
  : float :=
  fold_left
    (fun second_val item =>
       match snd item with
       | Some v =>
           if differs (fst item) best_party && fgt v second_val
           then v else second_val
       | None => second_val
       end)
    party_values MINUS_ONE.

Section Scraper.

Variable today_year : Z.
Variable url : str.

(** The body of the loop over [col_map.items()]. *)
Definition apply_column (row : list str) (st : Data * PartyValues)
  (item : nat * field) : result (Data * PartyValues) :=
  let '(data, party_values) := st in
  let '(col_idx, field) := item in
  match nth_error row col_idx with
  | None => Ok st
  | Some cell_text =>
      match field with
      | F_fieldwork =>
          se <- _parse_fieldwork_dates today_year cell_text ;;
          Ok (Build_Data (data_pollster data) (data_client data)
                (fst se) (snd se) (data_sample_size data), party_values)
      | F_pollster =>
          Ok (Build_Data (Some cell_text) (data_client data)
                (data_fieldwork_start data) (data_fieldwork_end data)
                (data_sample_size data), party_values)
      | F_client =>
          Ok (Build_Data (data_pollster data)
                (if is_empty cell_text then None else Some cell_text)
                (data_fieldwork_start data) (data_fieldwork_end data)
                (data_sample_size data), party_values)
      | F_sample_size =>
          n <- _parse_sample_size cell_text ;;
          Ok (Build_Data (data_pollster data) (data_client data)
                (data_fieldwork_start data) (data_fieldwork_end data) n,
              party_values)
      | F_party p =>
          Ok (data, pv_set party_values p (_parse_percentage cell_text))
      | F_lead => Ok st
      | F_area => Ok st
      end
  end.

(** The record built from the columns of a row that is kept. *)
Definition make_poll (pollster : str) (data : Data) (party_values : PartyValues)
  : PollResult :=
  let '(best_party, best_val) := best_of party_values in
  let second_val := second_of party_values best_party in
  let lead_pct :=
    if fge second_val ZERO then Some (round1 (fsub best_val second_val))
    else None in
  {| pollster := pollster;
     client := data_client data;
     fieldwork_start := data_fieldwork_start data;
     fieldwork_end := data_fieldwork_end data;
     sample_size := data_sample_size data;
     con := pv_get party_values Con;
     lab := pv_get party_values Lab;
     lib_dem := pv_get party_values LibDem;
     reform := pv_get party_values Reform;
     green := pv_get party_values Green;
     snp := pv_get party_values SNP;
     other := pv_get party_values Other;
     lead_party := option_map party_display best_party;
     lead_pct := lead_pct;
     source_url := Some url |}.

(** One pass of the loop over the data rows: [None] is [continue]. *)
Definition process_row (col_map : list (nat * field)) (row : list str)
  : result (option PollResult) :=
  let non_empty := filter (fun c => negb (is_empty (strip c))) row in
  if (length non_empty <? 3)%nat then Ok None
  else
    st <- for_each col_map (empty_data, []) (apply_column row) ;;
    let '(data, party_values) := st in
    let pollster :=
      strip (match data_pollster data with Some s => s | None => [] end) in
    if is_empty pollster || forallb (fun kv => negb (is_some (snd kv))) party_values
    then Ok None
    else Ok (Some (make_poll pollster data party_values)).

Fixpoint process_rows (col_map : list (nat * field)) (rows : list (list str))
  : result (list PollResult) :=
  match rows with
  | [] => Ok []
  | row :: rest =>
      r <- process_row col_map row ;;
      polls <- process_rows col_map rest ;;
      Ok (match r with Some poll => poll :: polls | None => polls end)
  end.

(** The sort key [p.fieldwork_end or date.min]. *)
Definition sort_key (p : PollResult) : date :=
  match fieldwork_end p with
  | Some d => d
  | None => date_min
  end.

(** [polls.sort(key=sort_key, reverse=True)]: a stable sort, greatest
    key first. *)
Fixpoint insert_desc (p : PollResult) (sorted : list PollResult) : list PollResult :=
  match sorted with
  | [] => [p]
  | q :: rest =>
      if date_leb (sort_key q) (sort_key p) then p :: sorted
      else q :: insert_desc p rest
  end.

Definition sort_desc (polls : list PollResult) : list PollResult :=
  fold_right insert_desc [] polls.

(** [scrape_polls], from the [wikitable] tables of the fetched page. *)
Definition scrape_polls (tables : list Table) : result (list PollResult) :=
  match tables with
  | [] => Ok []
  | _ =>
      match find is_main_table tables with
      | None => Ok []
      | Some target_table =>
          grid <- _expand_rowspans target_table ;;
          if (length grid <? 3)%nat then Ok []
          else
            match find_header 0 (firstn 4 grid) with
            | None => Ok []
            | Some (header_row_idx, col_map) =>
                polls <- process_rows col_map (skipn (S header_row_idx) grid) ;;
                Ok (sort_desc polls)
            end
      end
  end.

End Scraper.

(* ================================================================== *)
(** ** Vocabulary of the statements *)

(** [l[i]] for a position that may be out of range. *)
Definition znth {A} (l : list A) (i : Z) : option A :=
  if i <? 0 then None else nth_error l (Z.to_nat i).

(** The slot of a grid at row [r], column [c], if the grid has one. *)
Definition slot (g : Grid) (r c : Z) : option (option str) :=
  match znth g r with
  | Some row => znth row c
  | None => None
  end.

(** A grid of [R] rows of [W] slots each. *)
Definition shape (R W : nat) (g : Grid) : Prop :=
  length g = R /\ Forall (fun row => length row = W) g.






(** The party columns of a row, left to right, and the order in which
    the parties first appear in them. *)
Definition party_column (row : list str) (item : nat * field) : list party :=
  match snd item with
  | F_party p => if (fst item <? length row)%nat then [p] else []
  | _ => []
  end.

Definition column_order (col_map : list (nat * field)) (row : list str)
  : list party :=
  fold_left (fun s p => set_add p s) (flat_map (party_column row) col_map) [].

(** The seven percentage fields of a record. *)
Definition all_parties : list party :=
  [Con; Lab; LibDem; Reform; Green; SNP; Other].

Definition party_value (poll : PollResult) (p : party) : option float :=
  match p with
  | Con => con poll
  | Lab => lab poll
  | LibDem => lib_dem poll
  | Reform => reform poll
  | Green => green poll
  | SNP => snp poll
  | Other => other poll
  end.




(** The party fields that make a row a header row. *)
Definition HEADER_PARTIES : list party := [Con; Lab; LibDem; Reform; Green].

(** Some column of the map is the column of party [p]. *)
Definition maps_to (col_map : list (nat * field)) (p : party) : bool :=
  existsb (fun item => match snd item with
                       | F_party q => party_eqb q p
                       | _ => false
                       end) col_map.

(** How many distinct header parties the columns of a row name. *)
Definition distinct_header_parties (row : list str) : nat :=
  length (filter (maps_to (_identify_columns row)) HEADER_PARTIES).






(** What a piece matched by an atom looks like. *)
Definition piece_ok (a : atom) (p : str) : Prop :=
  Forall (fun c => cls a c = true) p /\ (lo a <= length p)%nat /\
  match hi a with Some h => (length p <= h)%nat | None => True end.

(** The computation ends without raising. *)
Definition returns {A} (m : result A) : Prop := exists a, m = Ok a.

(** A text made of digits only. *)
Definition all_digits (s : str) : Prop := Forall (fun c => isdigit c = true) s.




(** A float that is a number. *)
Definition number (x : float) : Prop := x <> NaN.

(** The values a percentage cell can have: a number that is not
    negative (it may be infinite). *)
Definition percentage (x : float) : Prop :=
  match x with
  | Fin q => (0 <= q)%Qc
  | Inf s => s = false
  | NaN => False
  end.

(** A date, if there is one, not before [date.min]. *)
Definition ge_min (o : option date) : Prop :=
  match o with
  | Some d => date_leb date_min d = true
  | None => True
  end.

(** What holds of [data] and [party_values] throughout the loop. *)
Definition row_inv (st : Data * PartyValues) : Prop :=
  ge_min (data_fieldwork_end (fst st)) /\
  NoDup (map fst (snd st)) /\
  (forall k v, In (k, Some v) (snd st) -> percentage v).

(** Every value of the dictionary is a percentage. *)
Definition pvals (pv : PartyValues) : Prop :=
  forall k v, In (k, Some v) pv -> percentage v.

(** The bodies of the two loops over [party_values.items()]. *)
Definition best_step (st : option party * float) (item : party * option float)
  : option party * float :=
  match snd item with
  | Some v => if fgt v (snd st) then (Some (fst item), v) else st
  | None => st
  end.

Definition second_step (best_party : option party) (second_val : float)
  (item : party * option float) : float :=
  match snd item with
  | Some v =>
      if differs (fst item) best_party && fgt v second_val
      then v else second_val
  | None => second_val
  end.

(** The order of dates: by year, then month, then day. *)
Definition date_le (a b : date) : Prop :=
  year a < year b \/
  (year a = year b /\ (month a < month b \/ (month a = month b /\ day a <= day b))).

(** [b] does not sort before [a]: the key of [a] is at least that of [b]. *)
Definition key_ge (a b : PollResult) : Prop :=
  date_leb (sort_key b) (sort_key a) = true.

(** A text made of whitespace only. *)
Definition all_space (s : str) : Prop := Forall (fun c => isspace c = true) s.

(* ================================================================== *)
(** ** Sample pages *)

(** The page that is scraped by default. *)
Definition WIKI_URL : str :=
  py "https://en.wikipedia.org/wiki/Opinion_polling_for_the_next_United_Kingdom_general_election".

(** A cell without span attributes. *)
Definition td (s : String.string) : Cell :=
  {| rowspan := None; colspan := None; cell_text := py s |}.
Arguments td s%_string.

(** A table whose text is the text of its cells. *)
Definition table_of (rows : list (list Cell)) : Table :=
  {| table_text := concat (map (fun r => concat (map cell_text r)) rows);
     table_rows := rows |}.

(** A header row with the Labour column left of the Conservative one. *)
Definition sample_header : list Cell :=
  [td "Pollster"; td "Dates"; td "Lab"; td "Con"; td "Reform"; td "Green"].

(** Three polls; the first has Labour and the Conservatives level, the
    last has no date. *)
Definition sample_table : Table :=
  table_of
    [ sample_header;
      [td "YouGov"; td "1-3 Feb 2026"; td "30"; td "30"; td "19.3"; td "14.1"];
      [td "Survation"; td "n/a"; td "25"; td "31"; td ""; td ""];
      [td "Opinium"; td "4 Feb 2026"; td "25"; td "31"; td "19.3"; td "14.1"] ].

(** What the sample page yields. *)
Definition sample_polls : list PollResult :=
  match scrape_polls 2026 WIKI_URL [sample_table] with
  | Ok polls => polls
  | Raise _ => []
  end.

Definition sample_grid : list (list str) :=
  match _expand_rowspans sample_table with
  | Ok grid => grid
  | Raise _ => []
  end.

(** The header and the first data row of the sample, as grid rows. *)
Definition sample_col_map : list (nat * field) :=
  _identify_columns (map cell_text sample_header).

Definition sample_row : list str :=
  [py "YouGov"; py "1-3 Feb 2026"; py "30"; py "30"; py "19.3"; py "14.1"].

(** The sample with a [colspan] that is not a number. *)
Definition bad_span_table : Table :=
  table_of
    [ {| rowspan := None; colspan := Some (py "abc"); cell_text := py "Pollster" |}
      :: tl sample_header;
      [td "YouGov"; td "1-3 Feb 2026"; td "30"; td "30"; td "19.3"; td "14.1"];
      [td "Opinium"; td "4 Feb 2026"; td "25"; td "31"; td "19.3"; td "14.1"] ].

(** A numeral of 401 digits. *)
Definition huge : Cell :=
  {| rowspan := None; colspan := None; cell_text := 49 :: repeat 48 400%nat |}.

(** The sample with two percentages beyond the range of a float. *)
Definition huge_table : Table :=
  table_of
    [ sample_header;
      [td "YouGov"; td "1-3 Feb 2026"; huge; huge; td "19.3"; td "14.1"];
      [td "Opinium"; td "4 Feb 2026"; td "25"; td "31"; td "19.3"; td "14.1"] ].


(* ================================================================== *)
(** ** The polling store ([store.py])

    The lock makes every method atomic, so a method is a function of the
    state of the store.  [datetime.utcnow()] and [date.today()] are
    parameters of the methods that call them. *)

(** A point in time; the store only keeps it and hands it back. *)
Definition datetime := Z.

Definition PARTY_FIELDS : list str :=
  [py "con"; py "lab"; py "lib_dem"; py "reform"; py "green"; py "snp";
   py "other"].

Definition PARTY_DISPLAY_NAMES : list (str * str) :=
  [ (py "con", py "Conservative");
    (py "lab", py "Labour");
    (py "lib_dem", py "Liberal Democrats");
    (py "reform", py "Reform UK");
    (py "green", py "Green");
    (py "snp", py "SNP");
    (py "other", py "Other") ].

Record PollingStore := {
  _polls : list PollResult;
  _last_refreshed : option datetime;
  _source : str
}.

(** [PollingStore()] *)
Definition new_store : PollingStore :=
  {| _polls := []; _last_refreshed := None; _source := py "none" |}.

(** [load]: the new state and the count returned.  [sorted] with the key
    and [reverse=True] of the scraper is the same stable sort. *)
Definition load (utcnow : datetime) (self : PollingStore)
  (polls : list PollResult) (source : str) : PollingStore * Z :=
  let sorted := sort_desc polls in
  ({| _polls := sorted; _last_refreshed := Some utcnow; _source := source |},
   len sorted).

Definition get_all (self : PollingStore) : list PollResult := _polls self.

(** [l[:n]] *)
Definition slice_to {A} (l : list A) (n : Z) : list A :=
  if n <? 0 then firstn (Z.to_nat (len l + n)) l else firstn (Z.to_nat n) l.

Definition get_latest (self : PollingStore) (n : Z) : list PollResult :=
  slice_to (_polls self) n.

Section Pollster.

(** [str.lower] on any text.  Both the query and the stored names go
    through it, so it is left open here; [lower] above is what it does
    on the texts that are compared with ASCII keywords. *)
Variable str_lower : str -> str.

Definition get_by_pollster (self : PollingStore) (name : str)
  : list PollResult :=
  filter (fun p => is_substr (str_lower name) (str_lower (pollster p)))
         (_polls self).

End Pollster.

(** [getattr(p, field, None)] for the name of a percentage field. *)
Definition getattr_party (p : PollResult) (field : str) : option float :=
  if str_eqb field (py "con") then con p
  else if str_eqb field (py "lab") then lab p
  else if str_eqb field (py "lib_dem") then lib_dem p
  else if str_eqb field (py "reform") then reform p
  else if str_eqb field (py "green") then green p
  else if str_eqb field (py "snp") then snp p
  else if str_eqb field (py "other") then other p
  else None.

(** [s.replace(a, b)] for one-character [a] and [b]. *)
Definition replace_char (a b : char) (s : str) : str :=
  map (fun c => if c =? a then b else c) s.

(** The field a party name stands for in [get_by_party], if it is one of
    [PARTY_FIELDS]. *)
Definition resolve_field (party : str) : option str :=
  let normalized := strip (lower party) in
  let reverse_map := map (fun kv => (lower (snd kv), fst kv)) PARTY_DISPLAY_NAMES in
  let field :=
    match dict_get reverse_map normalized with
    | Some f => f
    | None => replace_char 32 95 normalized
    end in
  if existsb (str_eqb field) PARTY_FIELDS then Some field else None.

(** The dictionaries [get_by_party] returns. *)
Record DataPoint := {
  dp_date : option date;
  dp_value : float;
  dp_pollster : str
}.

(** [a or b] on optional dates. *)
Definition or_date (a b : option date) : option date :=
  match a with
  | Some d => Some d
  | None => b
  end.

Definition get_by_party (self : PollingStore) (party : str) : list DataPoint :=
  match resolve_field party with
  | None => []
  | Some field =>
      flat_map
        (fun p =>
           match getattr_party p field with
           | Some value =>
               [ {| dp_date := or_date (fieldwork_end p) (fieldwork_start p);
                    dp_value := value;
                    dp_pollster := pollster p |} ]
           | None => []
           end)
        (_polls self)
  end.

Definition get_date_range (self : PollingStore) (start end_ : date)
  : list PollResult :=
  filter (fun p => match fieldwork_end p with
                   | Some d => date_leb start d && date_leb d end_
                   | None => false
                   end) (_polls self).

(** [max(dates)] and [min(dates)] for a list with first element [d]. *)
Definition date_max (d : date) (rest : list date) : date :=
  fold_left (fun best x => if date_leb x best then best else x) rest d.

Definition date_min_of (d : date) (rest : list date) : date :=
  fold_left (fun best x => if date_leb best x then best else x) rest d.

Definition end_dates (polls : list PollResult) : list date :=
  flat_map (fun p => match fieldwork_end p with
                     | Some d => [d]
                     | None => []
                     end) polls.

Record PollingDataStatus := {
  total_polls : Z;
  latest_poll_date : option date;
  oldest_poll_date : option date;
  last_refreshed : option datetime;
  source : str
}.

Definition get_status (self : PollingStore) : PollingDataStatus :=
  let dates := end_dates (_polls self) in
  {| total_polls := len (_polls self);
     latest_poll_date :=
       match dates with d :: rest => Some (date_max d rest) | [] => None end;
     oldest_poll_date :=
       match dates with d :: rest => Some (date_min_of d rest) | [] => None end;
     last_refreshed := _last_refreshed self;
     source := _source self |}.

Record PollSummary := {
  period_start : date;
  period_end : date;
  poll_count : Z;
  averages : list (str * option float);
  leader : str;
  lead_margin : float
}.

Section Summary.

(** [statistics.mean] on a list of floats that is not empty. *)
Variable mean : list float -> float.

(** [date.today()] *)
Variable today : date.

(** The loop that fills [averages], in the order of [PARTY_FIELDS]. *)
Definition compute_averages (recent : list PollResult)
  : list (str * option float) :=
  map (fun field =>
         let values :=
           flat_map (fun p => match getattr_party p field with
                              | Some v => [v]
                              | None => []
                              end) recent in
         (match dict_get PARTY_DISPLAY_NAMES field with
          | Some name => name
          | None => []   (* every field has a display name *)
          end,
          match values with
          | [] => None
          | _ => Some (round1 (mean values))
          end))
      PARTY_FIELDS.

(** The key of the leader search: the average, [-1] for a missing one. *)
Definition average_key (v : option float) : float :=
  match v with
  | Some x => x
  | None => MINUS_ONE
  end.

(** [max(averages, key=...)], which keeps the first greatest entry. *)
Definition max_entry (first : str * option float)
  (rest : list (str * option float)) : str * option float :=
  fold_left
    (fun best item =>
       if fgt (average_key (snd item)) (average_key (snd best))
       then item else best)
    rest first.

(** [max(values, default=0.0)] *)
Definition max_or_zero (values : list float) : float :=
  match values with
  | [] => ZERO
  | v :: rest => fold_left (fun best x => if fgt x best then x else best) rest v
  end.

Definition get_summary (self : PollingStore) (n : Z) : option PollSummary :=
  let recent := slice_to (_polls self) n in
  match recent with
  | [] => None
  | _ =>
      let averages := compute_averages recent in
      match averages with
      | [] => None      (* [PARTY_FIELDS] is not empty *)
      | first :: rest =>
          let leader := fst (max_entry first rest) in
          let leader_val :=
            match snd (max_entry first rest) with
            | Some v => v
            | None => ZERO
            end in
          let second_val :=
            max_or_zero
              (flat_map (fun kv =>
                           if negb (str_eqb (fst kv) leader)
                           then match snd kv with
                                | Some v => [v]
                                | None => []
                                end
                           else [])
                        averages) in
          let lead_margin := round1 (fsub leader_val second_val) in
          let dates := end_dates recent in
          Some {| period_start :=
                    match dates with
                    | d :: ds => date_min_of d ds
                    | [] => today
                    end;
                  period_end :=
                    match dates with
                    | d :: ds => date_max d ds
                    | [] => today
                    end;
                  poll_count := len recent;
                  averages := averages;
                  leader := leader;
                  lead_margin := lead_margin |}
      end
  end.

End Summary.

(* ================================================================== *)
(** ** The refresh ([app.py]) *)

(** [refresh_polling_data]: [scraped] is what [scrape_polls()] did,
    [seed] is [SEED_POLLS].  [except Exception] takes every exception. *)
Definition refresh_polling_data (utcnow : datetime) (seed : list PollResult)
  (scraped : result (list PollResult)) (store : PollingStore)
  : PollingStore * Z :=
  let fallback :=
    if total_polls (get_status store) =? 0
    then load utcnow store seed (py "seed_data")
    else (store, 0) in
  match scraped with
  | Ok polls =>
      match polls with
      | [] => fallback
      | _ => load utcnow store polls (py "wikipedia")
      end
  | Raise _ => fallback
  end.

(* ================================================================== *)
(** ** Vocabulary of the statements about the parsers and the store *)


(** A date of the calendar: [date] builds it from its own fields. *)
Definition valid_date (d : date) : Prop :=
  make_date (year d) (month d) (day d) = Ok d.


(** A cell without span attributes, and a table of such cells. *)
Definition plain_cell (cell : Cell) : Prop :=
  rowspan cell = None /\ colspan cell = None.

Definition plain (table : Table) : Prop :=
  Forall (Forall plain_cell) (table_rows table).

(** The length of the longest row. *)
Definition widest {A} (rows : list (list A)) : nat :=
  list_max (map (@length A) rows).

(** A row filled up to [W] columns with empty texts. *)
Definition pad (W : nat) (row : list str) : list str :=
  row ++ repeat [] (W - length row).

(** What holds of [data] throughout the loop over the columns of a row:
    the client is not the empty text, the sample size is not negative,
    the fieldwork dates are dates of the calendar, in one year. *)
Definition data_inv (data : Data) : Prop :=
  data_client data <> Some [] /\
  (forall n, data_sample_size data = Some n -> 0 <= n) /\
  (forall d, data_fieldwork_start data = Some d \/ data_fieldwork_end data = Some d ->
             valid_date d) /\
  (forall a b, data_fieldwork_start data = Some a ->
               data_fieldwork_end data = Some b -> year a = year b).

(** The first record of the sample page. *)
Definition sample_poll : PollResult :=
  nth 0 sample_polls (make_poll WIKI_URL [] empty_data []).

(** The name of the percentage field of a party. *)
Definition party_field (p : party) : str :=
  match p with
  | Con => py "con"
  | Lab => py "lab"
  | LibDem => py "lib_dem"
  | Reform => py "reform"
  | Green => py "green"
  | SNP => py "snp"
  | Other => py "other"
  end.

(** The data point of a poll for a party, if the poll has a value for
    it: the end date, or else the start date, the value, the pollster. *)
Definition data_point (p : party) (poll : PollResult) : list DataPoint :=
  match party_value poll p with
  | Some v =>
      [ {| dp_date := match fieldwork_end poll with
                      | Some d => Some d
                      | None => fieldwork_start poll
                      end;
           dp_value := v;
           dp_pollster := pollster poll |} ]
  | None => []
  end.

(** The data points of a party over a list of polls, in its order. *)
Definition party_points (polls : list PollResult) (p : party) : list DataPoint :=
  flat_map (data_point p) polls.

(** The values the polls of a list have for a party, in its order. *)
Definition party_values_of (polls : list PollResult) (p : party) : list float :=
  flat_map (fun poll => match party_value poll p with
                        | Some v => [v]
                        | None => []
                        end) polls.

(** The average of a party over a list of polls: the mean of its values
    rounded to one decimal, nothing when no poll has a value for it. *)
Definition party_average (mean : list float -> float) (polls : list PollResult)
  (p : party) : option float :=
  match party_values_of polls p with
  | [] => None
  | _ :: _ => Some (round1 (mean (party_values_of polls p)))
  end.


(** A store of one poll that has no party values. *)
Definition blank_store : PollingStore :=
  fst (load 0 new_store [make_poll WIKI_URL (py "Anon") empty_data []]
         (py "seed_data")).

(* ================================================================== *)
(** ** Trends ([store.py]) *)

(** The decimal digit of [n] at position [k], as a character. *)
Definition digit_at (n k : Z) : char := 48 + (n / 10 ^ k) mod 10.

(** [str(d)] for a date: [YYYY-MM-DD]. *)
Definition isoformat (d : date) : str :=
  [digit_at (year d) 3; digit_at (year d) 2; digit_at (year d) 1;
   digit_at (year d) 0; 45;
   digit_at (month d) 1; digit_at (month d) 0; 45;
   digit_at (day d) 1; digit_at (day d) 0].

(** [str(x)] for a date or [None]. *)
Definition str_of_date (d : option date) : str :=
  match d with
  | Some d => isoformat d
  | None => py "None"
  end.

(** The dictionaries of a trend. *)
Record TrendPoint := {
  tp_date : str;
  tp_value : float
}.

(** [PartyTrend]; its field [party] is [trend_party] here. *)
Record PartyTrend := {
  trend_party : str;
  data_points : list TrendPoint
}.

Definition trend_point (dp : DataPoint) : TrendPoint :=
  {| tp_date := str_of_date (dp_date dp); tp_value := dp_value dp |}.

Definition get_trends (self : PollingStore) : list PartyTrend :=
  flat_map
    (fun field =>
       let points := get_by_party self field in
       match points with
       | [] => []
       | _ :: _ =>
           [ {| trend_party :=
                  match dict_get PARTY_DISPLAY_NAMES field with
                  | Some name => name
                  | None => []   (* every field has a display name *)
                  end;
                data_points := map trend_point points |} ]
       end)
    PARTY_FIELDS.

(** The polls whose sort key is the date [d]. *)
Definition has_key (d : date) (p : PollResult) : bool :=
  date_leb (sort_key p) d && date_leb d (sort_key p).

(* ================================================================== *)
(** ** The endpoints ([app.py])

    What an endpoint answers, from the state of the store: its result,
    or the [HTTPException] it raises.  The bounds that [Query] puts on a
    parameter are checked before the endpoint runs. *)

Inductive response (A : Type) :=
| Success (a : A)
| HTTPException (status_code : Z).
Arguments Success {A} a.
Arguments HTTPException {A} status_code.

Module App.

Definition get_summary (mean : list float -> float) (today : date)
  (polling_store : PollingStore) (n : Z) : response PollSummary :=
  match get_summary mean today polling_store n with
  | None => HTTPException 404
  | Some summary => Success summary
  end.

Definition get_by_pollster (str_lower : str -> str)
  (polling_store : PollingStore) (name : str) : response (list PollResult) :=
  let results := get_by_pollster str_lower polling_store name in
  match results with
  | [] => HTTPException 404
  | _ :: _ => Success results
  end.

Definition get_by_party (polling_store : PollingStore) (name : str)
  : response (list DataPoint) :=
  let results := get_by_party polling_store name in
  match results with
  | [] => HTTPException 404
  | _ :: _ => Success results
  end.

Definition get_date_range (polling_store : PollingStore) (start end_ : date)
  : response (list PollResult) :=
  if negb (date_leb start end_) then HTTPException 400
  else
    let results := get_date_range polling_store start end_ in
    match results with
    | [] => HTTPException 404
    | _ :: _ => Success results
    end.

End App.

Definition field_eqb (a b : field) : bool :=
  match a, b with
  | F_party p, F_party q => party_eqb p q
  | F_fieldwork, F_fieldwork => true
  | F_pollster, F_pollster => true
  | F_client, F_client => true
  | F_sample_size, F_sample_size => true
  | F_area, F_area => true
  | F_lead, F_lead => true
  | _, _ => false
  end.

(** The cell a field of a record is read from: the cell of the last
    column of the map that carries the field and lies within the row. *)
Definition cell_of (col_map : list (nat * field)) (row : list str) (f : field)
  : option str :=
  fold_left
    (fun found item =>
       if field_eqb (snd item) f
       then match nth_error row (fst item) with
            | Some text => Some text
            | None => found
            end
       else found)
    col_map None.

(** The state of the loop over the columns agrees with the cells the
    fields are read from. *)
Definition reads_cells (today_year : Z) (col_map : list (nat * field))
  (row : list str) (st : Data * PartyValues) : Prop :=
  data_pollster (fst st) = cell_of col_map row F_pollster /\
  data_client (fst st) =
    match cell_of col_map row F_client with
    | Some text => if is_empty text then None else Some text
    | None => None
    end /\
  Ok (data_fieldwork_start (fst st), data_fieldwork_end (fst st)) =
    match cell_of col_map row F_fieldwork with
    | Some text => _parse_fieldwork_dates today_year text
    | None => Ok (None, None)
    end /\
  Ok (data_sample_size (fst st)) =
    match cell_of col_map row F_sample_size with
    | Some text => _parse_sample_size text
    | None => Ok None
    end /\
  forall p, pv_get (snd st) p =
    match cell_of col_map row (F_party p) with
    | Some text => _parse_percentage text
    | None => None
    end.

(** The record of the first data row of the sample. *)
Definition sample_yougov : PollResult :=
  match process_row 2026 WIKI_URL sample_col_map sample_row with
  | Ok (Some poll) => poll
  | _ => make_poll WIKI_URL [] empty_data []
  end.


(* ================================================================== *)
(** * Properties *)

Unset Implicit Arguments.

(** ** Strings *)

Lemma str_eqb_eq (a b : str) : str_eqb a b = true <-> a = b.
Proof.
  revert b; induction a as [|x a IH]; intros [|y b]; simpl; split;
    try easy.
  - rewrite andb_true_iff, Z.eqb_eq, IH. now intros [-> ->].
  - intros [= -> ->]. rewrite Z.eqb_refl. now apply IH.
Qed.





Lemma lstrip_nospace (s : str) :
  Forall (fun c => isspace c = false) s -> lstrip s = s.
Proof. intros [|c l Hc _]; simpl; [easy|]. now rewrite Hc. Qed.

Lemma strip_nospace (s : str) :
  Forall (fun c => isspace c = false) s -> strip s = s.
Proof.
  intros H. unfold strip, rstrip. rewrite (lstrip_nospace _ H).
  rewrite lstrip_nospace, rev_involutive; [easy|].
  apply Forall_forall. intros x Hx. apply in_rev in Hx.
  now apply (proj1 (Forall_forall _ _) H).
Qed.

Lemma isdigit_nospace (c : char) : isdigit c = true -> isspace c = false.
Proof. unfold isdigit, isspace. lia. Qed.

Lemma digits_nospace (s : str) :
  Forall (fun c => isdigit c = true) s -> Forall (fun c => isspace c = false) s.
Proof. apply Forall_impl. exact isdigit_nospace. Qed.

(** ** The regular expression matcher *)

Lemma run_spec (p : char -> bool) (b : option nat) (s : str) :
  (run p b s <= length s)%nat /\
  Forall (fun c => p c = true) (firstn (run p b s) s) /\
  match b with Some h => (run p b s <= h)%nat | None => True end.
Proof.
  revert b; induction s as [|c s IH]; intros b; simpl.
  - repeat split; auto; destruct b; lia.
  - destruct (p c) eqn:Hc; [|simpl; repeat split; auto; destruct b; lia].
    destruct b as [[|h]|]; simpl.
    + repeat split; auto; lia.
    + destruct (IH (Some h)) as (H1 & H2 & H3). repeat split; auto; lia.
    + destruct (IH None) as (H1 & H2 & H3). repeat split; auto; lia.
Qed.

Lemma Forall_firstn_le {A} (P : A -> Prop) (k n : nat) (l : list A) :
  (k <= n)%nat -> Forall P (firstn n l) -> Forall P (firstn k l).
Proof.
  revert n l; induction k as [|k IH]; intros n l Hk H; simpl; [constructor|].
  destruct l as [|x l]; [constructor|].
  destruct n as [|n]; [lia|]. simpl in H. inversion H; subst.
  constructor; eauto with arith.
Qed.

Lemma try_lengths_unfold (l : nat) (s : str) (cont : str -> option (list str))
  (k : nat) :
  try_lengths l s cont k =
  match (if (l <=? k)%nat
         then option_map (cons (firstn k s)) (cont (skipn k s))
         else None) with
  | Some r => Some r
  | None => match k with
            | O => None
            | S k' => try_lengths l s cont k'
            end
  end.
Proof. destruct k; reflexivity. Qed.

Lemma try_lengths_sound (a : atom) (s : str) (cont : str -> option (list str))
  (k : nat) (ps : list str) :
  (k <= run (cls a) (hi a) s)%nat ->
  try_lengths (lo a) s cont k = Some ps ->
  exists j qs, (j <= k)%nat /\ ps = firstn j s :: qs /\
               cont (skipn j s) = Some qs /\ piece_ok a (firstn j s).
Proof.
  induction k as [|k IH]; intros Hk; rewrite try_lengths_unfold.
  - destruct (lo a <=? 0)%nat eqn:Hlo; [|discriminate].
    destruct (cont (skipn 0 s)) as [qs|] eqn:Hc; simpl; [|discriminate].
    intros [= Hps]. exists 0%nat, qs. apply Nat.leb_le in Hlo.
    repeat split; auto; simpl; try lia.
    destruct (hi a); auto. lia.
  - destruct (lo a <=? S k)%nat eqn:Hlo.
    + destruct (cont (skipn (S k) s)) as [qs|] eqn:Hc; cbn [option_map].
      * intros [= Hps]. exists (S k), qs.
        destruct (run_spec (cls a) (hi a) s) as (H1 & H2 & H3).
        assert (Hlen : length (firstn (S k) s) = S k)
          by (rewrite length_firstn; lia).
        apply Nat.leb_le in Hlo.
        repeat split; auto; rewrite ?Hlen; try lia.
        -- eapply Forall_firstn_le; [|exact H2]. lia.
        -- destruct (hi a); auto. lia.
      * intros H. destruct (IH ltac:(lia) H) as (j & qs & ? & ? & ? & ?).
        exists j, qs. intuition lia.
    + intros H. destruct (IH ltac:(lia) H) as (j & qs & ? & ? & ? & ?).
      exists j, qs. intuition lia.
Qed.

Lemma match_seq_sound (re : list atom) (s : str) (ps : list str) :
  match_seq re s = Some ps ->
  Forall2 piece_ok re ps /\ exists rest, s = concat ps ++ rest.
Proof.
  revert s ps; induction re as [|a re IH]; intros s ps; simpl.
  - intros [= <-]. split; [constructor|]. now exists s.
  - intros H. apply try_lengths_sound in H; [|lia].
    destruct H as (j & qs & _ & -> & Hq & Hp).
    destruct (IH _ _ Hq) as (HF & rest & Hrest). split.
    + now constructor.
    + exists rest. simpl. rewrite <- app_assoc, <- Hrest.
      now rewrite firstn_skipn.
Qed.

Lemma search_sound (re : list atom) (s : str) (ps : list str) :
  search re s = Some ps ->
  Forall2 piece_ok re ps /\ exists pre rest, s = pre ++ concat ps ++ rest.
Proof.
  induction s as [|c s IH]; simpl.
  - destruct (match_seq re []) as [qs|] eqn:Hm; [|discriminate].
    intros [= <-]. destruct (match_seq_sound _ _ _ Hm) as (HF & rest & Hr).
    split; auto. exists [], rest. exact Hr.
  - destruct (match_seq re (c :: s)) as [qs|] eqn:Hm.
    + intros [= <-]. destruct (match_seq_sound _ _ _ Hm) as (HF & rest & Hr).
      split; auto. exists [], rest. exact Hr.
    + intros H. destruct (IH H) as (HF & pre & rest & Hr).
      split; auto. exists (c :: pre), rest. simpl. now rewrite Hr.
Qed.


(** ** [int] on strings of digits *)

Lemma int_digits_all (s : str) :
  all_digits s ->
  forall c b acc n, isdigit c = true ->
    int_digits (c :: s) b acc n =
    Some (fold_left (fun a x => a * 10 + digit_val x) (c :: s) acc,
          (n + S (length s))%nat).
Proof.
  induction 1 as [|d s Hd Hs IH]; intros c b acc n Hc.
  - simpl. rewrite Hc. do 2 f_equal. lia.
  - change (int_digits (c :: d :: s) b acc n)
      with (if isdigit c
            then int_digits (d :: s) true (acc * 10 + digit_val c) (S n)
            else if (c =? 95) && b then int_digits (d :: s) false acc n
                 else None).
    rewrite Hc, (IH d true _ _ Hd). simpl. do 2 f_equal. lia.
Qed.

Lemma py_int_digits (s : str) :
  all_digits s -> s <> [] -> (length s <= INT_MAX_STR_DIGITS)%nat ->
  py_int s = Ok (digits_val s).
Proof.
  intros Hs Hne Hlen. unfold py_int.
  rewrite (strip_nospace _ (digits_nospace _ Hs)).
  destruct s as [|c s]; [easy|]. inversion Hs as [|? ? Hc Hs']; subst.
  assert ((c =? 43) = false /\ (c =? 45) = false) as [-> ->]
    by (unfold isdigit in Hc; lia).
  rewrite (int_digits_all _ Hs' _ _ _ _ Hc).
  simpl length in *.
  destruct (Nat.ltb_spec INT_MAX_STR_DIGITS (0 + S (length s))); [lia|].
  reflexivity.
Qed.

Lemma pieces_digits (re : list atom) (ps : list str) :
  Forall2 piece_ok re ps ->
  Forall (fun a => forall c, cls a c = true -> isdigit c = true) re ->
  all_digits (concat ps).
Proof.
  induction 1 as [|a p re ps (Hp & _) _ IH]; intros Hre; simpl.
  - constructor.
  - inversion Hre as [|? ? Ha Hre']; subst. apply Forall_app. split.
    + eapply Forall_impl; [|exact Hp]. exact Ha.
    + now apply IH.
Qed.

Lemma is_char_digit (d c : char) :
  isdigit d = true -> is_char d c = true -> isdigit c = true.
Proof. unfold is_char. intros Hd Hc. apply Z.eqb_eq in Hc. now subst. Qed.

Ltac digit_atoms :=
  repeat (apply Forall_cons;
          [simpl; intros ?; first [exact (fun H => H)
                                  | apply is_char_digit; reflexivity]|]);
  apply Forall_nil.

(** ** The parsers never raise *)

Lemma year_pieces (text : str) (ps : list str) :
  search RE_YEAR text = Some ps ->
  all_digits (concat ps) /\ length (concat ps) = 4%nat.
Proof.
  intros H. destruct (search_sound _ _ _ H) as (HF & _). split.
  - apply (pieces_digits _ _ HF). unfold RE_YEAR. digit_atoms.
  - unfold RE_YEAR in HF.
    inversion HF as [|? p1 ? ? (_ & L1 & U1) HF1]; subst.
    inversion HF1 as [|? p2 ? ? (_ & L2 & U2) HF2]; subst.
    inversion HF2 as [|? p3 ? ? (_ & L3 & U3) HF3]; subst.
    inversion HF3; subst. simpl in *. rewrite !length_app. simpl. lia.
Qed.

Lemma find_year_returns (today_year : Z) (text : str) :
  returns (find_year today_year text).
Proof.
  unfold find_year. destruct (search RE_YEAR text) as [ps|] eqn:Hs.
  - destruct (year_pieces _ _ Hs) as (Hd & Hl).
    exists (digits_val (concat ps)). apply py_int_digits; auto.
    + intros E. rewrite E in Hl. discriminate.
    + rewrite Hl. unfold INT_MAX_STR_DIGITS. lia.
  - now exists today_year.
Qed.

Lemma day_piece (p : str) :
  piece_ok (digits 1 (Some 2%nat)) p ->
  py_int p = Ok (digits_val p) /\ all_digits p /\ (1 <= length p <= 2)%nat.
Proof.
  intros (Hd & Hl & Hu). simpl in *. repeat split; auto.
  apply py_int_digits; auto.
  - intros ->. simpl in Hl. lia.
  - unfold INT_MAX_STR_DIGITS. lia.
Qed.

Lemma except_make_date (y m d : Z) (dflt : option date) :
  returns (except_ValueError (x <- make_date y m d ;; Ok (Some x)) (Ok dflt)).
Proof.
  unfold make_date.
  destruct ((1 <=? y) && (y <=? 9999) && (1 <=? m) && (m <=? 12)
            && (1 <=? d) && (d <=? days_in_month y m)); simpl; eexists; eauto.
Qed.

Lemma _parse_date_text_returns (today_year : Z) (text : str) (year : option Z) :
  returns (_parse_date_text today_year text year).
Proof.
  unfold _parse_date_text.
  destruct (is_empty (strip text)); [now eexists|].
  assert (Hy : returns (match year with
                        | Some y => if y =? 0 then find_year today_year (strip text) else Ok y
                        | None => find_year today_year (strip text)
                        end)).
  { destruct year as [y|]; [destruct (y =? 0)|];
      try apply find_year_returns; now eexists. }
  destruct Hy as (y & ->). cbn [bind].
  destruct (search RE_DAY_MONTH (strip text)) as [ps|] eqn:Hs; [|now eexists].
  destruct (search_sound _ _ _ Hs) as (HF & _).
  destruct ps as [|g1 [|g [|g2 [|? ?]]]]; try (now eexists).
  inversion HF as [|? ? ? ? Hg1 _]; subst.
  destruct (day_piece _ Hg1) as (-> & _). cbn [bind].
  destruct (dict_get months (lower g2)) as [m|]; [|now eexists].
  destruct (negb (m =? 0) && (1 <=? digits_val g1) && (digits_val g1 <=? 31));
    [|now eexists].
  apply except_make_date.
Qed.

Lemma _parse_fieldwork_dates_returns (today_year : Z) (text : str) :
  returns (_parse_fieldwork_dates today_year text).
Proof.
  unfold _parse_fieldwork_dates.
  destruct (is_empty (strip text)); [now eexists|].
  destruct (find_year_returns today_year (strip text)) as (y & ->). cbn [bind].
  destruct (split_once is_range_sep (strip text)) as [[p0 p1]|].
  - destruct (_parse_date_text_returns today_year (strip p1) (Some y)) as (e & ->).
    destruct (_parse_date_text_returns today_year (strip p0) (Some y)) as (b & ->).
    cbn [bind].
    assert (H : returns
      match b, e with
      | None, Some e0 =>
          match search RE_DAY (strip p0) with
          | Some ps =>
              except_ValueError
                (n <- py_int (concat ps) ;;
                 d <- make_date y (month e0) n ;; Ok (Some d)) (Ok b)
          | None => Ok b
          end
      | _, _ => Ok b
      end).
    { destruct b; [now eexists|]. destruct e as [e0|]; [|now eexists].
      destruct (search RE_DAY (strip p0)) as [ps|] eqn:Hs; [|now eexists].
      destruct (search_sound _ _ _ Hs) as (HF & _).
      inversion HF as [|? p ? ? Hp HF1]; subst. inversion HF1; subst.
      cbn [concat]. rewrite app_nil_r.
      destruct (day_piece _ Hp) as (-> & _). cbn [bind].
      apply except_make_date. }
    destruct H as (b' & ->). now eexists.
  - destruct (_parse_date_text_returns today_year (strip text) (Some y)) as (d & ->).
    now eexists.
Qed.


(** ** List indexing *)

Lemma py_index_in (n i : Z) : 0 <= i < n -> py_index n i = Ok (Z.to_nat i).
Proof.
  intros H. unfold py_index.
  destruct (Z.ltb_spec i 0); [lia|].
  destruct (Z.leb_spec 0 i); [|lia]. destruct (Z.ltb_spec i n); [|lia].
  reflexivity.
Qed.

Lemma znth_in {A} (l : list A) (i : Z) :
  0 <= i < len l -> exists a, znth l i = Some a.
Proof.
  intros H. unfold znth, len in *. destruct (Z.ltb_spec i 0); [lia|].
  destruct (nth_error l (Z.to_nat i)) eqn:E; [eauto|].
  apply nth_error_None in E. lia.
Qed.



Lemma py_set_in {A} (l : list A) (i : Z) (a : A) :
  0 <= i < len l -> py_set l i a = Ok (update_nth l (Z.to_nat i) a).
Proof. intros H. unfold py_set. now rewrite (py_index_in _ _ H). Qed.


Lemma nth_error_update_nth {A} (l : list A) (j k : nat) (a : A) :
  (j < length l)%nat ->
  nth_error (update_nth l j a) k = if (k =? j)%nat then Some a else nth_error l k.
Proof.
  revert j k; induction l as [|x l IH]; intros j k Hj; simpl in Hj; [lia|].
  destruct j as [|j], k as [|k]; simpl; auto.
  apply IH. lia.
Qed.




Lemma znth_Forall {A} (P : A -> Prop) (l : list A) (i : Z) (a : A) :
  Forall P l -> znth l i = Some a -> P a.
Proof.
  intros H. unfold znth. destruct (i <? 0); [discriminate|].
  intros E. apply nth_error_In in E. now apply (proj1 (Forall_forall _ _) H).
Qed.

(** ** The grid builder: one slot, one rectangle *)





Lemma slot_in (R W : nat) (g : Grid) (r c : Z) :
  shape R W g -> 0 <= r < Z.of_nat R -> 0 <= c < Z.of_nat W ->
  exists x, slot g r c = Some x.
Proof.
  intros (HR & HW) Hr Hc. unfold slot.
  destruct (znth_in g r) as (row & Er); [unfold len; lia|]. rewrite Er.
  pose proof (znth_Forall (fun row => length row = W) g r row HW Er) as L.
  simpl in L. apply znth_in. unfold len. lia.
Qed.





(** ** The grid builder: cursor, rows, whole table *)












(** ** The row mapper never raises on short texts *)









(** ** Floats: order *)

Lemma view_inj (x y : float) : view x = view y -> x = y.
Proof.
  destruct x as [|s|[[a b] Ha]], y as [|s'|[[c d] Hc]]; simpl;
    try discriminate; auto.
  - now intros [= ->].
  - intros [= -> ->]. f_equal. now apply Qc_is_canon.
Qed.

Ltac qcmp :=
  unfold Qccompare in *;
  repeat match goal with
         | |- context [Qcompare ?a ?b] => destruct (Qcompare_spec a b)
         | H : context [Qcompare ?a ?b] |- _ => destruct (Qcompare_spec a b)
         end;
  try discriminate; try reflexivity; try lra.

Lemma percentage_number (x : float) : percentage x -> number x.
Proof. destruct x; simpl; unfold number; congruence. Qed.

Lemma opt_view_inj (x y : option float) :
  option_map view x = option_map view y -> x = y.
Proof.
  destruct x, y; simpl; try discriminate; auto.
  intros [= H]. f_equal. now apply view_inj.
Qed.

Ltac fcases :=
  simpl; intros;
  repeat match goal with b : bool |- _ => destruct b end;
  simpl in *; try congruence; try reflexivity; try qcmp.

Lemma fge_negb_fgt (a b : float) :
  number a -> number b -> fge a b = negb (fgt b a).
Proof. unfold number. destruct a as [|s|x], b as [|t|y]; fcases. Qed.

Lemma fgt_fge_trans (a b c : float) :
  fgt a b = true -> fge b c = true -> fgt a c = true.
Proof. destruct a as [|s|x], b as [|t|y], c as [|u|z]; fcases. Qed.

Lemma fge_trans (a b c : float) :
  fge a b = true -> fge b c = true -> fge a c = true.
Proof. destruct a as [|s|x], b as [|t|y], c as [|u|z]; fcases. Qed.

Lemma fge_antisym (a b : float) :
  fge a b = true -> fge b a = true -> a = b.
Proof.
  destruct a as [|s|x], b as [|t|y]; try (now fcases).
  simpl. intros H1 H2. f_equal. apply Qc_is_canon. revert H1 H2. qcmp.
Qed.

Lemma fge_refl (a : float) : number a -> fge a a = true.
Proof. unfold number. destruct a as [|s|x]; fcases. Qed.

Lemma fgt_fge (a b : float) : fgt a b = true -> fge a b = true.
Proof. destruct a as [|s|x], b as [|t|y]; fcases. Qed.

Lemma fgt_MINUS_ONE (v : float) : percentage v -> fgt v MINUS_ONE = true.
Proof.
  destruct v as [|s|x]; simpl; try easy.
  - now intros ->.
  - unfold Qcle. intros H. qcmp.
    + assert (E : (Q2Qc (-1) : Q) == -1) by apply Qred_correct.
      simpl in *. lra.
    + assert (E : (Q2Qc (-1) : Q) == -1) by apply Qred_correct.
      simpl in *. lra.
Qed.

Lemma fge_ZERO (v : float) : percentage v <-> fge v ZERO = true.
Proof.
  destruct v as [|s|x]; simpl; try easy.
  - destruct s; simpl; split; congruence.
  - unfold Qcle. split; intros H; revert H; qcmp.
Qed.

Lemma fge_MINUS_ONE_ZERO : fge MINUS_ONE ZERO = false.
Proof. reflexivity. Qed.

(** ** Floats: rounding keeps the sign *)

Lemma round_half_even_nonneg (n d : Z) :
  0 <= n -> 0 < d -> 0 <= round_half_even n d.
Proof.
  intros Hn Hd. unfold round_half_even.
  assert (0 <= n / d) by (apply Z.div_pos; lia).
  destruct (2 * (n mod d) ?= d); [destruct (Z.even (n / d))| |]; lia.
Qed.

Lemma scale2_pos (n d k : Z) :
  0 < n -> 0 < d -> 0 < fst (scale2 n d k) /\ 0 < snd (scale2 n d k).
Proof.
  intros Hn Hd. unfold scale2. destruct (Z.leb_spec 0 k); simpl.
  - split; auto. apply Z.mul_pos_pos; auto. apply Z.pow_pos_nonneg; lia.
  - split; auto. apply Z.mul_pos_pos; auto. apply Z.pow_pos_nonneg; lia.
Qed.

Lemma dyadic_nonneg (m e : Z) : 0 <= m -> (0 <= dyadic m e)%Q.
Proof.
  intros Hm. unfold dyadic. destruct (Z.leb_spec 0 e).
  - unfold Qle. simpl. assert (0 < 2 ^ e) by (apply Z.pow_pos_nonneg; lia). nia.
  - unfold Qle. simpl. lia.
Qed.

Lemma Q2Qc_nonneg (x : Q) : (0 <= x)%Q -> (0 <= Q2Qc x)%Qc.
Proof.
  intros H. unfold Qcle. simpl.
  rewrite (Qred_correct x). exact H.
Qed.

Lemma round64_pos_percentage (n d : Z) :
  0 < n -> 0 < d -> percentage (round64_pos n d).
Proof.
  intros Hn Hd. unfold round64_pos.
  set (e := Z.max (floor_log2 n d - 52) (-1074)).
  destruct (scale2 n d e) as [n' d'] eqn:E.
  pose proof (scale2_pos n d e Hn Hd) as (H1 & H2). rewrite E in H1, H2.
  simpl in H1, H2.
  destruct ((971 <? e) || ((e =? 971) && (2 ^ 53 <=? round_half_even n' d')));
    simpl; [reflexivity|].
  apply Q2Qc_nonneg, dyadic_nonneg, round_half_even_nonneg; lia.
Qed.

Lemma round64_percentage (q : Q) : (0 <= q)%Q -> percentage (round64 q).
Proof.
  intros H. unfold round64. destruct q as [num den]. simpl.
  destruct num as [|n|n].
  - simpl. unfold Qcle. simpl. lra.
  - apply round64_pos_percentage; lia.
  - unfold Qle in H. simpl in H. lia.
Qed.

Lemma round1_percentage (x : float) : percentage x -> percentage (round1 x).
Proof.
  destruct x as [|s|q]; simpl; auto. intros H.
  apply round64_percentage. unfold Qle. simpl.
  assert (0 <= Qnum q).
  { unfold Qcle, Qle in H. simpl in H. lia. }
  assert (0 <= round_half_even (Qnum q * 10) (Z.pos (Qden q)))
    by (apply round_half_even_nonneg; lia).
  lia.
Qed.

(** The difference of two percentages, the first at least the second,
    is a percentage, unless both are infinite. *)
Lemma fsub_percentage (a b : float) :
  percentage a -> percentage b -> fge a b = true ->
  percentage (fsub a b) \/ (fsub a b = NaN /\ a = Inf false /\ b = Inf false).
Proof.
  destruct a as [|s|x], b as [|t|y]; simpl; try easy.
  - intros -> ->. now right.
  - intros -> _ _. now left.
  - intros _ -> H. discriminate.
  - intros Hx Hy H. left. apply round64_percentage.
    assert (Hle : (y <= x)%Qc) by (apply Qcge_alt; intros E; now rewrite E in H).
    apply Qcle_minus_iff in Hle. exact Hle.
Qed.

Lemma digits_val_nonneg (s : str) : all_digits s -> 0 <= digits_val s.
Proof.
  unfold digits_val. intros H.
  assert (G : forall acc, 0 <= acc ->
            0 <= fold_left (fun a c => a * 10 + digit_val c) s acc).
  { induction H as [|c s Hc _ IH]; intros acc Hacc; simpl; auto.
    apply IH. unfold isdigit, digit_val in *. lia. }
  apply G. lia.
Qed.

Lemma split_once_none (p : char -> bool) (s : str) :
  Forall (fun c => p c = false) s -> split_once p s = None.
Proof.
  induction 1 as [|c s Hc _ IH]; simpl; auto. now rewrite Hc, IH.
Qed.

Lemma split_once_first (p : char -> bool) (a b : str) (c : char) :
  Forall (fun x => p x = false) a -> p c = true ->
  split_once p (a ++ c :: b) = Some (a, b).
Proof.
  intros Ha Hc. induction Ha as [|x a Hx _ IH]; simpl.
  - now rewrite Hc.
  - now rewrite Hx, IH.
Qed.

Lemma digits_no_dot (s : str) :
  all_digits s -> Forall (fun c => is_char 46 c = false) s.
Proof.
  apply Forall_impl. intros c Hc. unfold isdigit, is_char in *. lia.
Qed.

Lemma float_of_numeral_int (s : str) :
  all_digits s -> float_of_numeral s = round64 (inject_Z (digits_val s)).
Proof.
  intros H. unfold float_of_numeral.
  now rewrite (split_once_none _ _ (digits_no_dot _ H)).
Qed.

Lemma float_of_numeral_frac (i f : str) :
  all_digits i ->
  float_of_numeral (i ++ 46 :: f) =
  round64 (Qmake (digits_val (i ++ f)) (Z.to_pos (10 ^ Z.of_nat (length f)))).
Proof.
  intros H. unfold float_of_numeral.
  pose proof (split_once_first (is_char 46) i f 46 (digits_no_dot _ H) eq_refl)
    as E.
  unfold str, char in *. now rewrite E.
Qed.

(** The shape of a match of the numeral pattern. *)
Lemma numeral_pieces (ps : list str) :
  Forall2 piece_ok RE_NUMERAL ps ->
  exists i f, all_digits i /\ i <> [] /\ all_digits f /\
              (concat ps = i ++ f \/ concat ps = i ++ 46 :: f).
Proof.
  unfold RE_NUMERAL. intros HF.
  inversion HF as [|? i ? ? (Hi & Li & _) HF1]; subst.
  inversion HF1 as [|? d ? ? (Hd & _ & Ud) HF2]; subst.
  inversion HF2 as [|? f ? ? (Hf & _ & _) HF3]; subst.
  inversion HF3; subst. simpl in *.
  exists i, f. repeat split; auto.
  - intros ->. simpl in Li. lia.
  - rewrite app_nil_r. destruct d as [|c [|? ?]]; simpl in *; [now left| |lia].
    right. inversion Hd as [|? ? Hc _]; subst.
    unfold is_char in Hc. apply Z.eqb_eq in Hc. now subst.
Qed.

Lemma float_of_numeral_percentage (ps : list str) :
  Forall2 piece_ok RE_NUMERAL ps -> percentage (float_of_numeral (concat ps)).
Proof.
  intros HF. destruct (numeral_pieces ps HF) as (i & f & Hi & _ & Hf & [E|E]);
    rewrite E.
  - rewrite float_of_numeral_int by (apply Forall_app; now split).
    apply round64_percentage. unfold Qle. simpl.
    pose proof (digits_val_nonneg (i ++ f) ltac:(apply Forall_app; now split)).
    lia.
  - rewrite float_of_numeral_frac by assumption.
    apply round64_percentage. unfold Qle. simpl.
    pose proof (digits_val_nonneg (i ++ f) ltac:(apply Forall_app; now split)).
    lia.
Qed.

Lemma _parse_percentage_percentage (text : str) (v : float) :
  _parse_percentage text = Some v -> percentage v.
Proof.
  unfold _parse_percentage.
  destruct (is_empty _ || str_eqb _ _); [discriminate|].
  destruct (search RE_NUMERAL _) as [ps|] eqn:Hs; [|discriminate].
  intros [= <-]. apply float_of_numeral_percentage.
  now destruct (search_sound _ _ _ Hs).
Qed.

(** ** The dictionary of party values *)

Lemma party_eqb_eq (a b : party) : party_eqb a b = true <-> a = b.
Proof. destruct a, b; simpl; split; congruence. Qed.

Lemma party_eqb_refl (a : party) : party_eqb a a = true.
Proof. now destruct a. Qed.

Lemma party_eqb_sym (a b : party) : party_eqb a b = party_eqb b a.
Proof. now destruct a, b. Qed.

Lemma existsb_party (k : party) (s : list party) :
  existsb (party_eqb k) s = true <-> In k s.
Proof.
  rewrite existsb_exists. split.
  - intros (x & Hx & E). apply party_eqb_eq in E. now subst.
  - intros H. exists k. split; auto. apply party_eqb_refl.
Qed.

Lemma set_add_cons (k k' : party) (s : list party) :
  party_eqb k' k = false -> set_add k (k' :: s) = k' :: set_add k s.
Proof.
  intros H. unfold set_add. simpl. rewrite party_eqb_sym, H. simpl.
  now destruct (existsb (party_eqb k) s).
Qed.

Lemma pv_set_keys (d : PartyValues) (k : party) (v : option float) :
  map fst (pv_set d k v) = set_add k (map fst d).
Proof.
  induction d as [|[k' v'] d IH]; simpl; [reflexivity|].
  destruct (party_eqb k' k) eqn:E; simpl.
  - unfold set_add. simpl. now rewrite party_eqb_sym, E.
  - now rewrite set_add_cons, IH.
Qed.

Lemma set_add_NoDup (k : party) (s : list party) :
  NoDup s -> NoDup (set_add k s).
Proof.
  intros H. unfold set_add. destruct (existsb (party_eqb k) s) eqn:E; auto.
  assert (Hk : ~ In k s) by (rewrite <- existsb_party; congruence).
  clear E. induction H as [|x s Hx Hs IH]; simpl.
  - constructor; [easy|constructor].
  - constructor.
    + rewrite in_app_iff. simpl. intros [?|[?|[]]]; [easy|]. subst.
      apply Hk. now left.
    + apply IH. intros ?. apply Hk. now right.
Qed.

Lemma in_pv_set (d : PartyValues) (k k' : party) (v v' : option float) :
  In (k', v') (pv_set d k v) -> In (k', v') d \/ (k' = k /\ v' = v).
Proof.
  induction d as [|[k0 v0] d IH]; simpl.
  - intros [[= <- <-]|[]]. now right.
  - destruct (party_eqb k0 k) eqn:E; simpl.
    + apply party_eqb_eq in E. subst. intros [[= <- <-]|H]; auto.
    + intros [H|H]; auto. destruct (IH H); auto.
Qed.

Lemma pv_get_in (d : PartyValues) (k : party) (v : option float) :
  NoDup (map fst d) -> In (k, v) d -> pv_get d k = v.
Proof.
  induction d as [|[k0 v0] d IH]; simpl; [easy|].
  intros Hnd [[= -> ->]|H].
  - now rewrite party_eqb_refl.
  - inversion Hnd as [|? ? Hk0 Hnd']; subst.
    destruct (party_eqb k0 k) eqn:E; [|auto].
    apply party_eqb_eq in E. subst. exfalso. apply Hk0.
    change k with (fst (k, v)). now apply in_map.
Qed.

Lemma pv_get_some (d : PartyValues) (k : party) (v : float) :
  pv_get d k = Some v -> In (k, Some v) d.
Proof.
  induction d as [|[k0 v0] d IH]; simpl; [discriminate|].
  destruct (party_eqb k0 k) eqn:E.
  - apply party_eqb_eq in E. subst. intros ->. now left.
  - intros H. right. auto.
Qed.

(** ** Dates *)

Lemma make_date_ge_min (y m d : Z) (x : date) :
  make_date y m d = Ok x -> date_leb date_min x = true.
Proof.
  unfold make_date.
  destruct ((1 <=? y) && (y <=? 9999) && (1 <=? m) && (m <=? 12)
            && (1 <=? d) && (d <=? days_in_month y m)) eqn:E; [|discriminate].
  intros [= <-]. unfold date_leb, date_min. cbn [year month day].
  rewrite !andb_true_iff, !Z.leb_le in E.
  destruct (Z.ltb_spec 1 y); cbn [orb]; auto.
  destruct (Z.eqb_spec 1 y); cbn [andb]; [|lia].
  destruct (Z.ltb_spec 1 m); cbn [orb]; auto.
  destruct (Z.eqb_spec 1 m); cbn [andb]; [|lia].
  apply Z.leb_le. lia.
Qed.

Lemma except_make_date_ge_min (y m d : Z) (dflt r : option date) :
  except_ValueError (x <- make_date y m d ;; Ok (Some x)) (Ok dflt) = Ok r ->
  r = dflt \/ exists x, r = Some x /\ date_leb date_min x = true.
Proof.
  destruct (make_date y m d) as [x|[]] eqn:E; simpl.
  - intros [= <-]. right. exists x. split; auto. eapply make_date_ge_min; eauto.
  - intros [= <-]. now left.
  - discriminate.
Qed.

Lemma _parse_date_text_ge_min (today_year : Z) (text : str) (year : option Z)
  (r : option date) :
  _parse_date_text today_year text year = Ok r -> ge_min r.
Proof.
  unfold _parse_date_text.
  destruct (is_empty (strip text)); [now intros [= <-]|].
  destruct (match year with
            | Some y => if y =? 0 then find_year today_year (strip text) else Ok y
            | None => find_year today_year (strip text)
            end) as [y|]; [|discriminate].
  cbn [bind].
  destruct (search RE_DAY_MONTH (strip text)) as [ps|]; [|now intros [= <-]].
  destruct ps as [|g1 [|g [|g2 [|? ?]]]]; try (now intros [= <-]).
  destruct (py_int g1) as [dd|]; [|discriminate]. cbn [bind].
  destruct (dict_get months (lower g2)) as [m|]; [|now intros [= <-]].
  destruct (negb (m =? 0) && (1 <=? dd) && (dd <=? 31)); [|now intros [= <-]].
  intros H. apply except_make_date_ge_min in H.
  destruct H as [->|(x & -> & Hx)]; simpl; auto.
Qed.

Lemma _parse_fieldwork_dates_ge_min (today_year : Z) (text : str)
  (se : option date * option date) :
  _parse_fieldwork_dates today_year text = Ok se -> ge_min (snd se).
Proof.
  unfold _parse_fieldwork_dates.
  destruct (is_empty (strip text)); [now intros [= <-]|].
  destruct (find_year today_year (strip text)) as [y|]; [|discriminate].
  cbn [bind].
  destruct (split_once is_range_sep (strip text)) as [[p0 p1]|].
  - destruct (_parse_date_text today_year (strip p1) (Some y)) as [e|] eqn:Ee;
      [|discriminate].
    cbn [bind].
    destruct (_parse_date_text today_year (strip p0) (Some y)) as [b|];
      [|discriminate].
    cbn [bind].
    match goal with
    | |- bind ?m _ = _ -> _ => destruct m as [b'|]; [|discriminate]
    end.
    cbn [bind]. intros [= <-]. simpl.
    eapply _parse_date_text_ge_min; eauto.
  - destruct (_parse_date_text today_year (strip text) (Some y)) as [d|] eqn:Ed;
      [|discriminate].
    cbn [bind]. intros [= <-]. simpl. eapply _parse_date_text_ge_min; eauto.
Qed.

(** ** The loop over the columns of a row *)

Lemma apply_column_inv (today_year : Z) (row : list str)
  (st st' : Data * PartyValues) (item : nat * field) :
  apply_column today_year row st item = Ok st' ->
  row_inv st ->
  row_inv st' /\
  map fst (snd st') =
  fold_left (fun s p => set_add p s) (party_column row item) (map fst (snd st)).
Proof.
  destruct st as [data pv], item as [i f]. unfold apply_column, party_column.
  cbn [fst snd].
  destruct (nth_error row i) as [cell|] eqn:E.
  - assert (Hi : (i <? length row)%nat = true).
    { apply Nat.ltb_lt. apply nth_error_Some. congruence. }
    rewrite Hi. intros H (Hd & Hn & Hp). cbn [fst snd] in Hd, Hn, Hp.
    destruct f; cbn [fold_left]; unfold row_inv;
      try (injection H as <-; cbn [fst snd]; now repeat split).
    + injection H as <-. cbn [fst snd]. repeat split; auto.
      * rewrite pv_set_keys. now apply set_add_NoDup.
      * intros k v Hin. apply in_pv_set in Hin.
        destruct Hin as [Hin|(-> & Hv)]; [eauto|].
        symmetry in Hv. eapply _parse_percentage_percentage; eauto.
      * apply pv_set_keys.
    + destruct (_parse_fieldwork_dates today_year cell) as [se|] eqn:Ese;
        [|discriminate].
      cbn [bind] in H. injection H as <-. cbn [fst snd].
      repeat split; auto. cbn [data_fieldwork_end].
      eapply _parse_fieldwork_dates_ge_min; eauto.
    + destruct (_parse_sample_size cell) as [n|]; [|discriminate].
      cbn [bind] in H. injection H as <-. cbn [fst snd]. now repeat split.
  - intros [= <-] Hinv. split; auto.
    destruct f; auto. cbn [fst snd].
    destruct (Nat.ltb_spec i (length row)); auto.
    apply nth_error_None in E. lia.
Qed.

Lemma columns_inv (today_year : Z) (row : list str) (cm : list (nat * field)) :
  forall st st',
    for_each cm st (apply_column today_year row) = Ok st' ->
    row_inv st ->
    row_inv st' /\
    map fst (snd st') =
    fold_left (fun s p => set_add p s) (flat_map (party_column row) cm)
      (map fst (snd st)).
Proof.
  induction cm as [|item cm IH]; intros st st'; cbn [for_each flat_map].
  - intros [= <-] H. now split.
  - destruct (apply_column today_year row st item) as [st1|] eqn:E;
      [|discriminate].
    cbn [bind]. intros H Hinv.
    destruct (apply_column_inv _ _ _ _ _ E Hinv) as (Hinv1 & K1).
    destruct (IH _ _ H Hinv1) as (Hinv' & K'). split; auto.
    now rewrite fold_left_app, <- K1.
Qed.

Lemma row_inv_init : row_inv (empty_data, []).
Proof.
  unfold row_inv. cbn [fst snd]. repeat split.
  - constructor.
  - intros k v [].
Qed.

(** ** The leader and the runner-up *)

Lemma best_of_snoc (pv : PartyValues) (item : party * option float) :
  best_of (pv ++ [item]) = best_step (best_of pv) item.
Proof. unfold best_of. now rewrite fold_left_app. Qed.

Lemma pvals_app (a b : PartyValues) : pvals (a ++ b) -> pvals a /\ pvals b.
Proof.
  intros H. split; intros k v Hin; apply (H k v); apply in_app_iff; auto.
Qed.

Ltac split_in :=
  intros;
  repeat match goal with
         | H : In _ (_ ++ _) |- _ => apply in_app_iff in H; destruct H as [H|H]
         | H : In _ (_ :: _) |- _ => destruct H as [H|H]
         | H : In _ [] |- _ => destruct H
         | H : (_, None) = (_, Some _) |- _ => discriminate H
         | H : (_, Some _) = (_, Some _) |- _ => injection H as ? ?; subst
         end.

Ltac in_snoc :=
  first [ apply in_app_iff; left; assumption
        | apply in_app_iff; right; left; reflexivity ].

(** The loop that determines the leader stops at the first entry, in the
    order of the dictionary, whose value is greatest. *)
Lemma best_of_spec (pv : PartyValues) :
  pvals pv ->
  ((forall k v, ~ In (k, Some v) pv) /\ best_of pv = (None, MINUS_ONE)) \/
  (exists pre p v post,
      pv = pre ++ (p, Some v) :: post /\ best_of pv = (Some p, v) /\
      (forall k w, In (k, Some w) pre -> fgt v w = true) /\
      (forall k w, In (k, Some w) post -> fge v w = true)).
Proof.
  induction pv as [|[q o] pv IH] using rev_ind; intros Hp.
  - left. split; [intros k v []|reflexivity].
  - destruct (pvals_app _ _ Hp) as (Hp1 & Hp2).
    rewrite best_of_snoc. unfold best_step. cbn [fst snd].
    destruct (IH Hp1) as [(Hnone & ->)|(pre & p & v & post & E & -> & Hpre & Hpost)];
      destruct o as [w|]; cbn [snd].
    + assert (Hw : percentage w) by (apply (Hp2 q); now left).
      rewrite (fgt_MINUS_ONE w Hw). right.
      exists pv, q, w, []. split; [reflexivity|]. split; [reflexivity|].
      split; split_in. now apply Hnone in H.
    + left. split; [|reflexivity]. intros k v Hin. split_in.
      now apply Hnone in Hin.
    + assert (Hw : percentage w) by (apply (Hp2 q); now left).
      assert (Hv : percentage v).
      { apply (Hp1 p). rewrite E. apply in_app_iff. right. now left. }
      destruct (fgt w v) eqn:Hgt; right.
      * exists pv, q, w, []. split; [reflexivity|]. split; [reflexivity|].
        split; [|split_in]. intros k w' Hin. rewrite E in Hin. split_in.
        -- eapply fgt_fge_trans; [exact Hgt|]. apply fgt_fge. eauto.
        -- exact Hgt.
        -- eapply fgt_fge_trans; [exact Hgt|]. eauto.
      * exists pre, p, v, (post ++ [(q, Some w)]).
        split; [rewrite E, <- app_assoc; reflexivity|]. split; [reflexivity|].
        split; [exact Hpre|]. split_in; [eauto|].
        rewrite fge_negb_fgt, Hgt; auto using percentage_number.
    + right. exists pre, p, v, (post ++ [(q, None)]).
      split; [rewrite E, <- app_assoc; reflexivity|]. split; [reflexivity|].
      split; [exact Hpre|]. split_in. eauto.
Qed.

Lemma second_of_snoc (pv : PartyValues) (bp : option party)
  (item : party * option float) :
  second_of (pv ++ [item]) bp = second_step bp (second_of pv bp) item.
Proof. unfold second_of. now rewrite fold_left_app. Qed.

(** The second loop yields the greatest value among the other parties,
    and [-1.0] when there is none. *)
Lemma second_of_spec (pv : PartyValues) (bp : option party) :
  pvals pv ->
  ((forall k v, In (k, Some v) pv -> differs k bp = false) /\
   second_of pv bp = MINUS_ONE) \/
  (exists k w, In (k, Some w) pv /\ differs k bp = true /\
               second_of pv bp = w /\
               forall k' w', In (k', Some w') pv -> differs k' bp = true ->
                             fge w w' = true).
Proof.
  induction pv as [|[q o] pv IH] using rev_ind; intros Hp.
  - left. split; [intros k v []|reflexivity].
  - destruct (pvals_app _ _ Hp) as (Hp1 & Hp2).
    rewrite second_of_snoc. unfold second_step. cbn [fst snd].
    destruct o as [w|].
    + assert (Hw : percentage w) by (apply (Hp2 q); now left).
      destruct (differs q bp) eqn:Hq; cbn [andb];
        destruct (IH Hp1) as [(Hnone & ->)|(k & v & Hin & Hk & -> & Hmax)].
      * rewrite (fgt_MINUS_ONE w Hw). right. exists q, w.
        split; [in_snoc|]. split; [exact Hq|]. split; [reflexivity|].
        split_in.
        -- apply Hnone in H. congruence.
        -- apply fge_refl. now apply percentage_number.
      * assert (Hv : percentage v) by (apply (Hp1 k); auto).
        destruct (fgt w v) eqn:Hgt; right.
        -- exists q, w.
           split; [in_snoc|]. split; [exact Hq|]. split; [reflexivity|].
           split_in.
           ++ apply fgt_fge. eapply fgt_fge_trans; [exact Hgt|]. eauto.
           ++ apply fge_refl. now apply percentage_number.
        -- exists k, v.
           split; [in_snoc|]. split; [exact Hk|]. split; [reflexivity|].
           split_in; [eauto|].
           rewrite fge_negb_fgt, Hgt; auto using percentage_number.
      * left. split; [|reflexivity]. split_in; eauto.
      * right. exists k, v.
        split; [in_snoc|]. split; [exact Hk|]. split; [reflexivity|].
        split_in; [eauto|congruence].
    + destruct (IH Hp1) as [(Hnone & ->)|(k & v & Hin & Hk & -> & Hmax)].
      * left. split; [|reflexivity]. split_in. eauto.
      * right. exists k, v.
        split; [in_snoc|]. split; [exact Hk|]. split; [reflexivity|].
        split_in. eauto.
Qed.

(** ** What a kept row yields *)

Lemma make_poll_fields (url pollster0 : str) (data : Data) (pv : PartyValues) :
  let poll := make_poll url pollster0 data pv in
  pollster poll = pollster0 /\
  fieldwork_end poll = data_fieldwork_end data /\
  (forall q, party_value poll q = pv_get pv q) /\
  lead_party poll = option_map party_display (fst (best_of pv)) /\
  lead_pct poll =
    (let second_val := second_of pv (fst (best_of pv)) in
     if fge second_val ZERO
     then Some (round1 (fsub (snd (best_of pv)) second_val))
     else None).
Proof.
  unfold make_poll. destruct (best_of pv) as [bp bv]. cbn.
  repeat split. intros q. now destruct q.
Qed.

Lemma forallb_none (pv : PartyValues) :
  forallb (fun kv => negb (is_some (snd kv))) pv = false ->
  exists k v, In (k, Some v) pv.
Proof.
  induction pv as [|[k [v|]] pv IH]; simpl; [discriminate| |].
  - intros _. exists k, v. now left.
  - intros H. destruct (IH H) as (k' & v' & Hin). exists k', v'. now right.
Qed.

Lemma is_empty_false (s : str) : is_empty s = false -> s <> [].
Proof. destruct s; simpl; congruence. Qed.

Lemma process_row_inv (today_year : Z) (url : str) (cm : list (nat * field))
  (row : list str) (poll : PollResult) :
  process_row today_year url cm row = Ok (Some poll) ->
  exists data pv pollster0,
    poll = make_poll url pollster0 data pv /\
    pollster0 <> [] /\
    (exists k v, In (k, Some v) pv) /\
    row_inv (data, pv) /\
    map fst pv = column_order cm row /\
    (3 <= length (filter (fun c => negb (is_empty (strip c))) row))%nat.
Proof.
  unfold process_row.
  destruct (Nat.ltb_spec (length (filter (fun c => negb (is_empty (strip c))) row)) 3);
    [discriminate|].
  destruct (for_each cm (empty_data, []) (apply_column today_year row))
    as [[data pv]|] eqn:E; [|discriminate].
  cbn [bind].
  destruct (is_empty _) eqn:He; [discriminate|]. cbn [orb].
  destruct (forallb _ pv) eqn:Hf; [discriminate|].
  intros [= <-].
  destruct (columns_inv _ _ _ _ _ E row_inv_init) as (Hinv & K).
  eexists data, pv, _. split; [reflexivity|].
  split; [now apply is_empty_false|].
  split; [now apply forallb_none|]. split; auto.
Qed.

(** ** Sorting *)

Lemma date_leb_le (a b : date) : date_leb a b = true <-> date_le a b.
Proof.
  unfold date_leb, date_le.
  rewrite orb_true_iff, andb_true_iff, orb_true_iff, andb_true_iff.
  now rewrite !Z.ltb_lt, !Z.eqb_eq, Z.leb_le.
Qed.

Lemma date_leb_total (a b : date) : date_leb a b = false -> date_leb b a = true.
Proof.
  intros H. apply date_leb_le.
  assert (N : ~ date_le a b) by (rewrite <- date_leb_le; congruence).
  unfold date_le in *. lia.
Qed.

Lemma date_leb_trans (a b c : date) :
  date_leb a b = true -> date_leb b c = true -> date_leb a c = true.
Proof. rewrite !date_leb_le. unfold date_le. lia. Qed.

Lemma date_leb_antisym (a b : date) :
  date_leb a b = true -> date_leb b a = true -> a = b.
Proof.
  rewrite !date_leb_le. unfold date_le. destruct a, b; simpl. intros.
  f_equal; lia.
Qed.

Lemma insert_desc_perm (p : PollResult) (l : list PollResult) :
  Permutation (insert_desc p l) (p :: l).
Proof.
  induction l as [|q l IH]; simpl; auto.
  destruct (date_leb (sort_key q) (sort_key p)); auto.
  rewrite IH. apply perm_swap.
Qed.

Lemma sort_desc_perm (l : list PollResult) : Permutation (sort_desc l) l.
Proof.
  induction l as [|p l IH]; simpl; auto.
  rewrite insert_desc_perm. now constructor.
Qed.

Lemma insert_desc_sorted (p : PollResult) (l : list PollResult) :
  StronglySorted key_ge l -> StronglySorted key_ge (insert_desc p l).
Proof.
  induction 1 as [|q l Hl IH Hq]; simpl.
  - constructor; constructor.
  - destruct (date_leb (sort_key q) (sort_key p)) eqn:E.
    + constructor; [now constructor|]. constructor; auto.
      eapply Forall_impl; [|exact Hq]. intros r Hr. unfold key_ge in *.
      eapply date_leb_trans; eauto.
    + constructor; auto.
      apply (Permutation_Forall (Permutation_sym (insert_desc_perm p l))).
      constructor; auto. unfold key_ge. now apply date_leb_total.
Qed.

Lemma sort_desc_sorted (l : list PollResult) : StronglySorted key_ge (sort_desc l).
Proof.
  induction l as [|p l IH]; simpl; [constructor|].
  now apply insert_desc_sorted.
Qed.

(** ** From the rows to the returned list *)

Lemma process_rows_emitted (today_year : Z) (url : str)
  (cm : list (nat * field)) (rows : list (list str)) (polls : list PollResult) :
  process_rows today_year url cm rows = Ok polls ->
  forall poll, In poll polls ->
    exists row, In row rows /\ process_row today_year url cm row = Ok (Some poll).
Proof.
  revert polls; induction rows as [|row rows IH]; intros polls; cbn [process_rows].
  - intros [= <-] poll [].
  - destruct (process_row today_year url cm row) as [r|] eqn:E; [|discriminate].
    cbn [bind].
    destruct (process_rows today_year url cm rows) as [ps|]; [|discriminate].
    cbn [bind]. intros [= <-] poll Hin.
    assert (C : (r = Some poll) \/ In poll ps).
    { destruct r; [destruct Hin as [->|]|]; auto. }
    destruct C as [->|Hps].
    + exists row. split; [now left|assumption].
    + destruct (IH ps eq_refl poll Hps) as (row' & Hin' & H').
      exists row'. split; [now right|assumption].
Qed.

(** Every record that [scrape_polls] returns was built by the row
    mapper from a row of the grid, below the header row. *)
Lemma scrape_polls_emitted (today_year : Z) (url : str) (tables : list Table)
  (polls : list PollResult) :
  scrape_polls today_year url tables = Ok polls ->
  forall poll, In poll polls ->
    exists cm row, process_row today_year url cm row = Ok (Some poll).
Proof.
  unfold scrape_polls. destruct tables as [|t0 ts]; [now intros [= <-] ? []|].
  destruct (find is_main_table (t0 :: ts)) as [t|]; [|now intros [= <-] ? []].
  destruct (_expand_rowspans t) as [grid|]; [|discriminate]. cbn [bind].
  destruct (length grid <? 3)%nat; [now intros [= <-] ? []|].
  destruct (find_header 0 (firstn 4 grid)) as [[i cm]|]; [|now intros [= <-] ? []].
  destruct (process_rows today_year url cm (skipn (S i) grid)) as [ps|] eqn:E;
    [|discriminate].
  cbn [bind]. intros [= <-] poll Hin.
  apply (Permutation_in _ (sort_desc_perm ps)) in Hin.
  destruct (process_rows_emitted _ _ _ _ _ E poll Hin) as (row & _ & H).
  now exists cm, row.
Qed.

Lemma scrape_polls_sorted (today_year : Z) (url : str) (tables : list Table)
  (polls : list PollResult) :
  scrape_polls today_year url tables = Ok polls -> StronglySorted key_ge polls.
Proof.
  unfold scrape_polls. destruct tables as [|t0 ts]; [intros [= <-]; constructor|].
  destruct (find is_main_table (t0 :: ts)) as [t|]; [|intros [= <-]; constructor].
  destruct (_expand_rowspans t) as [grid|]; [|discriminate]. cbn [bind].
  destruct (length grid <? 3)%nat; [intros [= <-]; constructor|].
  destruct (find_header 0 (firstn 4 grid)) as [[i cm]|];
    [|intros [= <-]; constructor].
  destruct (process_rows today_year url cm (skipn (S i) grid)) as [ps|];
    [|discriminate].
  cbn [bind]. intros [= <-]. apply sort_desc_sorted.
Qed.

(** ** The percentage fields of a record *)





Lemma NoDup_app_disjoint {A} (l1 l2 : list A) (k : A) :
  NoDup (l1 ++ l2) -> In k l1 -> In k l2 -> False.
Proof.
  induction l1 as [|x l1 IH]; simpl; [easy|].
  intros Hnd [->|H1] H2; inversion Hnd as [|? ? Hx Hnd']; subst.
  - apply Hx. apply in_app_iff. now right.
  - now apply IH.
Qed.

Lemma in_keys_part {A B} (a b : list (A * B)) (q : A) (x : B) :
  NoDup (map fst (a ++ b)) -> In (q, x) (a ++ b) ->
  (In q (map fst a) -> In (q, x) a) /\ (In q (map fst b) -> In (q, x) b).
Proof.
  rewrite map_app. intros Hnd Hin. apply in_app_iff in Hin.
  split; intros Hq; destruct Hin as [Hin|Hin]; auto; exfalso;
    apply (NoDup_app_disjoint _ _ q Hnd); auto;
    change q with (fst (q, x)); now apply in_map.
Qed.

(** The leader, its value, and the runner-up's value, for the party
    values of a row that is kept. *)
Lemma lead_spec (pv : PartyValues) :
  NoDup (map fst pv) -> pvals pv -> (exists k v, In (k, Some v) pv) ->
  exists pre p v post,
    pv = pre ++ (p, Some v) :: post /\ best_of pv = (Some p, v) /\
    (forall k w, In (k, Some w) pre -> fgt v w = true) /\
    (forall k w, In (k, Some w) post -> fge v w = true) /\
    (forall k w, In (k, Some w) pv -> fge v w = true) /\
    (((forall k w, In (k, Some w) pv -> k = p) /\
      second_of pv (Some p) = MINUS_ONE) \/
     (exists k w, k <> p /\ In (k, Some w) pv /\ second_of pv (Some p) = w /\
                  forall k' w', In (k', Some w') pv -> k' <> p -> fge w w' = true)).
Proof.
  intros Hnd Hp (k0 & v0 & H0).
  destruct (best_of_spec pv Hp)
    as [(Hnone & _)|(pre & p & v & post & E & Hb & Hpre & Hpost)];
    [now apply Hnone in H0|].
  assert (Hv : percentage v).
  { apply (Hp p). rewrite E. apply in_app_iff. right. now left. }
  assert (Hall : forall k w, In (k, Some w) pv -> fge v w = true).
  { clear H0. intros k w Hin. rewrite E in Hin. split_in.
    - apply fgt_fge. eauto.
    - apply fge_refl. now apply percentage_number.
    - eauto. }
  exists pre, p, v, post. repeat (split; [assumption|]).
  assert (Hd : forall k, differs k (Some p) = true <-> k <> p).
  { intros k. simpl. rewrite negb_true_iff. split.
    - intros H ->. now rewrite party_eqb_refl in H.
    - intros H. destruct (party_eqb k p) eqn:Ek; auto.
      apply party_eqb_eq in Ek. contradiction. }
  destruct (second_of_spec pv (Some p) Hp)
    as [(Hnone & Hs)|(k & w & Hin & Hk & Hs & Hmax)].
  - left. split; auto. intros k w Hin. specialize (Hnone k w Hin).
    destruct (party_eqb k p) eqn:Ek; [now apply party_eqb_eq|].
    simpl in Hnone. rewrite Ek in Hnone. discriminate.
  - right. exists k, w. split; [now apply Hd|]. split; auto. split; auto.
    intros k' w' Hin' Hk'. apply (Hmax k' w' Hin'). now apply Hd.
Qed.

(* ================================================================== *)
(** * The claims *)

(** ** Invariants of the returned records *)

(** C2. Every record in the list returned by [scrape_polls] has a
    pollster that is not the empty string, and at least one of its seven
    party percentage fields has a value. *)
Theorem C2_pollster_and_party_value (today_year : Z) (url : str)
  (tables : list Table) (polls : list PollResult) :
  scrape_polls today_year url tables = Ok polls ->
  Forall (fun poll => pollster poll <> [] /\
                      exists p, party_value poll p <> None) polls.
Proof.
  intros H. apply Forall_forall. intros poll Hin.
  destruct (scrape_polls_emitted _ _ _ _ H poll Hin) as (cm & row & Hrow).
  destruct (process_row_inv _ _ _ _ _ Hrow)
    as (data & pv & name & -> & Hname & (k & v & Hkv) & (_ & Hnd & _) & _).
  destruct (make_poll_fields url name data pv) as (Hp & _ & Hf & _).
  split.
  - now rewrite Hp.
  - exists k. rewrite Hf, (pv_get_in pv k (Some v) Hnd Hkv). discriminate.
Qed.

Lemma C2_witness :
  scrape_polls 2026 WIKI_URL [sample_table] = Ok sample_polls /\
  length sample_polls = 3%nat /\
  Forall (fun poll => pollster poll <> [] /\
                      exists p, party_value poll p <> None) sample_polls.
Proof.
  split; [vm_compute; reflexivity|]. split; [vm_compute; reflexivity|].
  apply (C2_pollster_and_party_value 2026 WIKI_URL [sample_table]).
  vm_compute; reflexivity.
Defined.

(** What the row mapper guarantees of a record it keeps, in terms of the
    fields of the record. *)
Lemma emitted_record (today_year : Z) (url : str) (cm : list (nat * field))
  (row : list str) (poll : PollResult) :
  process_row today_year url cm row = Ok (Some poll) ->
  exists pv,
    NoDup (map fst pv) /\ pvals pv /\ (exists k v, In (k, Some v) pv) /\
    map fst pv = column_order cm row /\
    (forall q, party_value poll q = pv_get pv q) /\
    lead_party poll = option_map party_display (fst (best_of pv)) /\
    lead_pct poll =
      (if fge (second_of pv (fst (best_of pv))) ZERO
       then Some (round1 (fsub (snd (best_of pv))
                            (second_of pv (fst (best_of pv)))))
       else None) /\
    ge_min (fieldwork_end poll).
Proof.
  intros Hrow.
  destruct (process_row_inv _ _ _ _ _ Hrow)
    as (data & pv & name & -> & _ & Hex & (Hge & Hnd & Hp) & Hk & _).
  destruct (make_poll_fields url name data pv) as (_ & He & Hf & Hlp & Hpct).
  exists pv. repeat (split; [assumption|]). now rewrite He.
Qed.

Lemma StronglySorted_after {A} (R : A -> A -> Prop) (a b : list A) (p : A) :
  StronglySorted R (a ++ p :: b) -> Forall (R p) b.
Proof.
  induction a as [|x a IH]; simpl; intros H; inversion H; subst; auto.
Qed.

(** ** Ordering *)

(** C5. The list returned by [scrape_polls] is sorted by fieldwork end
    date, latest first, a missing end date counting as the earliest
    possible date ([sort_key]); so a record without end date is followed
    only by records without end date (or dated [date.min] itself). *)
Theorem C5_sorted_by_end_date_descending (today_year : Z) (url : str)
  (tables : list Table) (polls : list PollResult) :
  scrape_polls today_year url tables = Ok polls ->
  StronglySorted key_ge polls /\
  forall before p after,
    polls = before ++ p :: after -> fieldwork_end p = None ->
    Forall (fun q => fieldwork_end q = None \/ fieldwork_end q = Some date_min)
      after.
Proof.
  intros H. pose proof (scrape_polls_sorted _ _ _ _ H) as Hs. split; auto.
  intros before p after E Hp. subst polls.
  pose proof (StronglySorted_after _ _ _ _ Hs) as Ha.
  apply Forall_forall. intros q Hq.
  pose proof (proj1 (Forall_forall _ _) Ha q Hq) as Hge.
  unfold key_ge, sort_key in Hge. rewrite Hp in Hge.
  destruct (scrape_polls_emitted _ _ _ _ H q) as (cm & row & Hrow).
  { apply in_app_iff. right. now right. }
  destruct (emitted_record _ _ _ _ _ Hrow) as (pv & _ & _ & _ & _ & _ & _ & _ & Hmin).
  destruct (fieldwork_end q) as [d|]; [|now left].
  right. f_equal. now apply date_leb_antisym.
Qed.

Lemma C5_witness :
  scrape_polls 2026 WIKI_URL [sample_table] = Ok sample_polls /\
  map fieldwork_end sample_polls =
    [Some (Date 2026 2 4); Some (Date 2026 2 3); None] /\
  StronglySorted key_ge sample_polls.
Proof.
  split; [vm_compute; reflexivity|]. split; [vm_compute; reflexivity|].
  apply (C5_sorted_by_end_date_descending 2026 WIKI_URL [sample_table]).
  vm_compute; reflexivity.
Defined.

(** ** The leader and the lead *)

(** C10, as the code has it.  Every returned record has a leading
    party; its lead, when present, is not negative, except that it is
    NaN when the leading value and the runner-up's are both infinite
    (two numerals too large for a float). *)
Theorem C10_lead_party_present_lead_not_negative (today_year : Z) (url : str)
  (tables : list Table) (polls : list PollResult) :
  scrape_polls today_year url tables = Ok polls ->
  Forall (fun poll =>
            lead_party poll <> None /\
            forall x, lead_pct poll = Some x ->
              fge x ZERO = true \/
              (x = NaN /\
               exists p q, p <> q /\ party_value poll p = Some (Inf false) /\
                           party_value poll q = Some (Inf false))) polls.
Proof.
  intros H. apply Forall_forall. intros poll Hin.
  destruct (scrape_polls_emitted _ _ _ _ H poll Hin) as (cm & row & Hrow).
  destruct (emitted_record _ _ _ _ _ Hrow)
    as (pv & Hnd & Hp & Hex & _ & Hf & Hlp & Hpct & _).
  destruct (lead_spec pv Hnd Hp Hex)
    as (pre & p & v & post & E & Hb & _ & _ & Hall & Hsec).
  rewrite Hb in Hlp, Hpct. cbn [fst snd] in Hlp, Hpct.
  split; [rewrite Hlp; discriminate|].
  intros x Hx. rewrite Hpct in Hx.
  destruct Hsec as [(_ & Hs)|(k & w & Hk & Hin' & Hs & _)]; rewrite Hs in Hx.
  - rewrite fge_MINUS_ONE_ZERO in Hx. discriminate.
  - assert (Hv : percentage v).
    { apply (Hp p). rewrite E. apply in_app_iff. right. now left. }
    assert (Hw : percentage w) by (apply (Hp k); auto).
    rewrite (proj1 (fge_ZERO w) Hw) in Hx. injection Hx as <-.
    destruct (fsub_percentage v w Hv Hw (Hall k w Hin')) as [Hd|(En & -> & ->)].
    + left. apply fge_ZERO. now apply round1_percentage.
    + right. split; [reflexivity|]. exists p, k. split; [congruence|].
      rewrite !Hf. split.
      * apply pv_get_in; auto. rewrite E. apply in_app_iff. right. now left.
      * apply pv_get_in; auto.
Qed.

Lemma C10_witness :
  scrape_polls 2026 WIKI_URL [sample_table] = Ok sample_polls /\
  map lead_party sample_polls =
    [Some (py "Conservative"); Some (py "Labour"); Some (py "Conservative")] /\
  Forall (fun poll =>
            lead_party poll <> None /\
            forall x, lead_pct poll = Some x ->
              fge x ZERO = true \/
              (x = NaN /\
               exists p q, p <> q /\ party_value poll p = Some (Inf false) /\
                           party_value poll q = Some (Inf false))) sample_polls.
Proof.
  split; [vm_compute; reflexivity|]. split; [vm_compute; reflexivity|].
  apply (C10_lead_party_present_lead_not_negative 2026 WIKI_URL [sample_table]).
  vm_compute; reflexivity.
Defined.

(** C10, as stated, fails: two percentages of 401 digits are both
    infinite as floats, their difference is NaN, and NaN is not greater
    than or equal to zero. *)
Lemma C10_counterexample :
  exists first poll,
    scrape_polls 2026 WIKI_URL [huge_table] = Ok [first; poll] /\
    lab poll = Some (Inf false) /\ con poll = Some (Inf false) /\
    lead_pct poll = Some NaN /\ fge NaN ZERO = false.
Proof.
  eexists _, _. split; [vm_compute; reflexivity|]. now repeat split.
Qed.



(** C3, as the code has it.  The leader of a kept row is the first
    party, in the left-to-right order in which the party columns appear
    in the header row, whose value is the greatest: every party whose
    column comes earlier has a strictly smaller value. *)
Theorem C3_leader_is_first_in_column_order (today_year : Z) (url : str)
  (col_map : list (nat * field)) (row : list str) (poll : PollResult) :
  process_row today_year url col_map row = Ok (Some poll) ->
  exists earlier leader later best,
    column_order col_map row = earlier ++ leader :: later /\
    lead_party poll = Some (party_display leader) /\
    party_value poll leader = Some best /\
    (forall q w, In q earlier -> party_value poll q = Some w ->
                 fgt best w = true) /\
    (forall q w, In q later -> party_value poll q = Some w ->
                 fge best w = true).
Proof.
  intros Hrow.
  destruct (emitted_record _ _ _ _ _ Hrow)
    as (pv & Hnd & Hp & Hex & Hk & Hf & Hlp & _ & _).
  destruct (lead_spec pv Hnd Hp Hex)
    as (pre & p & v & post & E & Hb & Hpre & Hpost & _ & _).
  rewrite Hb in Hlp. cbn [fst] in Hlp.
  exists (map fst pre), p, (map fst post), v.
  split; [rewrite <- Hk, E, map_app; reflexivity|]. split; [assumption|].
  assert (Hpv : In (p, Some v) pv).
  { rewrite E. apply in_app_iff. right. now left. }
  split; [rewrite Hf; now apply pv_get_in|].
  split; intros q w Hq Hv; rewrite Hf in Hv; apply pv_get_some in Hv;
    rewrite E in Hnd, Hv.
  - apply (Hpre q). now apply (in_keys_part _ _ _ _ Hnd Hv).
  - apply (Hpost q).
    assert (Hq' : In q (map fst ((p, Some v) :: post))) by now right.
    destruct (proj2 (in_keys_part _ _ _ _ Hnd Hv) Hq') as [[= <- <-]|]; auto.
    exfalso. rewrite map_app in Hnd. apply NoDup_remove_2 in Hnd.
    apply Hnd. apply in_app_iff. now right.
Qed.

Lemma C3_witness :
  exists poll,
    process_row 2026 WIKI_URL sample_col_map sample_row = Ok (Some poll) /\
    column_order sample_col_map sample_row = [Lab; Con; Reform; Green] /\
    exists earlier leader later best,
      column_order sample_col_map sample_row = earlier ++ leader :: later /\
      lead_party poll = Some (party_display leader) /\
      party_value poll leader = Some best /\
      (forall q w, In q earlier -> party_value poll q = Some w ->
                   fgt best w = true) /\
      (forall q w, In q later -> party_value poll q = Some w ->
                   fge best w = true).
Proof.
  eexists. split; [vm_compute; reflexivity|]. split; [vm_compute; reflexivity|].
  apply (C3_leader_is_first_in_column_order 2026 WIKI_URL sample_col_map sample_row).
  vm_compute; reflexivity.
Defined.

(** C3, as stated, fails: with the Labour column to the left of the
    Conservative column and both parties on 30, the leader is Labour,
    which comes second in the canonical order. *)
Lemma C3_counterexample :
  exists poll,
    process_row 2026 WIKI_URL sample_col_map sample_row = Ok (Some poll) /\
    map (fun p => option_map view (party_value poll p)) all_parties =
      [Some (VFin 30 1); Some (VFin 30 1); None;
       Some (VFin 5432467050515661 (2 ^ 48));    (* 19.3 *)
       Some (VFin 7937594343240499 (2 ^ 49));    (* 14.1 *)
       None; None] /\
    lead_party poll = Some (py "Labour").
Proof.
  eexists. split; [vm_compute; reflexivity|]. split.
  - vm_compute. reflexivity.
  - reflexivity.
Qed.

(** ** Exceptions *)




(** ** The grid builder *)




(** ** Locating the table and its header row *)

Lemma in_set_add (p q : party) (s : list party) :
  In p (set_add q s) <-> In p s \/ p = q.
Proof.
  unfold set_add. destruct (existsb (party_eqb q) s) eqn:E.
  - apply existsb_party in E. split; [auto|]. now intros [H| ->].
  - rewrite in_app_iff. simpl. intuition congruence.
Qed.

Lemma is_header_party_iff (p : party) :
  is_header_party (F_party p) = true <-> In p HEADER_PARTIES.
Proof. destruct p; simpl; intuition discriminate. Qed.

Lemma maps_to_iff (cm : list (nat * field)) (p : party) :
  maps_to cm p = true <-> exists i, In (i, F_party p) cm.
Proof.
  unfold maps_to. rewrite existsb_exists. split.
  - intros ([i f] & Hin & H). simpl in H. destruct f; try discriminate.
    apply party_eqb_eq in H. subst. now exists i.
  - intros (i & Hin). exists (i, F_party p). split; auto. simpl.
    apply party_eqb_refl.
Qed.

Lemma party_cols_spec (cm : list (nat * field)) :
  NoDup (party_cols cm) /\
  forall p, In p (party_cols cm) <-> In p HEADER_PARTIES /\ maps_to cm p = true.
Proof.
  unfold party_cols.
  assert (G : forall acc, NoDup acc ->
     NoDup (fold_left (fun s item =>
                         if is_header_party (snd item)
                         then match field_party (snd item) with
                              | Some p => set_add p s
                              | None => s
                              end
                         else s) cm acc) /\
     forall p, In p (fold_left (fun s item =>
                         if is_header_party (snd item)
                         then match field_party (snd item) with
                              | Some p => set_add p s
                              | None => s
                              end
                         else s) cm acc) <->
               In p acc \/ (In p HEADER_PARTIES /\ exists i, In (i, F_party p) cm)).
  { induction cm as [|[i f] cm IH]; intros acc Hacc; cbn [fold_left snd].
    - split; auto. intros p. split; auto. intros [H|(_ & ? & [])]; auto.
    - destruct (is_header_party f) eqn:Hf.
      + destruct f as [q| | | | | |]; try discriminate. cbn [field_party].
        destruct (IH (set_add q acc) (set_add_NoDup q acc Hacc)) as (H1 & H2).
        split; auto. intros p. rewrite H2, in_set_add. split.
        * intros [[H| ->]|(Hh & j & Hj)]; auto.
          -- right. split; [now apply is_header_party_iff|].
             exists i. now left.
          -- right. split; auto. exists j. now right.
        * intros [H|(Hh & j & [[= <- <-]|Hj])]; auto.
          right. split; auto. now exists j.
      + destruct (IH acc Hacc) as (H1 & H2). split; auto.
        intros p. rewrite H2. split.
        * intros [H|(Hh & j & Hj)]; auto. right. split; auto.
          exists j. now right.
        * intros [H|(Hh & j & [E|Hj])]; auto.
          -- injection E as _ ->. apply is_header_party_iff in Hh. congruence.
          -- right. split; auto. now exists j. }
  destruct (G [] (NoDup_nil _)) as (H1 & H2). split; auto.
  intros p. rewrite H2, maps_to_iff. simpl In at 1. tauto.
Qed.

(** The size of the set the header scan builds is the number of
    distinct header parties among the columns. *)
Lemma party_cols_length (row : list str) :
  length (party_cols (_identify_columns row)) = distinct_header_parties row.
Proof.
  unfold distinct_header_parties.
  destruct (party_cols_spec (_identify_columns row)) as (Hnd & Hin).
  apply Permutation_length. apply NoDup_Permutation; auto.
  - apply NoDup_filter. unfold HEADER_PARTIES.
    repeat (constructor; [simpl; intuition discriminate|]). constructor.
  - intros p. rewrite Hin, filter_In. tauto.
Qed.

Lemma find_header_none (i : nat) (rows : list (list str)) :
  (forall row, In row rows -> (distinct_header_parties row < 3)%nat) ->
  find_header i rows = None.
Proof.
  revert i; induction rows as [|row rows IH]; intros i H; cbn [find_header].
  - reflexivity.
  - rewrite party_cols_length.
    destruct (Nat.leb_spec 3 (distinct_header_parties row)).
    + specialize (H row (or_introl eq_refl)). lia.
    + apply IH. intros r Hr. apply H. now right.
Qed.

Lemma find_header_first (i k : nat) (rows : list (list str)) (row : list str) :
  nth_error rows k = Some row ->
  (3 <= distinct_header_parties row)%nat ->
  (forall j row', (j < k)%nat -> nth_error rows j = Some row' ->
                  (distinct_header_parties row' < 3)%nat) ->
  find_header i rows = Some ((i + k)%nat, _identify_columns row).
Proof.
  revert i rows; induction k as [|k IH]; intros i rows Hk Hq Hbefore;
    destruct rows as [|r rows]; try discriminate; cbn [find_header];
    rewrite party_cols_length.
  - injection Hk as ->.
    destruct (Nat.leb_spec 3 (distinct_header_parties row)); [|lia].
    now rewrite Nat.add_0_r.
  - pose proof (Hbefore 0%nat r ltac:(lia) eq_refl).
    destruct (Nat.leb_spec 3 (distinct_header_parties r)); [lia|].
    rewrite (IH (S i) rows Hk Hq).
    + do 2 f_equal. lia.
    + intros j row' Hj Hrow'. apply (Hbefore (S j)); [lia|exact Hrow'].
Qed.

Lemma nth_error_firstn_lt {A} (n k : nat) (l : list A) :
  (k < n)%nat -> nth_error (firstn n l) k = nth_error l k.
Proof.
  revert k l; induction n as [|n IH]; intros k l Hk; [lia|].
  destruct l as [|x l]; [now destruct k|]. destruct k as [|k]; simpl; auto.
  apply IH. lia.
Qed.

Lemma in_firstn_nth {A} (n : nat) (l : list A) (x : A) :
  In x (firstn n l) -> exists k, (k < n)%nat /\ nth_error l k = Some x.
Proof.
  revert l; induction n as [|n IH]; intros l; [now simpl|].
  destruct l as [|y l]; simpl; [easy|]. intros [->|H].
  - exists 0%nat. split; [lia|reflexivity].
  - destruct (IH l H) as (k & Hk & E). exists (S k). split; [lia|exact E].
Qed.

Lemma is_main_table_false (t : Table) :
  is_main_table t = false <->
  exists name, In name REQUIRED_NAMES /\
               is_substr name (lower (table_text t)) = false.
Proof.
  unfold is_main_table. split.
  - intros H. destruct (forallb _ REQUIRED_NAMES) eqn:E; [discriminate|].
    clear H. induction REQUIRED_NAMES as [|n l IH]; simpl in E; [discriminate|].
    apply andb_false_iff in E. destruct E as [E|E].
    + exists n. split; [now left|assumption].
    + destruct (IH E) as (m & Hm & Em). exists m. split; [now right|assumption].
  - intros (name & Hin & E). apply not_true_iff_false. intros H.
    rewrite forallb_forall in H. specialize (H name Hin). congruence.
Qed.

(** C8. [scrape_polls] returns the empty list when no table has all of
    [con], [lab], [reform], [green] in its lower-cased text, when the
    grid of the located table has fewer than three rows, and when none
    of the rows 0 to min(3, row_count - 1) names three distinct header
    parties; otherwise the header row is the first such row in that
    scan, and the rows below it are the data rows. *)
Theorem C8_empty_results_and_header_row (today_year : Z) (url : str)
  (tables : list Table) :
  ((forall t, In t tables ->
      exists name, In name REQUIRED_NAMES /\
                   is_substr name (lower (table_text t)) = false) ->
   scrape_polls today_year url tables = Ok []) /\
  (forall t grid,
      find is_main_table tables = Some t -> _expand_rowspans t = Ok grid ->
      ((length grid < 3)%nat -> scrape_polls today_year url tables = Ok []) /\
      ((forall i row, (i < 4)%nat -> nth_error grid i = Some row ->
                      (distinct_header_parties row < 3)%nat) ->
       scrape_polls today_year url tables = Ok []) /\
      (forall i row,
          (3 <= length grid)%nat -> (i < 4)%nat -> nth_error grid i = Some row ->
          (3 <= distinct_header_parties row)%nat ->
          (forall j row', (j < i)%nat -> nth_error grid j = Some row' ->
                          (distinct_header_parties row' < 3)%nat) ->
          find_header 0 (firstn 4 grid) = Some (i, _identify_columns row) /\
          scrape_polls today_year url tables =
          (polls <- process_rows today_year url (_identify_columns row)
                      (skipn (S i) grid) ;;
           Ok (sort_desc polls)))).
Proof.
  split.
  - intros H. unfold scrape_polls. destruct tables as [|t0 ts]; [reflexivity|].
    destruct (find is_main_table (t0 :: ts)) as [t|] eqn:E; [|reflexivity].
    apply find_some in E. destruct E as (Hin & Hmain).
    apply H, is_main_table_false in Hin. congruence.
  - intros t grid Hfind Hgrid.
    assert (Hs : scrape_polls today_year url tables =
                 if (length grid <? 3)%nat then Ok []
                 else match find_header 0 (firstn 4 grid) with
                      | None => Ok []
                      | Some (header_row_idx, col_map) =>
                          polls <- process_rows today_year url col_map
                                     (skipn (S header_row_idx) grid) ;;
                          Ok (sort_desc polls)
                      end).
    { unfold scrape_polls. destruct tables as [|t0 ts]; [discriminate|].
      now rewrite Hfind, Hgrid. }
    rewrite Hs. split; [|split].
    + intros Hlen. now destruct (Nat.ltb_spec (length grid) 3); [|lia].
    + intros Hnone. destruct (length grid <? 3)%nat; [reflexivity|].
      rewrite find_header_none; [reflexivity|].
      intros row Hin. destruct (in_firstn_nth _ _ _ Hin) as (k & Hk & E).
      now apply (Hnone k).
    + intros i row Hlen Hi Hrow Hq Hbefore.
      assert (Hh : find_header 0 (firstn 4 grid) = Some (i, _identify_columns row)).
      { apply (find_header_first 0 i); auto.
        - now rewrite nth_error_firstn_lt.
        - intros j row' Hj Hrow'. apply (Hbefore j); auto.
          rewrite nth_error_firstn_lt in Hrow'; [assumption|lia]. }
      split; [exact Hh|]. rewrite Hh.
      now destruct (Nat.ltb_spec (length grid) 3); [lia|].
Qed.

Lemma C8_witness :
  find is_main_table [sample_table] = Some sample_table /\
  _expand_rowspans sample_table = Ok sample_grid /\
  nth_error sample_grid 0 = Some (map cell_text sample_header) /\
  find_header 0 (firstn 4 sample_grid) = Some (0%nat, sample_col_map).
Proof.
  assert (Hf : find is_main_table [sample_table] = Some sample_table)
    by (vm_compute; reflexivity).
  assert (Hg : _expand_rowspans sample_table = Ok sample_grid)
    by (vm_compute; reflexivity).
  assert (Hr : nth_error sample_grid 0 = Some (map cell_text sample_header))
    by (vm_compute; reflexivity).
  repeat (split; [assumption|]).
  destruct (proj2 (C8_empty_results_and_header_row 2026 WIKI_URL [sample_table])
              sample_table sample_grid Hf Hg) as (_ & _ & H).
  refine (proj1 (H 0%nat (map cell_text sample_header) _ _ Hr _ _)).
  - vm_compute. lia.
  - lia.
  - vm_compute. lia.
  - intros j row' Hj. lia.
Defined.

(** ** The percentage parser *)



Lemma match_seq_cons (a : atom) (re : list atom) (s : str) :
  match_seq (a :: re) s =
  try_lengths (lo a) s (match_seq re) (run (cls a) (hi a) s).
Proof. reflexivity. Qed.









Lemma lstrip_all_space (ws : str) : all_space ws -> lstrip ws = [].
Proof. induction 1 as [|c ws Hc _ IH]; simpl; auto. now rewrite Hc. Qed.

Lemma lstrip_app_space (ws s : str) : all_space ws -> lstrip (ws ++ s) = lstrip s.
Proof. induction 1 as [|c ws Hc _ IH]; simpl; auto. now rewrite Hc. Qed.

Lemma lstrip_app (t u : str) :
  lstrip (t ++ u) = match lstrip t with
                    | [] => lstrip u
                    | _ => lstrip t ++ u
                    end.
Proof.
  induction t as [|c t IH]; simpl; [reflexivity|].
  destruct (isspace c); [exact IH|reflexivity].
Qed.

Lemma rstrip_app_space (s ws : str) : all_space ws -> rstrip (s ++ ws) = rstrip s.
Proof.
  intros H. unfold rstrip. rewrite rev_app_distr, lstrip_app_space; auto.
  apply Forall_forall. intros c Hc. apply in_rev in Hc.
  now apply (proj1 (Forall_forall _ _) H).
Qed.

Lemma strip_surrounding (ws1 ws2 text : str) :
  all_space ws1 -> all_space ws2 -> strip (ws1 ++ text ++ ws2) = strip text.
Proof.
  intros H1 H2. unfold strip. rewrite lstrip_app_space by assumption.
  rewrite lstrip_app. destruct (lstrip text) as [|c t] eqn:E.
  - now rewrite lstrip_all_space.
  - now rewrite rstrip_app_space.
Qed.







(** ** The date-range parser *)

Lemma run_digits_bounded (ds : str) (b : nat) :
  all_digits ds -> (length ds <= b)%nat ->
  run isdigit (Some b) ds = length ds.
Proof.
  intros H. revert b. induction H as [|c ds Hc _ IH]; intros b Hb; simpl.
  - reflexivity.
  - rewrite Hc. destruct b as [|b]; simpl in Hb; [lia|].
    rewrite IH; [reflexivity|lia].
Qed.

(** On a bare day number the one-group day pattern matches all of it. *)
Lemma search_day_bare (ds : str) :
  all_digits ds -> (1 <= length ds <= 2)%nat -> search RE_DAY ds = Some [ds].
Proof.
  intros Hd Hl.
  assert (E : match_seq RE_DAY ds = Some [ds]).
  { unfold RE_DAY. rewrite match_seq_cons. cbn [digits cls lo hi].
    rewrite run_digits_bounded by (auto; lia). rewrite try_lengths_unfold.
    rewrite firstn_all, skipn_all. cbn [match_seq option_map].
    destruct (Nat.leb_spec 1 (length ds)); [reflexivity|lia]. }
  destruct ds; cbn [search]; now rewrite E.
Qed.

(** A text of digits has no day followed by a month. *)
Lemma search_day_month_digits (ds : str) :
  all_digits ds -> search RE_DAY_MONTH ds = None.
Proof.
  intros Hd. destruct (search RE_DAY_MONTH ds) as [ps|] eqn:E; [|reflexivity].
  exfalso. destruct (search_sound _ _ _ E) as (HF & pre & rest & Es).
  unfold RE_DAY_MONTH in HF.
  inversion HF as [|? g1 ? ps1 _ HF1 E1 E2].
  inversion HF1 as [|? sp ? ps2 (Hsp & Lsp & _) HF2 E3 E4].
  subst ps ps1.
  destruct sp as [|c sp]; [simpl in Lsp; lia|].
  inversion Hsp as [|? ? Hc _ E5]. simpl in Hc.
  assert (Hin : In c ds).
  { rewrite Es. apply in_app_iff. right. apply in_app_iff. left.
    simpl. apply in_app_iff. right. now left. }
  pose proof (proj1 (Forall_forall _ _) Hd c Hin) as Hdig.
  apply isdigit_nospace in Hdig. congruence.
Qed.

Lemma _parse_date_text_digits (today_year : Z) (ds : str) (year : option Z) :
  all_digits ds -> _parse_date_text today_year ds year = Ok None.
Proof.
  intros Hd. unfold _parse_date_text.
  rewrite (strip_nospace _ (digits_nospace _ Hd)).
  destruct (is_empty ds); [reflexivity|].
  assert (Hy : returns (match year with
                        | Some y => if y =? 0 then find_year today_year ds else Ok y
                        | None => find_year today_year ds
                        end)).
  { destruct year as [y|]; [destruct (y =? 0)|];
      try apply find_year_returns; now eexists. }
  destruct Hy as (y & ->). cbn [bind].
  now rewrite search_day_month_digits.
Qed.

(** C6. The date-range parser splits the stripped text once, at its
    first dash-like separator.  With two parts, the end date is the
    second part parsed with the shared year and the start date is the
    first part parsed with the same year; a first part that is a bare
    day number has no date of its own, and the start date is then made
    of that day, the month of the end date and the shared year (missing
    if there is no such date).  Without separator the whole text is
    parsed once and the date is both start and end.  The listed inputs
    give the listed dates. *)
Theorem C6_date_range_parser (today_year : Z) :
  (forall text, strip text = [] ->
      _parse_fieldwork_dates today_year text = Ok (None, None)) /\
  (forall text, exists y, find_year today_year (strip text) = Ok y) /\
  (forall text y,
      strip text <> [] -> find_year today_year (strip text) = Ok y ->
      Forall (fun c => is_range_sep c = false) (strip text) ->
      _parse_fieldwork_dates today_year text =
      (d <- _parse_date_text today_year (strip text) (Some y) ;; Ok (d, d))) /\
  (forall text y first sep second start0 end_date,
      strip text = first ++ sep :: second ->
      Forall (fun c => is_range_sep c = false) first ->
      is_range_sep sep = true ->
      find_year today_year (strip text) = Ok y ->
      _parse_date_text today_year (strip second) (Some y) = Ok end_date ->
      _parse_date_text today_year (strip first) (Some y) = Ok start0 ->
      exists start,
        _parse_fieldwork_dates today_year text = Ok (start, end_date) /\
        (forall d, start0 = Some d -> start = Some d) /\
        (end_date = None -> start = start0) /\
        (forall e, end_date = Some e -> all_digits (strip first) ->
                   (1 <= length (strip first) <= 2)%nat ->
                   start0 = None /\
                   start = match make_date y (month e)
                                   (digits_val (strip first)) with
                           | Ok d => Some d
                           | Raise _ => None
                           end)) /\
  _parse_fieldwork_dates today_year (py "1-3 Feb 2026") =
    Ok (Some (Date 2026 2 1), Some (Date 2026 2 3)) /\
  _parse_fieldwork_dates today_year (py "28 Jan " ++ EN_DASH :: py " 1 Feb 2026") =
    Ok (Some (Date 2026 1 28), Some (Date 2026 2 1)) /\
  _parse_fieldwork_dates today_year (py "4 Feb 2026") =
    Ok (Some (Date 2026 2 4), Some (Date 2026 2 4)) /\
  _parse_fieldwork_dates today_year (py "") = Ok (None, None).
Proof.
  split.
  { intros text E. unfold _parse_fieldwork_dates. now rewrite E. }
  split.
  { intros text. apply find_year_returns. }
  split.
  { intros text y Hne Hy Hsep. unfold _parse_fieldwork_dates.
    destruct (strip text) as [|c t] eqn:E; [contradiction|].
    cbn [is_empty]. rewrite Hy. cbn [bind].
    now rewrite (split_once_none _ _ Hsep). }
  split.
  { intros text y first sep second start0 end_date E Hfirst Hsep Hy He Hs.
    unfold _parse_fieldwork_dates. rewrite E in *.
    assert (Hne : is_empty (first ++ sep :: second) = false)
      by (destruct first; reflexivity).
    rewrite Hne, Hy. cbn [bind].
    rewrite (split_once_first _ _ _ _ Hfirst Hsep), He. cbn [bind].
    rewrite Hs. cbn [bind].
    destruct start0 as [d0|].
    - exists (Some d0). split; [reflexivity|]. split; [now intros d [= <-]|].
      split; [reflexivity|].
      intros e _ Hd _. rewrite (_parse_date_text_digits _ _ _ Hd) in Hs.
      discriminate.
    - destruct end_date as [e|].
      + destruct (search RE_DAY (strip first)) as [ps|] eqn:Eday.
        * destruct (search_sound _ _ _ Eday) as (HF & _).
          inversion HF as [|? p ? ? Hp HF1]; subst. inversion HF1; subst.
          cbn [concat]. rewrite app_nil_r.
          destruct (day_piece _ Hp) as (Hint & _). rewrite Hint. cbn [bind].
          exists (match make_date y (month e) (digits_val p) with
                  | Ok d => Some d
                  | Raise _ => None
                  end).
          split.
          -- unfold make_date.
             destruct ((1 <=? y) && (y <=? 9999) && (1 <=? month e)
                       && (month e <=? 12) && (1 <=? digits_val p)
                       && (digits_val p <=? days_in_month y (month e)));
               reflexivity.
          -- split; [discriminate|]. split; [discriminate|].
             intros e' [= <-] Hd Hl. split; [reflexivity|].
             rewrite (search_day_bare _ Hd Hl) in Eday.
             now injection Eday as <-.
        * exists None. split; [reflexivity|]. split; [discriminate|].
          split; [discriminate|].
          intros e' _ Hd Hl. rewrite (search_day_bare _ Hd Hl) in Eday.
          discriminate.
      + exists None. split; [reflexivity|]. split; [discriminate|].
        split; [reflexivity|]. discriminate. }
  repeat split; vm_compute; reflexivity.
Qed.

Lemma C6_witness :
  strip (py "1-3 Feb 2026") = py "1" ++ HYPHEN :: py "3 Feb 2026" /\
  exists start,
    _parse_fieldwork_dates 2025 (py "1-3 Feb 2026")
    = Ok (start, Some (Date 2026 2 3)) /\
    start = match make_date 2026 2 (digits_val (py "1")) with
            | Ok d => Some d
            | Raise _ => None
            end.
Proof.
  split; [reflexivity|].
  destruct (proj1 (proj2 (proj2 (proj2 (C6_date_range_parser 2025))))
              (py "1-3 Feb 2026") 2026 (py "1") HYPHEN (py "3 Feb 2026")
              None (Some (Date 2026 2 3)))
    as (start & E & _ & _ & H).
  - reflexivity.
  - repeat constructor.
  - reflexivity.
  - vm_compute. reflexivity.
  - vm_compute. reflexivity.
  - vm_compute. reflexivity.
  - exists start. split; [exact E|].
    refine (proj2 (H (Date 2026 2 3) eq_refl _ _)).
    + repeat constructor.
    + simpl. lia.
Defined.

(* ================================================================== *)
(** * Further properties of the parsers *)

(** ** The sample-size parser *)













(** ** The date parsers *)

Lemma make_date_valid (y m d : Z) (x : date) :
  make_date y m d = Ok x -> x = Date y m d /\ valid_date x.
Proof.
  unfold valid_date, make_date.
  destruct ((1 <=? y) && (y <=? 9999) && (1 <=? m) && (m <=? 12)
            && (1 <=? d) && (d <=? days_in_month y m)) eqn:E; [|discriminate].
  intros [= <-]. cbn [year month day]. now rewrite E.
Qed.

Lemma except_make_date_some (y m d : Z) (dflt : option date) (x : date) :
  except_ValueError (v <- make_date y m d ;; Ok (Some v)) (Ok dflt) = Ok (Some x) ->
  dflt = Some x \/ (x = Date y m d /\ valid_date x).
Proof.
  destruct (make_date y m d) as [v|[|]] eqn:E; cbn [bind except_ValueError].
  - intros [= <-]. right. now apply make_date_valid.
  - intros [= ->]. now left.
  - discriminate.
Qed.

(** The year a date is built with, given the year argument. *)
Lemma _parse_date_text_some (today_year : Z) (text : str) (yr : option Z)
  (d : date) :
  _parse_date_text today_year text yr = Ok (Some d) ->
  valid_date d /\ (forall y, yr = Some y -> y <> 0 -> year d = y).
Proof.
  unfold _parse_date_text.
  destruct (is_empty (strip text)); [discriminate|].
  destruct (match yr with
            | Some y => if y =? 0 then find_year today_year (strip text) else Ok y
            | None => find_year today_year (strip text)
            end) as [yy|e] eqn:Ey; cbn [bind]; [|discriminate].
  destruct (search RE_DAY_MONTH (strip text)) as [ps|]; [|discriminate].
  destruct ps as [|g1 [|g [|g2 [|? ?]]]]; try discriminate.
  destruct (py_int g1) as [dd|e]; cbn [bind]; [|discriminate].
  destruct (dict_get months (lower g2)) as [m|]; [|discriminate].
  destruct (negb (m =? 0) && (1 <=? dd) && (dd <=? 31)); [|discriminate].
  intros H. apply except_make_date_some in H.
  destruct H as [H|[-> Hv]]; [discriminate|]. split; [exact Hv|].
  intros y -> Hy. cbn [year]. destruct (Z.eqb_spec y 0); [contradiction|].
  now injection Ey as ->.
Qed.












Lemma one_char (c : char) (p : str) :
  Forall (fun x => is_char c x = true) p -> (1 <= length p)%nat ->
  (length p <= 1)%nat -> p = [c].
Proof.
  intros H L U. destruct p as [|x [|? ?]]; simpl in *; try lia.
  inversion H as [|? ? Hx _]; subst. unfold is_char in Hx.
  apply Z.eqb_eq in Hx. now subst.
Qed.

(** The year of a text is this year or a year of this century. *)
Lemma find_year_range (today_year : Z) (text : str) (y : Z) :
  find_year today_year text = Ok y -> y = today_year \/ 2000 <= y <= 2099.
Proof.
  unfold find_year. destruct (search RE_YEAR text) as [ps|] eqn:Hs.
  - destruct (search_sound _ _ _ Hs) as (HF & _). unfold RE_YEAR in HF.
    inversion HF as [|? p1 ? ? (H1 & L1 & U1) HF1]; subst.
    inversion HF1 as [|? p2 ? ? (H2 & L2 & U2) HF2]; subst.
    inversion HF2 as [|? p3 ? ? (H3 & L3 & U3) HF3]; subst.
    inversion HF3; subst. cbn [cls lo hi digits] in *.
    rewrite (one_char _ _ H1 L1 U1), (one_char _ _ H2 L2 U2).
    destruct p3 as [|a [|b [|? ?]]]; simpl in L3, U3; try lia.
    inversion H3 as [|? ? Ha H3']; subst. inversion H3' as [|? ? Hb _]; subst.
    cbn [concat app]. rewrite py_int_digits.
    + intros [= <-]. right. unfold digits_val, digit_val. cbn [fold_left].
      unfold isdigit in Ha, Hb. lia.
    + repeat constructor; assumption.
    + discriminate.
    + unfold INT_MAX_STR_DIGITS. simpl. lia.
  - intros [= <-]. now left.
Qed.

(** Both dates of a range are dates of the calendar in the year of the
    text. *)
Lemma fieldwork_dates_year (today_year : Z) (text : str) :
  today_year <> 0 ->
  exists s e y,
    _parse_fieldwork_dates today_year text = Ok (s, e) /\
    find_year today_year (strip text) = Ok y /\
    forall d, s = Some d \/ e = Some d -> valid_date d /\ year d = y.
Proof.
  intros Ht.
  destruct (_parse_fieldwork_dates_returns today_year text) as ([s e] & E).
  destruct (find_year_returns today_year (strip text)) as (y & Ey).
  exists s, e, y. split; [exact E|]. split; [exact Ey|].
  assert (Hy : y <> 0) by (destruct (find_year_range _ _ _ Ey); lia).
  assert (P : forall t d, _parse_date_text today_year t (Some y) = Ok (Some d) ->
                          valid_date d /\ year d = y).
  { intros t d H. destruct (_parse_date_text_some _ _ _ _ H) as (Hv & Hyr).
    split; [exact Hv|]. now apply Hyr. }
  unfold _parse_fieldwork_dates in E. rewrite Ey in E.
  destruct (is_empty (strip text)).
  { injection E as <- <-. intros d [H|H]; discriminate. }
  cbn [bind] in E.
  destruct (split_once is_range_sep (strip text)) as [[p0 p1]|].
  - destruct (_parse_date_text today_year (strip p1) (Some y)) as [ed|] eqn:Ee;
      cbn [bind] in E; [|discriminate].
    destruct (_parse_date_text today_year (strip p0) (Some y)) as [bd|] eqn:Eb;
      cbn [bind] in E; [|discriminate].
    assert (He : forall d, ed = Some d -> valid_date d /\ year d = y)
      by (intros d ->; exact (P _ _ Ee)).
    destruct bd as [b|].
    + injection E as <- <-. intros d [ [= <-] | H]; [exact (P _ _ Eb)|now apply He].
    + destruct ed as [e0|].
      * destruct (search RE_DAY (strip p0)) as [ps|].
        -- destruct (py_int (concat ps)) as [n|[|]];
             cbn [bind except_ValueError] in E; try discriminate.
           ++ destruct (make_date y (month e0) n) as [x|[|]] eqn:Ex;
                cbn [bind except_ValueError] in E; try discriminate.
              ** injection E as <- <-.
                 destruct (make_date_valid _ _ _ _ Ex) as (-> & Hv).
                 intros d [ [= <-] | H]; [now split|now apply He].
              ** injection E as <- <-. intros d [H|H]; [discriminate|now apply He].
           ++ injection E as <- <-. intros d [H|H]; [discriminate|now apply He].
        -- injection E as <- <-. intros d [H|H]; [discriminate|now apply He].
      * injection E as <- <-. intros d [H|H]; discriminate.
  - destruct (_parse_date_text today_year (strip text) (Some y)) as [dd|] eqn:Ed;
      cbn [bind] in E; [|discriminate].
    injection E as <- <-. intros d [-> | ->]; exact (P _ _ Ed).
Qed.

(** X5. The date-range parser never raises.  Both dates it returns are
    dates of the calendar, and both lie in the year of the text: its
    first token [20dd], or the current year when it has none. *)
Theorem fieldwork_dates_share_year (today_year : Z) (text : str) :
  today_year <> 0 ->
  exists s e y,
    _parse_fieldwork_dates today_year text = Ok (s, e) /\
    find_year today_year (strip text) = Ok y /\
    (forall d, s = Some d \/ e = Some d -> valid_date d /\ year d = y) /\
    (forall a b, s = Some a -> e = Some b -> year a = year b).
Proof.
  intros Ht.
  destruct (fieldwork_dates_year today_year text Ht) as (s & e & y & E & Ey & H).
  exists s, e, y. split; [exact E|]. split; [exact Ey|]. split; [exact H|].
  intros a b Ha Hb.
  destruct (H a (or_introl Ha)) as (_ & ->).
  destruct (H b (or_intror Hb)) as (_ & ->). reflexivity.
Qed.

Lemma fieldwork_dates_share_year_witness :
  exists s e y,
    _parse_fieldwork_dates 2026 (py "30 Dec 2025 - 2 Jan") = Ok (s, e) /\
    find_year 2026 (strip (py "30 Dec 2025 - 2 Jan")) = Ok y /\
    (forall d, s = Some d \/ e = Some d -> valid_date d /\ year d = y) /\
    (forall a b, s = Some a -> e = Some b -> year a = year b).
Proof.
  apply (fieldwork_dates_share_year 2026 (py "30 Dec 2025 - 2 Jan")). lia.
Defined.

(** ** The column identifier *)

Lemma identify_from_spec (hs : list str) (k i : nat) (f : field) :
  In (i, f) (identify_from k hs) <->
  (k <= i)%nat /\ exists h, nth_error hs (i - k) = Some h /\ classify_header h = Some f.
Proof.
  revert k. induction hs as [|h hs IH]; intros k; cbn [identify_from].
  - split; [intros []|]. intros (_ & h & H & _). now destruct (i - k)%nat.
  - assert (Step : In (i, f) (identify_from (S k) hs) <->
                   (k < i)%nat /\ exists h', nth_error hs (i - S k) = Some h' /\
                                             classify_header h' = Some f).
    { rewrite IH. reflexivity. }
    assert (Here : (k < i)%nat -> nth_error (h :: hs) (i - k) = nth_error hs (i - S k)).
    { intros Hk. replace (i - k)%nat with (S (i - S k)) by lia. reflexivity. }
    destruct (classify_header h) as [f0|] eqn:Eh; cbn [In]; rewrite Step.
    + split.
      * intros [[= <- <-]|(Hk & h' & Hn & Hc)].
        -- split; [lia|]. exists h. rewrite Nat.sub_diag. now split.
        -- split; [lia|]. exists h'. rewrite Here by lia. now split.
      * intros (Hk & h' & Hn & Hc).
        destruct (Nat.eq_dec i k) as [->|Hne].
        -- left. rewrite Nat.sub_diag in Hn. injection Hn as <-. congruence.
        -- right. split; [lia|]. exists h'. rewrite <- Here by lia. now split.
    + split.
      * intros (Hk & h' & Hn & Hc). split; [lia|]. exists h'.
        rewrite Here by lia. now split.
      * intros (Hk & h' & Hn & Hc).
        destruct (Nat.eq_dec i k) as [->|Hne].
        -- rewrite Nat.sub_diag in Hn. injection Hn as <-. congruence.
        -- split; [lia|]. exists h'. rewrite <- Here by lia. now split.
Qed.

Lemma identify_from_sorted (hs : list str) (k : nat) :
  StronglySorted lt (map fst (identify_from k hs)).
Proof.
  revert k. induction hs as [|h hs IH]; intros k; cbn [identify_from].
  - constructor.
  - destruct (classify_header h) as [f0|]; [|apply IH].
    cbn [map fst]. constructor; [apply IH|].
    apply Forall_forall. intros j Hj. apply in_map_iff in Hj.
    destruct Hj as ([i g] & <- & Hin). apply identify_from_spec in Hin.
    cbn [fst]. lia.
Qed.

(** X6. The column map has an entry for a column exactly when the
    header of that column names a field, and the entry is that field;
    its entries are in the order of the columns, one per column at
    most. *)
Theorem identify_columns_by_header (header_cells : list str) :
  (forall i f, In (i, f) (_identify_columns header_cells) <->
               exists h, nth_error header_cells i = Some h /\
                         classify_header h = Some f) /\
  StronglySorted lt (map fst (_identify_columns header_cells)).
Proof.
  split; [|apply identify_from_sorted].
  intros i f. unfold _identify_columns. rewrite identify_from_spec.
  rewrite Nat.sub_0_r. split; [intros (_ & H); exact H|].
  intros H. split; [lia|exact H].
Qed.

(** ** The grid builder on tables without spans *)

Lemma py_get_nth {A} (l : list A) (n : nat) (a : A) :
  nth_error l n = Some a -> py_get l (Z.of_nat n) = Ok a.
Proof.
  intros H. assert (Hn : (n < length l)%nat) by (apply nth_error_Some; congruence).
  unfold py_get. rewrite py_index_in by (unfold len; lia).
  cbn [bind]. now rewrite Nat2Z.id, H.
Qed.

Lemma update_nth_same {A} (l : list A) (n : nat) (a : A) :
  nth_error l n = Some a -> update_nth l n a = l.
Proof.
  revert n. induction l as [|x l IH]; intros [|n]; simpl; try easy.
  - now intros [= ->].
  - intros H. now rewrite IH.
Qed.

Lemma update_nth_twice {A} (l : list A) (n : nat) (a b : A) :
  update_nth (update_nth l n a) n b = update_nth l n b.
Proof.
  revert n. induction l as [|x l IH]; intros [|n]; simpl; try easy.
  now rewrite IH.
Qed.

Lemma update_nth_app {A} (l1 l2 : list A) (x a : A) :
  update_nth (l1 ++ x :: l2) (length l1) a = l1 ++ a :: l2.
Proof. induction l1 as [|y l1 IH]; simpl; [reflexivity|now rewrite IH]. Qed.

Lemma set_cell_nth (g : Grid) (r c : nat) (row : list (option str)) (text : str) :
  nth_error g r = Some row -> (c < length row)%nat ->
  set_cell g (Z.of_nat r) (Z.of_nat c) text =
  Ok (update_nth g r (update_nth row c (Some text))).
Proof.
  intros Hr Hc.
  assert (Hn : (r < length g)%nat) by (apply nth_error_Some; congruence).
  unfold set_cell. rewrite (py_get_nth _ _ _ Hr). cbn [bind].
  rewrite py_set_in by (unfold len; lia). cbn [bind].
  rewrite py_set_in by (unfold len; lia). now rewrite !Nat2Z.id.
Qed.

Lemma cols_plain (row : list Cell) (acc : Z) :
  Forall plain_cell row ->
  for_each row acc (fun cols cell =>
    colspan <- span_attr (colspan cell) ;; Ok (cols + colspan))
  = Ok (acc + len row).
Proof.
  intros H. revert acc. induction H as [|c row (_ & Hc) _ IH]; intros acc.
  - cbn [for_each]. unfold len. simpl. f_equal. lia.
  - cbn [for_each]. rewrite Hc. cbn [span_attr bind]. rewrite IH.
    unfold len. cbn [length]. f_equal. lia.
Qed.

Lemma count_max_cols_plain (rows : list (list Cell)) (m : Z) :
  Forall (Forall plain_cell) rows -> 0 <= m ->
  for_each rows m (fun max_cols row =>
    cols <- cols_in_row row ;; Ok (Z.max max_cols cols))
  = Ok (Z.max m (Z.of_nat (widest rows))).
Proof.
  intros H. revert m. induction H as [|row rows Hrow _ IH]; intros m Hm.
  - cbn [for_each]. unfold widest. simpl. f_equal. lia.
  - cbn [for_each]. unfold cols_in_row. rewrite (cols_plain _ _ Hrow).
    cbn [bind]. rewrite IH by (unfold len; lia).
    unfold widest, len, list_max. cbn [map fold_right]. f_equal. lia.
Qed.

(** The state of a grid row while the cells of a plain row are placed:
    the texts placed so far, then empty slots. *)
Lemma update_filled (W : nat) (pre : list str) (text : str) :
  (length pre < W)%nat ->
  update_nth (map Some pre ++ repeat None (W - length pre)) (length pre) (Some text)
  = map Some (pre ++ [text]) ++ repeat None (W - length (pre ++ [text])).
Proof.
  intros H. rewrite length_app. cbn [length].
  replace (W - length pre)%nat with (S (W - (length pre + 1))) by lia.
  cbn [repeat]. rewrite <- (length_map Some pre) at 2.
  rewrite update_nth_app, map_app, <- app_assoc. reflexivity.
Qed.

Lemma place_cells_plain (W r : nat) (cells : list Cell) :
  Forall plain_cell cells ->
  forall (pre : list str) (g : Grid),
    (length pre + length cells <= W)%nat ->
    nth_error g r = Some (map Some pre ++ repeat None (W - length pre)) ->
    place_cells (Z.of_nat W) (Z.of_nat r) cells (Z.of_nat (length pre)) g =
    Ok (update_nth g r
          (map Some (pre ++ map cell_text cells)
           ++ repeat None (W - length (pre ++ map cell_text cells)))).
Proof.
  induction 1 as [|cell cells (Hrs & Hcs) _ IH]; intros pre g Hlen Hrow.
  - cbn [place_cells map]. rewrite app_nil_r.
    now rewrite (update_nth_same _ _ _ Hrow).
  - cbn [place_cells length] in *.
    set (row := map Some pre ++ repeat None (W - length pre)) in *.
    assert (Hj : nth_error row (length pre) = Some None).
    { unfold row. rewrite nth_error_app2 by (rewrite length_map; lia).
      rewrite length_map, Nat.sub_diag.
      replace (W - length pre)%nat with (S (W - length pre - 1)) by lia.
      reflexivity. }
    unfold next_empty.
    replace (Z.to_nat (Z.of_nat W - Z.of_nat (length pre)))
      with (S (W - length pre - 1)) by lia.
    cbn [skip_filled]. rewrite (py_get_nth _ _ _ Hrow). cbn [bind].
    rewrite (py_get_nth _ _ _ Hj). cbn [bind].
    destruct (Z.leb_spec (Z.of_nat W) (Z.of_nat (length pre))); [lia|].
    rewrite Hrs, Hcs. cbn [span_attr bind].
    unfold fill_rect. change (py_range 1) with [0]. cbn [for_each bind].
    unfold fill_slot. rewrite !Z.add_0_r.
    assert (Hr : (r < length g)%nat) by (apply nth_error_Some; congruence).
    destruct (Z.ltb_spec (Z.of_nat r) (len g)); [|unfold len in *; lia].
    destruct (Z.ltb_spec (Z.of_nat (length pre)) (Z.of_nat W)); [|lia].
    cbn [andb].
    rewrite (set_cell_nth g r (length pre) row (cell_text cell) Hrow)
      by (unfold row; rewrite length_app, length_map, repeat_length; lia).
    cbn [bind]. unfold row. rewrite update_filled by lia.
    replace (Z.of_nat (length pre) + 1)
      with (Z.of_nat (length (pre ++ [cell_text cell])))
      by (rewrite length_app; simpl; lia).
    rewrite IH.
    + rewrite update_nth_twice. cbn [map]. rewrite <- app_assoc. reflexivity.
    + rewrite length_app. simpl. lia.
    + rewrite nth_error_update_nth by lia. now rewrite Nat.eqb_refl.
Qed.

Lemma place_rows_plain (W : nat) (rows : list (list Cell)) :
  Forall (Forall plain_cell) rows ->
  Forall (fun row => (length row <= W)%nat) rows ->
  forall (done : Grid),
    place_rows (Z.of_nat W) rows (Z.of_nat (length done))
      (done ++ map (fun _ => repeat None W) rows) =
    Ok (done ++ map (fun row => map Some (map cell_text row)
                                ++ repeat None (W - length row)) rows).
Proof.
  induction 1 as [|row rows Hrow _ IH]; intros HW done.
  - reflexivity.
  - inversion HW as [|? ? Hl HW']; subst. cbn [place_rows map].
    pose proof (place_cells_plain W (length done) row Hrow []
                  (done ++ repeat None W :: map (fun _ => repeat None W) rows)) as P.
    cbn [length map app] in P. rewrite Nat.sub_0_r in P.
    change (Z.of_nat 0) with 0 in P.
    rewrite P; [|lia|].
    2:{ rewrite nth_error_app2 by lia. now rewrite Nat.sub_diag. }
    cbn [bind]. rewrite update_nth_app, length_map.
    set (x := map Some (map cell_text row) ++ repeat None (W - length row)).
    replace (Z.of_nat (length done) + 1) with (Z.of_nat (length (done ++ [x])))
      by (rewrite length_app; simpl; lia).
    replace (done ++ x :: map (fun _ => repeat None W) rows)
      with ((done ++ [x]) ++ map (fun _ : list Cell => @repeat (option str) None W) rows)
      by (now rewrite <- app_assoc).
    rewrite (IH HW'). now rewrite <- app_assoc.
Qed.

Lemma widest_bound {A} (rows : list (list A)) :
  Forall (fun row => (length row <= widest rows)%nat) rows.
Proof.
  unfold widest. induction rows as [|row rows IH]; constructor.
  - cbn [map list_max fold_right]. lia.
  - eapply Forall_impl; [|exact IH]. cbn [map list_max fold_right].
    intros r Hr. unfold list_max in Hr. lia.
Qed.

Lemma or_empty_row (texts : list str) (k : nat) :
  map or_empty (map Some texts ++ repeat None k) = texts ++ repeat [] k.
Proof.
  rewrite map_app, map_map, map_id. f_equal.
  induction k as [|k IH]; simpl; [reflexivity|now rewrite IH].
Qed.

(** X7. On a table whose cells carry no span attributes the grid
    builder returns, for each row, the texts of its cells in order,
    filled up with empty texts to the length of the longest row. *)
Theorem expand_plain_table (table : Table) :
  plain table ->
  _expand_rowspans table =
  Ok (map (fun row => pad (widest (table_rows table)) (map cell_text row))
          (table_rows table)).
Proof.
  unfold plain, _expand_rowspans. intros Hp.
  destruct (table_rows table) as [|row0 rows0] eqn:Er; [reflexivity|].
  rewrite <- Er in *. clear Er row0 rows0.
  unfold count_max_cols. rewrite (count_max_cols_plain _ 0 Hp) by lia.
  rewrite Z.max_r by lia. cbn [bind]. rewrite Nat2Z.id.
  pose proof (place_rows_plain (widest (table_rows table)) (table_rows table)
                Hp (widest_bound _) []) as P.
  cbn [app length] in P. change (Z.of_nat 0) with 0 in P. rewrite P.
  cbn [bind]. f_equal. rewrite map_map. apply map_ext. intros row.
  rewrite or_empty_row. unfold pad. now rewrite length_map.
Qed.

Lemma expand_plain_table_witness :
  _expand_rowspans (table_of [[td "a"; td "b"; td "c"]; [td "d"]]) =
  Ok [[py "a"; py "b"; py "c"]; [py "d"; py ""; py ""]].
Proof.
  apply (expand_plain_table (table_of [[td "a"; td "b"; td "c"]; [td "d"]])).
  repeat constructor.
Defined.

(** ** The records of the scraper *)

Lemma lstrip_done (s : str) :
  match s with c :: _ => isspace c = false | [] => True end -> lstrip s = s.
Proof. destruct s as [|c s]; simpl; [easy|]. now intros ->. Qed.

Lemma lstrip_head (s : str) :
  match lstrip s with c :: _ => isspace c = false | [] => True end.
Proof.
  induction s as [|c s IH]; simpl; [easy|].
  destruct (isspace c) eqn:E; [exact IH|exact E].
Qed.

Lemma lstrip_idem (s : str) : lstrip (lstrip s) = lstrip s.
Proof. apply lstrip_done, lstrip_head. Qed.

Lemma rstrip_idem (s : str) : rstrip (rstrip s) = rstrip s.
Proof. unfold rstrip. now rewrite rev_involutive, lstrip_idem. Qed.

(** Stripping on the right keeps a first character that is not
    whitespace. *)
Lemma rstrip_head (s : str) :
  match s with c :: _ => isspace c = false | [] => True end ->
  match rstrip s with c :: _ => isspace c = false | [] => True end.
Proof.
  destruct s as [|c s]; [easy|]. intros Hc. unfold rstrip. cbn [rev].
  rewrite lstrip_app. destruct (lstrip (rev s)) as [|x l] eqn:E.
  - cbn [lstrip]. rewrite Hc. exact Hc.
  - rewrite rev_app_distr. exact Hc.
Qed.

Lemma strip_idem (s : str) : strip (strip s) = strip s.
Proof.
  unfold strip. rewrite (lstrip_done (rstrip (lstrip s))).
  - apply rstrip_idem.
  - apply rstrip_head, lstrip_head.
Qed.

Lemma _parse_sample_size_nonneg (text : str) (n : Z) :
  _parse_sample_size text = Ok (Some n) -> 0 <= n.
Proof.
  unfold _parse_sample_size.
  destruct (search RE_SAMPLE _) as [ps|] eqn:Hs; [|discriminate].
  destruct (search_sound _ _ _ Hs) as (HF & _).
  assert (Hd : all_digits (concat ps))
    by (apply (pieces_digits _ _ HF); unfold RE_SAMPLE; digit_atoms).
  destruct (py_int (concat ps)) as [v|e] eqn:Ev; cbn [bind]; [|discriminate].
  intros [= <-]. unfold py_int in Ev.
  rewrite (strip_nospace _ (digits_nospace _ Hd)) in Ev.
  destruct (concat ps) as [|c s] eqn:Ec; [discriminate|].
  inversion Hd as [|? ? Hc Hs']; subst.
  assert ((c =? 43) = false /\ (c =? 45) = false) as [E1 E2]
    by (unfold isdigit in Hc; lia).
  rewrite E1, E2, (int_digits_all _ Hs' _ _ _ _ Hc) in Ev.
  destruct (_ <? _)%nat; [discriminate|]. injection Ev as <-.
  apply (digits_val_nonneg (c :: s)). now constructor.
Qed.

Lemma for_each_inv {A S} (P : S -> Prop) (body : S -> A -> result S) :
  (forall s a s', body s a = Ok s' -> P s -> P s') ->
  forall l s s', for_each l s body = Ok s' -> P s -> P s'.
Proof.
  intros Hb. induction l as [|a l IH]; intros s s'; cbn [for_each].
  - now intros [= <-].
  - destruct (body s a) as [s1|e] eqn:E; cbn [bind]; [|discriminate].
    intros H Hs. exact (IH _ _ H (Hb _ _ _ E Hs)).
Qed.

Lemma apply_column_data_inv (today_year : Z) (row : list str)
  (st st' : Data * PartyValues) (item : nat * field) :
  today_year <> 0 ->
  apply_column today_year row st item = Ok st' ->
  data_inv (fst st) -> data_inv (fst st').
Proof.
  intros Ht. destruct st as [data pv], item as [i f]. unfold apply_column.
  destruct (nth_error row i) as [text|]; [|now intros [= <-]].
  cbn [fst]. intros H (Hc & Hn & Hv & Hy).
  destruct f as [p| | | | | |]; try (injection H as <-; cbn [fst];
                                      unfold data_inv; now auto).
  - destruct (fieldwork_dates_year today_year text Ht) as (s & e & y & E & _ & Hd).
    rewrite E in H. cbn [bind fst snd] in H. injection H as <-.
    unfold data_inv. cbn [fst data_client data_sample_size
                          data_fieldwork_start data_fieldwork_end].
    split; [exact Hc|]. split; [exact Hn|]. split.
    + intros d Hd'. now apply Hd.
    + intros a b -> ->. destruct (Hd a) as (_ & ->); [now left|].
      destruct (Hd b) as (_ & ->); [now right|]. reflexivity.
  - injection H as <-. unfold data_inv.
    cbn [fst data_client data_sample_size data_fieldwork_start data_fieldwork_end].
    split; [|now auto]. destruct text; [discriminate|]. cbn [is_empty]. discriminate.
  - destruct (_parse_sample_size text) as [n|e] eqn:E; cbn [bind] in H;
      [|discriminate].
    injection H as <-. unfold data_inv.
    cbn [fst data_client data_sample_size data_fieldwork_start data_fieldwork_end].
    split; [exact Hc|]. split; [|now auto].
    intros k ->. exact (_parse_sample_size_nonneg _ _ E).
Qed.

Lemma data_inv_init : data_inv empty_data.
Proof. unfold data_inv, empty_data. simpl. intuition discriminate. Qed.

(** The record of a row that is kept, from the state of the loop. *)
Lemma process_row_made (today_year : Z) (url : str) (cm : list (nat * field))
  (row : list str) (poll : PollResult) :
  process_row today_year url cm row = Ok (Some poll) ->
  exists data pv,
    for_each cm (empty_data, []) (apply_column today_year row) = Ok (data, pv) /\
    poll = make_poll url
             (strip (match data_pollster data with Some s => s | None => [] end))
             data pv.
Proof.
  unfold process_row. destruct (_ <? 3)%nat; [discriminate|].
  destruct (for_each cm (empty_data, []) (apply_column today_year row))
    as [[data pv]|] eqn:E; [|discriminate].
  cbn [bind]. destruct (_ || _); [discriminate|].
  intros [= <-]. now exists data, pv.
Qed.

Lemma make_poll_data (url pollster0 : str) (data : Data) (pv : PartyValues) :
  let poll := make_poll url pollster0 data pv in
  pollster poll = pollster0 /\ client poll = data_client data /\
  fieldwork_start poll = data_fieldwork_start data /\
  fieldwork_end poll = data_fieldwork_end data /\
  sample_size poll = data_sample_size data /\ source_url poll = Some url.
Proof. unfold make_poll. destruct (best_of pv). cbn. repeat split. Qed.

Lemma emitted_fields (today_year : Z) (url : str) (cm : list (nat * field))
  (row : list str) (poll : PollResult) :
  today_year <> 0 ->
  process_row today_year url cm row = Ok (Some poll) ->
  strip (pollster poll) = pollster poll /\
  client poll <> Some [] /\
  (forall n, sample_size poll = Some n -> 0 <= n) /\
  source_url poll = Some url /\
  (forall d, fieldwork_start poll = Some d \/ fieldwork_end poll = Some d ->
             valid_date d) /\
  (forall a b, fieldwork_start poll = Some a -> fieldwork_end poll = Some b ->
               year a = year b).
Proof.
  intros Ht H. destruct (process_row_made _ _ _ _ _ H) as (data & pv & E & ->).
  pose proof (for_each_inv (fun st => data_inv (fst st)) _
                (fun s a s' => apply_column_data_inv today_year row s s' a Ht)
                _ _ _ E data_inv_init) as (Hc & Hn & Hv & Hy).
  cbn [fst] in *.
  destruct (make_poll_data url
              (strip (match data_pollster data with Some s => s | None => [] end))
              data pv) as (-> & -> & -> & -> & -> & ->).
  split; [apply strip_idem|]. repeat split; assumption.
Qed.

(** X8. In every record the scraper returns, the pollster name has no
    whitespace at either end, the client is never the empty text, the
    sample size is not negative, the source is the page that was
    scraped, and the fieldwork dates are dates of the calendar that lie
    in one year. *)
Theorem scraped_record_fields (today_year : Z) (url : str) (tables : list Table)
  (polls : list PollResult) (poll : PollResult) :
  today_year <> 0 ->
  scrape_polls today_year url tables = Ok polls -> In poll polls ->
  strip (pollster poll) = pollster poll /\
  client poll <> Some [] /\
  (forall n, sample_size poll = Some n -> 0 <= n) /\
  source_url poll = Some url /\
  (forall d, fieldwork_start poll = Some d \/ fieldwork_end poll = Some d ->
             valid_date d) /\
  (forall a b, fieldwork_start poll = Some a -> fieldwork_end poll = Some b ->
               year a = year b).
Proof.
  intros Ht H Hin.
  destruct (scrape_polls_emitted _ _ _ _ H _ Hin) as (cm & row & E).
  exact (emitted_fields _ _ _ _ _ Ht E).
Qed.

(** X9. Every party value of a record the scraper returns is a number
    that is not negative: never a NaN, never below zero. *)
Theorem scraped_values_are_percentages (today_year : Z) (url : str)
  (tables : list Table) (polls : list PollResult) (poll : PollResult)
  (q : party) (v : float) :
  scrape_polls today_year url tables = Ok polls -> In poll polls ->
  party_value poll q = Some v -> percentage v.
Proof.
  intros H Hin Hv.
  destruct (scrape_polls_emitted _ _ _ _ H _ Hin) as (cm & row & E).
  destruct (emitted_record _ _ _ _ _ E) as (pv & _ & Hp & _ & _ & Hq & _).
  rewrite Hq in Hv. apply pv_get_some in Hv. exact (Hp _ _ Hv).
Qed.

Lemma scraped_record_fields_witness :
  In sample_poll sample_polls /\
  strip (pollster sample_poll) = pollster sample_poll /\
  client sample_poll <> Some [] /\
  (forall n, sample_size sample_poll = Some n -> 0 <= n) /\
  source_url sample_poll = Some WIKI_URL /\
  (forall d, fieldwork_start sample_poll = Some d \/
             fieldwork_end sample_poll = Some d -> valid_date d) /\
  (forall a b, fieldwork_start sample_poll = Some a ->
               fieldwork_end sample_poll = Some b -> year a = year b).
Proof.
  assert (Hin : In sample_poll sample_polls) by (vm_compute; left; reflexivity).
  split; [exact Hin|].
  apply (scraped_record_fields 2026 WIKI_URL [sample_table] sample_polls sample_poll).
  - lia.
  - vm_compute; reflexivity.
  - exact Hin.
Defined.

Lemma scraped_values_are_percentages_witness :
  party_value sample_poll Reform = Some (F 5432467050515661 (-48)) /\
  percentage (F 5432467050515661 (-48)).
Proof.
  assert (Hv : party_value sample_poll Reform = Some (F 5432467050515661 (-48)))
    by (apply opt_view_inj; vm_compute; reflexivity).
  split; [exact Hv|].
  apply (scraped_values_are_percentages 2026 WIKI_URL [sample_table] sample_polls
           sample_poll Reform).
  - vm_compute; reflexivity.
  - vm_compute; left; reflexivity.
  - exact Hv.
Defined.

(* ================================================================== *)
(** * Properties of the polling store *)

(** ** Loading *)

Lemma sort_desc_sorted_id (l : list PollResult) :
  StronglySorted key_ge l -> sort_desc l = l.
Proof.
  induction 1 as [|p l Hl IH Hp]; [reflexivity|].
  cbn [sort_desc fold_right]. fold (sort_desc l). rewrite IH.
  destruct l as [|q l']; [reflexivity|].
  inversion Hp as [|? ? Hq _]; subst. unfold key_ge in Hq.
  cbn [insert_desc]. now rewrite Hq.
Qed.

Lemma sort_desc_length (l : list PollResult) : length (sort_desc l) = length l.
Proof. apply Permutation_length, sort_desc_perm. Qed.

(** X10. Loading replaces the content of the store by the polls given,
    whatever it held before: the same polls, each as often as given,
    ordered from the latest end date to the earliest (a poll without end
    date counts as the earliest possible date).  It records the source
    and the time, and returns the number of polls given. *)
Theorem load_stores_polls_newest_first (utcnow : datetime) (self : PollingStore)
  (polls : list PollResult) (src : str) :
  Permutation (get_all (fst (load utcnow self polls src))) polls /\
  StronglySorted key_ge (get_all (fst (load utcnow self polls src))) /\
  snd (load utcnow self polls src) = len polls /\
  _source (fst (load utcnow self polls src)) = src /\
  _last_refreshed (fst (load utcnow self polls src)) = Some utcnow.
Proof.
  unfold load, get_all. cbn [fst snd _polls _source _last_refreshed].
  split; [apply sort_desc_perm|]. split; [apply sort_desc_sorted|].
  split; [|now split]. unfold len. now rewrite sort_desc_length.
Qed.

(** X11. The store does not reorder what is already in order: loading
    the list the scraper returned keeps it as it is, and so does loading
    again what the store holds. *)
Theorem load_keeps_sorted_lists (today_year : Z) (url : str) (tables : list Table)
  (utcnow utcnow' : datetime) (self : PollingStore) (polls : list PollResult)
  (src src' : str) :
  (scrape_polls today_year url tables = Ok polls ->
   get_all (fst (load utcnow self polls src)) = polls) /\
  get_all (fst (load utcnow' (fst (load utcnow self polls src))
                  (get_all (fst (load utcnow self polls src))) src'))
  = get_all (fst (load utcnow self polls src)).
Proof.
  unfold load, get_all. cbn [fst _polls]. split.
  - intros H. apply sort_desc_sorted_id. exact (scrape_polls_sorted _ _ _ _ H).
  - apply sort_desc_sorted_id, sort_desc_sorted.
Qed.

Lemma load_keeps_sorted_lists_witness :
  scrape_polls 2026 WIKI_URL [sample_table] = Ok sample_polls /\
  get_all (fst (load 0 new_store sample_polls (py "wikipedia"))) = sample_polls.
Proof.
  assert (H : scrape_polls 2026 WIKI_URL [sample_table] = Ok sample_polls)
    by (vm_compute; reflexivity).
  split; [exact H|].
  exact (proj1 (load_keeps_sorted_lists 2026 WIKI_URL [sample_table] 0 0 new_store
                  sample_polls (py "wikipedia") (py "wikipedia")) H).
Defined.

(** ** The latest polls *)

Lemma slice_to_prefix {A} (l : list A) (n : Z) :
  exists k, slice_to l n = firstn k l /\
            (0 <= n -> Z.of_nat k = Z.min n (len l)) /\ (k <= length l)%nat.
Proof.
  unfold slice_to, len. destruct (Z.ltb_spec n 0).
  - exists (Z.to_nat (Z.of_nat (length l) + n)). split; [reflexivity|].
    split; lia.
  - exists (Nat.min (Z.to_nat n) (length l)). split; [|split; lia].
    destruct (Nat.le_ge_cases (Z.to_nat n) (length l)) as [Hle|Hge].
    + now rewrite Nat.min_l.
    + rewrite Nat.min_r by exact Hge. now rewrite !firstn_all2.
Qed.

Lemma StronglySorted_split {A} (R : A -> A -> Prop) (a b : list A) :
  StronglySorted R (a ++ b) -> forall x y, In x a -> In y b -> R x y.
Proof.
  induction a as [|z a IH]; cbn [app]; intros H x y Hx Hy; [destruct Hx|].
  inversion H as [|? ? Hs Hz]; subst. destruct Hx as [->|Hx].
  - apply (proj1 (Forall_forall _ _) Hz). apply in_app_iff. now right.
  - now apply IH.
Qed.

(** X12. After a load, the latest [n] polls are the first [n] of the
    store ([n] at most the number stored, not negative): the store is
    these followed by the others, and none of the others has a later end
    date than any of them. *)
Theorem latest_polls_are_newest (utcnow : datetime) (self : PollingStore)
  (polls : list PollResult) (src : str) (n : Z) :
  0 <= n ->
  let store := fst (load utcnow self polls src) in
  len (get_latest store n) = Z.min n (len polls) /\
  exists rest,
    get_all store = get_latest store n ++ rest /\
    forall p q, In p (get_latest store n) -> In q rest -> key_ge p q.
Proof.
  intros Hn store. unfold get_latest, get_all.
  destruct (slice_to_prefix (_polls store) n) as (k & -> & Hk & Hle).
  assert (Hlen : len (_polls store) = len polls).
  { unfold store, load, len. cbn [fst _polls]. now rewrite sort_desc_length. }
  split.
  - unfold len in *. rewrite length_firstn. lia.
  - exists (skipn k (_polls store)). split; [now rewrite firstn_skipn|].
    apply StronglySorted_split. rewrite firstn_skipn.
    unfold store, load. cbn [fst _polls]. apply sort_desc_sorted.
Qed.

Lemma latest_polls_are_newest_witness :
  len (get_latest (fst (load 0 new_store sample_polls (py "seed_data"))) 2) = 2.
Proof.
  apply (latest_polls_are_newest 0 new_store sample_polls (py "seed_data") 2).
  lia.
Defined.

(** ** Searching the store *)

Lemma starts_with_spec (p s : str) :
  starts_with p s = true <-> exists b, s = p ++ b.
Proof.
  revert s. induction p as [|x p IH]; intros s; cbn [starts_with app].
  - split; [intros _; now exists s|reflexivity].
  - destruct s as [|y s].
    + split; [discriminate|]. intros (b & H). discriminate.
    + rewrite andb_true_iff, Z.eqb_eq, IH. split.
      * intros (-> & b & ->). now exists b.
      * intros (b & [= -> ->]). split; [reflexivity|now exists b].
Qed.

(** [needle in hay]: the needle is a contiguous part of the hay. *)
Lemma is_substr_spec (needle hay : str) :
  is_substr needle hay = true <-> exists a b, hay = a ++ needle ++ b.
Proof.
  induction hay as [|c hay IH]; cbn [is_substr].
  - rewrite orb_false_r, starts_with_spec. split.
    + intros (b & H). now exists [], b.
    + intros (a & b & H). destruct a; [now exists b|discriminate].
  - rewrite orb_true_iff, starts_with_spec, IH. split.
    + intros [(b & H)|(a & b & H)].
      * now exists [], b.
      * exists (c :: a), b. cbn [app]. now rewrite H.
    + intros (a & b & H). destruct a as [|x a].
      * left. now exists b.
      * right. injection H as _ H. now exists a, b.
Qed.

Lemma filter_StronglySorted {A} (R : A -> A -> Prop) (f : A -> bool) (l : list A) :
  StronglySorted R l -> StronglySorted R (filter f l).
Proof.
  induction 1 as [|x l Hl IH Hx]; cbn [filter]; [constructor|].
  destruct (f x); [|exact IH]. constructor; [exact IH|].
  apply Forall_forall. intros y Hy. apply filter_In in Hy.
  exact (proj1 (Forall_forall _ _) Hx y (proj1 Hy)).
Qed.

(** X13. The search by pollster returns the stored polls whose
    lower-cased name contains the lower-cased query as a contiguous
    part, and no others; it keeps them in the order of the store.  With
    the empty query it returns every poll. *)
Theorem pollster_search_by_substring (str_lower : str -> str)
  (self : PollingStore) (name : str) :
  (forall p, In p (get_by_pollster str_lower self name) <->
             In p (get_all self) /\
             exists a b, str_lower (pollster p) = a ++ str_lower name ++ b) /\
  (forall R : PollResult -> PollResult -> Prop,
      StronglySorted R (get_all self) ->
      StronglySorted R (get_by_pollster str_lower self name)) /\
  (str_lower [] = [] -> get_by_pollster str_lower self [] = get_all self).
Proof.
  unfold get_by_pollster, get_all. split; [|split].
  - intros p. now rewrite filter_In, is_substr_spec.
  - intros R. apply filter_StronglySorted.
  - intros ->. induction (_polls self) as [|p l IH]; [reflexivity|].
    cbn [filter]. destruct (str_lower (pollster p)); cbn [is_substr starts_with orb];
      now rewrite IH.
Qed.

Lemma pollster_search_by_substring_witness :
  get_by_pollster lower (fst (load 0 new_store sample_polls (py "seed_data"))) []
  = get_all (fst (load 0 new_store sample_polls (py "seed_data"))).
Proof.
  apply (pollster_search_by_substring lower
           (fst (load 0 new_store sample_polls (py "seed_data"))) []).
  reflexivity.
Defined.

(** ** Polls of a period *)

(** X14. The polls of a period are the stored polls that have an end
    date from [start] to [end_], both included, in the order of the
    store; a poll without end date is never among them, and a period
    whose start is after its end has no polls. *)
Theorem date_range_members (self : PollingStore) (start end_ : date) :
  (forall p, In p (get_date_range self start end_) <->
             In p (get_all self) /\
             exists d, fieldwork_end p = Some d /\ date_le start d /\ date_le d end_) /\
  (forall R : PollResult -> PollResult -> Prop,
      StronglySorted R (get_all self) ->
      StronglySorted R (get_date_range self start end_)) /\
  (date_leb start end_ = false -> get_date_range self start end_ = []).
Proof.
  assert (M : forall p, In p (get_date_range self start end_) <->
             In p (get_all self) /\
             exists d, fieldwork_end p = Some d /\ date_le start d /\ date_le d end_).
  { intros p. unfold get_date_range, get_all. rewrite filter_In.
    split; intros (Hin & H); (split; [exact Hin|]).
    - destruct (fieldwork_end p) as [d|]; [|discriminate].
      apply andb_true_iff in H. rewrite !date_leb_le in H. now exists d.
    - destruct H as (d & -> & H1 & H2). apply andb_true_iff.
      now rewrite !date_leb_le. }
  split; [exact M|]. split.
  - intros R. apply filter_StronglySorted.
  - intros H. destruct (get_date_range self start end_) as [|p l] eqn:E;
      [reflexivity|exfalso].
    destruct (proj1 (M p) (or_introl eq_refl)) as (_ & d & _ & H1 & H2).
    rewrite <- date_leb_le in H1, H2.
    rewrite (date_leb_trans _ _ _ H1 H2) in H. discriminate.
Qed.

Lemma date_range_members_witness :
  get_date_range (fst (load 0 new_store sample_polls (py "seed_data")))
    (Date 2026 2 4) (Date 2026 2 1) = [].
Proof.
  apply (date_range_members (fst (load 0 new_store sample_polls (py "seed_data")))
           (Date 2026 2 4) (Date 2026 2 1)).
  reflexivity.
Defined.

(** ** The values of one party *)

Lemma lower_app (a b : str) : lower (a ++ b) = lower a ++ lower b.
Proof. apply flat_map_app. Qed.

Lemma lower_char_space (c : char) : isspace c = true -> lower_char c = [c].
Proof.
  intros H. unfold lower_char.
  assert (E : (65 <=? c) && (c <=? 90) = false /\ (c =? 304) = false /\
              (c =? 8490) = false) by (unfold isspace in H; lia).
  destruct E as (-> & -> & ->). reflexivity.
Qed.

Lemma lower_space (ws : str) : all_space ws -> lower ws = ws.
Proof.
  induction 1 as [|c ws Hc _ IH]; [reflexivity|].
  unfold lower in *. cbn [flat_map]. now rewrite (lower_char_space _ Hc), IH.
Qed.

Lemma lower_char_idem (c : char) : lower (lower_char c) = lower_char c.
Proof.
  unfold lower_char.
  destruct ((65 <=? c) && (c <=? 90)) eqn:E1.
  - unfold lower. cbn [flat_map]. rewrite app_nil_r. unfold lower_char.
    assert (E : (65 <=? c + 32) && (c + 32 <=? 90) = false /\
                (c + 32 =? 304) = false /\ (c + 32 =? 8490) = false) by lia.
    destruct E as (-> & -> & ->). reflexivity.
  - destruct (c =? 304) eqn:E2; [reflexivity|].
    destruct (c =? 8490) eqn:E3; [reflexivity|].
    unfold lower. cbn [flat_map]. rewrite app_nil_r. unfold lower_char.
    now rewrite E1, E2, E3.
Qed.

Lemma lower_idem (s : str) : lower (lower s) = lower s.
Proof.
  induction s as [|c s IH]; [reflexivity|].
  change (lower (c :: s)) with (lower_char c ++ lower s).
  now rewrite lower_app, lower_char_idem, IH.
Qed.

Lemma resolve_field_lower (name : str) :
  resolve_field (lower name) = resolve_field name.
Proof. unfold resolve_field. now rewrite lower_idem. Qed.

Lemma resolve_field_strip (ws1 ws2 name : str) :
  all_space ws1 -> all_space ws2 ->
  resolve_field (ws1 ++ name ++ ws2) = resolve_field name.
Proof.
  intros H1 H2. unfold resolve_field.
  rewrite !lower_app, (lower_space _ H1), (lower_space _ H2).
  now rewrite strip_surrounding.
Qed.

Lemma resolve_field_code (p : party) :
  resolve_field (party_field p) = Some (party_field p).
Proof. destruct p; vm_compute; reflexivity. Qed.

Lemma resolve_field_display (p : party) :
  resolve_field (party_display p) = Some (party_field p).
Proof. destruct p; vm_compute; reflexivity. Qed.

Lemma resolve_field_party (name f : str) :
  resolve_field name = Some f -> exists p, f = party_field p.
Proof.
  unfold resolve_field.
  set (field := match dict_get _ _ with Some f0 => f0 | None => _ end).
  destruct (existsb (str_eqb field) PARTY_FIELDS) eqn:E; [|discriminate].
  intros [= <-]. apply existsb_exists in E. destruct E as (x & Hx & E).
  apply str_eqb_eq in E. subst x. unfold PARTY_FIELDS in Hx. cbn [In] in Hx.
  destruct Hx as [H|[H|[H|[H|[H|[H|[H|[]]]]]]]]; rewrite <- H.
  - now exists Con.
  - now exists Lab.
  - now exists LibDem.
  - now exists Reform.
  - now exists Green.
  - now exists SNP.
  - now exists Other.
Qed.

Lemma getattr_party_field (poll : PollResult) (p : party) :
  getattr_party poll (party_field p) = party_value poll p.
Proof. destruct p; reflexivity. Qed.

Lemma get_by_party_resolved (self : PollingStore) (name : str) (p : party) :
  resolve_field name = Some (party_field p) ->
  get_by_party self name = party_points (get_all self) p.
Proof.
  intros H. unfold get_by_party, party_points, get_all. rewrite H.
  apply flat_map_ext. intros poll. unfold data_point.
  now rewrite getattr_party_field.
Qed.

(** X15. The values of a party can be asked for by its field name or by
    its display name, in any letter case and with whitespace around the
    name: the answer is one data point for each stored poll that has a
    value for the party, in the order of the store, with the end date of
    the poll or else its start date.  No other request is answered with
    anything but the points of one of the seven parties, or nothing. *)
Theorem party_lookup_by_code_or_name (self : PollingStore) :
  (forall (p : party) (name ws1 ws2 : str),
      all_space ws1 -> all_space ws2 ->
      lower name = lower (party_field p) \/ lower name = lower (party_display p) ->
      get_by_party self (ws1 ++ name ++ ws2) = party_points (get_all self) p) /\
  (forall name, get_by_party self name = [] \/
                exists p, get_by_party self name = party_points (get_all self) p).
Proof.
  split.
  - intros p name ws1 ws2 H1 H2 Hn. apply get_by_party_resolved.
    rewrite (resolve_field_strip _ _ _ H1 H2), <- resolve_field_lower.
    destruct Hn as [-> | ->]; rewrite resolve_field_lower.
    + apply resolve_field_code.
    + apply resolve_field_display.
  - intros name. destruct (resolve_field name) as [f|] eqn:E.
    + right. destruct (resolve_field_party _ _ E) as (p & ->).
      exists p. now apply get_by_party_resolved.
    + left. unfold get_by_party. now rewrite E.
Qed.

Lemma party_lookup_by_code_or_name_witness :
  get_by_party (fst (load 0 new_store sample_polls (py "seed_data")))
    (py " " ++ py "REFORM uk" ++ py "  ")
  = party_points (get_all (fst (load 0 new_store sample_polls (py "seed_data"))))
      Reform.
Proof.
  apply (party_lookup_by_code_or_name
           (fst (load 0 new_store sample_polls (py "seed_data")))).
  - repeat constructor.
  - repeat constructor.
  - right. reflexivity.
Defined.

(** The leading party of a record has a value in the record. *)
Lemma emitted_leader (today_year : Z) (url : str) (cm : list (nat * field))
  (row : list str) (poll : PollResult) :
  process_row today_year url cm row = Ok (Some poll) ->
  exists leader best,
    lead_party poll = Some (party_display leader) /\
    party_value poll leader = Some best.
Proof.
  intros H.
  destruct (emitted_record _ _ _ _ _ H)
    as (pv & Hnd & Hp & Hex & _ & Hq & Hl & _).
  destruct (lead_spec pv Hnd Hp Hex) as (pre & p & v & post & Epv & Eb & _).
  exists p, v. split.
  - rewrite Hl, Eb. reflexivity.
  - rewrite Hq. apply pv_get_in; [exact Hnd|].
    rewrite Epv. apply in_app_iff. right. now left.
Qed.

Lemma in_party_points (polls : list PollResult) (p : party) (poll : PollResult)
  (v : float) :
  In poll polls -> party_value poll p = Some v ->
  In {| dp_date := match fieldwork_end poll with
                   | Some d => Some d
                   | None => fieldwork_start poll
                   end;
        dp_value := v;
        dp_pollster := pollster poll |} (party_points polls p).
Proof.
  intros Hin Hv. unfold party_points. apply in_flat_map. exists poll.
  split; [exact Hin|]. unfold data_point. rewrite Hv. now left.
Qed.

(** X16. The leading party that the scraper writes into a record is a
    name the store understands: once the scraped polls are loaded, asking
    for the values of that party gives, among others, a data point of
    this very poll, with its pollster and with the value the record has
    for its leading party. *)
Theorem lead_party_can_be_looked_up (today_year : Z) (url : str)
  (tables : list Table) (polls : list PollResult) (poll : PollResult)
  (utcnow : datetime) (self : PollingStore) (src : str) :
  scrape_polls today_year url tables = Ok polls -> In poll polls ->
  exists name leader best dp,
    lead_party poll = Some name /\
    name = party_display leader /\
    party_value poll leader = Some best /\
    In dp (get_by_party (fst (load utcnow self polls src)) name) /\
    dp_pollster dp = pollster poll /\ dp_value dp = best.
Proof.
  intros H Hin.
  destruct (scrape_polls_emitted _ _ _ _ H _ Hin) as (cm & row & E).
  destruct (emitted_leader _ _ _ _ _ E) as (leader & best & Hl & Hv).
  exists (party_display leader), leader, best,
    {| dp_date := match fieldwork_end poll with
                  | Some d => Some d
                  | None => fieldwork_start poll
                  end;
       dp_value := best;
       dp_pollster := pollster poll |}.
  split; [exact Hl|]. split; [reflexivity|]. split; [exact Hv|].
  rewrite (get_by_party_resolved _ _ leader (resolve_field_display leader)).
  split; [|split; reflexivity].
  apply in_party_points; [|exact Hv].
  unfold load, get_all. cbn [fst _polls].
  apply (Permutation_in _ (Permutation_sym (sort_desc_perm polls))). exact Hin.
Qed.

Lemma lead_party_can_be_looked_up_witness :
  exists name leader best dp,
    lead_party sample_poll = Some name /\
    name = party_display leader /\
    party_value sample_poll leader = Some best /\
    In dp (get_by_party (fst (load 0 new_store sample_polls (py "wikipedia"))) name) /\
    dp_pollster dp = pollster sample_poll /\ dp_value dp = best.
Proof.
  apply (lead_party_can_be_looked_up 2026 WIKI_URL [sample_table] sample_polls
           sample_poll 0 new_store (py "wikipedia")).
  - vm_compute; reflexivity.
  - vm_compute; left; reflexivity.
Defined.

(** ** The status of the store *)

Lemma date_leb_refl (a : date) : date_leb a a = true.
Proof. apply date_leb_le. unfold date_le. lia. Qed.

Lemma date_max_spec (rest : list date) (d : date) :
  In (date_max d rest) (d :: rest) /\
  Forall (fun x => date_leb x (date_max d rest) = true) (d :: rest).
Proof.
  revert d. induction rest as [|x rest IH]; intros d.
  - split; [now left|]. constructor; [apply date_leb_refl|constructor].
  - unfold date_max in *. cbn [fold_left].
    destruct (IH (if date_leb x d then d else x)) as (Hin & Hall).
    inversion Hall as [|? ? Hd' Hrest]; subst.
    destruct (date_leb x d) eqn:E.
    + split; [destruct Hin as [<-|Hin]; [now left|right; now right]|].
      constructor; [exact Hd'|]. constructor; [|exact Hrest].
      exact (date_leb_trans _ _ _ E Hd').
    + split; [destruct Hin as [<-|Hin]; [right; now left|right; now right]|].
      constructor; [|constructor; [exact Hd'|exact Hrest]].
      exact (date_leb_trans _ _ _ (date_leb_total _ _ E) Hd').
Qed.

Lemma date_min_of_spec (rest : list date) (d : date) :
  In (date_min_of d rest) (d :: rest) /\
  Forall (fun x => date_leb (date_min_of d rest) x = true) (d :: rest).
Proof.
  revert d. induction rest as [|x rest IH]; intros d.
  - split; [now left|]. constructor; [apply date_leb_refl|constructor].
  - unfold date_min_of in *. cbn [fold_left].
    destruct (IH (if date_leb d x then d else x)) as (Hin & Hall).
    inversion Hall as [|? ? Hd' Hrest]; subst.
    destruct (date_leb d x) eqn:E.
    + split; [destruct Hin as [<-|Hin]; [now left|right; now right]|].
      constructor; [exact Hd'|]. constructor; [|exact Hrest].
      exact (date_leb_trans _ _ _ Hd' E).
    + split; [destruct Hin as [<-|Hin]; [right; now left|right; now right]|].
      constructor; [|constructor; [exact Hd'|exact Hrest]].
      exact (date_leb_trans _ _ _ Hd' (date_leb_total _ _ E)).
Qed.

Lemma in_end_dates (polls : list PollResult) (d : date) :
  In d (end_dates polls) <-> exists p, In p polls /\ fieldwork_end p = Some d.
Proof.
  unfold end_dates. rewrite in_flat_map. split.
  - intros (p & Hp & Hd). exists p. split; [exact Hp|].
    destruct (fieldwork_end p) as [e|]; [|destruct Hd].
    destruct Hd as [->|[]]. reflexivity.
  - intros (p & Hp & E). exists p. split; [exact Hp|]. rewrite E. now left.
Qed.

(** The latest and the oldest of the end dates of a list of polls that
    has a dated poll. *)
Lemma end_dates_bounds (polls : list PollResult) (d : date) (rest : list date) :
  end_dates polls = d :: rest ->
  (exists q, In q polls /\ fieldwork_end q = Some (date_max d rest)) /\
  (exists q, In q polls /\ fieldwork_end q = Some (date_min_of d rest)) /\
  forall p e, In p polls -> fieldwork_end p = Some e ->
              date_le (date_min_of d rest) e /\ date_le e (date_max d rest).
Proof.
  intros E.
  destruct (date_max_spec rest d) as (Hmax & Hle).
  destruct (date_min_of_spec rest d) as (Hmin & Hge).
  rewrite <- E in Hmax, Hmin, Hle, Hge.
  split; [now apply in_end_dates|]. split; [now apply in_end_dates|].
  intros p e Hp He.
  assert (Hin : In e (end_dates polls)) by (apply in_end_dates; now exists p).
  rewrite <- !date_leb_le. split.
  - exact (proj1 (Forall_forall _ _) Hge e Hin).
  - exact (proj1 (Forall_forall _ _) Hle e Hin).
Qed.

(** X17. The status counts the stored polls and hands back the source
    and the time of the last load.  When no stored poll has an end date
    it has no latest and no oldest date; otherwise both are end dates of
    stored polls, and the end date of every stored poll lies between
    them. *)
Theorem status_describes_store (self : PollingStore) :
  total_polls (get_status self) = len (get_all self) /\
  source (get_status self) = _source self /\
  last_refreshed (get_status self) = _last_refreshed self /\
  ((forall p, In p (get_all self) -> fieldwork_end p = None) ->
   latest_poll_date (get_status self) = None /\
   oldest_poll_date (get_status self) = None) /\
  (forall p d, In p (get_all self) -> fieldwork_end p = Some d ->
     exists lo hi,
       oldest_poll_date (get_status self) = Some lo /\
       latest_poll_date (get_status self) = Some hi /\
       date_le lo d /\ date_le d hi /\
       (exists q, In q (get_all self) /\ fieldwork_end q = Some lo) /\
       (exists q, In q (get_all self) /\ fieldwork_end q = Some hi)).
Proof.
  unfold get_status, get_all.
  cbn [total_polls source last_refreshed latest_poll_date oldest_poll_date].
  split; [reflexivity|]. split; [reflexivity|]. split; [reflexivity|]. split.
  - intros H. destruct (end_dates (_polls self)) as [|d rest] eqn:E; [now split|].
    exfalso. assert (Hin : In d (end_dates (_polls self))) by (rewrite E; now left).
    apply in_end_dates in Hin. destruct Hin as (p & Hp & Hd).
    rewrite (H p Hp) in Hd. discriminate.
  - intros p d Hp Hd.
    destruct (end_dates (_polls self)) as [|d0 rest] eqn:E.
    + exfalso. assert (Hin : In d (end_dates (_polls self)))
        by (apply in_end_dates; now exists p).
      rewrite E in Hin. destruct Hin.
    + destruct (end_dates_bounds _ _ _ E) as (Hhi & Hlo & Hb).
      exists (date_min_of d0 rest), (date_max d0 rest).
      destruct (Hb p d Hp Hd) as (H1 & H2). repeat split; assumption.
Qed.

Lemma status_describes_store_witness :
  latest_poll_date (get_status new_store) = None /\
  oldest_poll_date (get_status new_store) = None.
Proof.
  apply (status_describes_store new_store). intros p [].
Defined.

(** ** The summary *)

Lemma compute_averages_by_party (mean : list float -> float)
  (recent : list PollResult) :
  compute_averages mean recent =
  map (fun p => (party_display p, party_average mean recent p)) all_parties.
Proof.
  unfold compute_averages, PARTY_FIELDS, all_parties, party_average,
    party_values_of.
  cbn [map]. repeat f_equal.
Qed.

(** The summary of a store with recent polls, field by field. *)
Lemma get_summary_some (mean : list float -> float) (today : date)
  (self : PollingStore) (n : Z) :
  get_latest self n <> [] ->
  exists s first rest,
    get_summary mean today self n = Some s /\
    compute_averages mean (get_latest self n) = first :: rest /\
    averages s = first :: rest /\
    leader s = fst (max_entry first rest) /\
    poll_count s = len (get_latest self n) /\
    period_start s = match end_dates (get_latest self n) with
                     | d :: ds => date_min_of d ds
                     | [] => today
                     end /\
    period_end s = match end_dates (get_latest self n) with
                   | d :: ds => date_max d ds
                   | [] => today
                   end /\
    lead_margin s =
      round1 (fsub (match snd (max_entry first rest) with
                    | Some v => v
                    | None => ZERO
                    end)
                   (max_or_zero
                      (flat_map (fun kv : str * option float =>
                                   if negb (str_eqb (fst kv) (fst (max_entry first rest)))
                                   then match snd kv with
                                        | Some v => [v]
                                        | None => []
                                        end
                                   else [])
                                (first :: rest)))).
Proof.
  unfold get_summary, get_latest. intros H.
  destruct (slice_to (_polls self) n) as [|p l] eqn:E; [contradiction|].
  rewrite compute_averages_by_party. unfold all_parties. cbn [map].
  eexists _, _, _. split; [reflexivity|]. cbn. repeat split.
Qed.

Lemma max_entry_in (first : str * option float) (rest : list (str * option float)) :
  In (max_entry first rest) (first :: rest).
Proof.
  unfold max_entry. revert first.
  induction rest as [|x rest IH]; intros first; cbn [fold_left]; [now left|].
  destruct (IH (if fgt (average_key (snd x)) (average_key (snd first))
                then x else first)) as [H|H].
  - rewrite <- H. destruct (fgt _ _); [right; now left|now left].
  - right. now right.
Qed.

(** X18. There is no summary exactly when there are no recent polls.
    Otherwise the summary counts the recent polls; it gives for each of
    the seven parties, in the order of the fields and under its display
    name, the mean of the values of the recent polls that have one,
    rounded to one decimal, and nothing for a party without values; the
    leader is one of the seven display names; and the period runs from
    the earliest to the latest end date of the recent polls, both being
    today when no recent poll has an end date. *)
Theorem summary_of_recent_polls (mean : list float -> float) (today : date)
  (self : PollingStore) (n : Z) :
  (get_summary mean today self n = None <-> get_latest self n = []) /\
  forall s, get_summary mean today self n = Some s ->
    poll_count s = len (get_latest self n) /\
    averages s =
      map (fun p => (party_display p, party_average mean (get_latest self n) p))
          all_parties /\
    In (leader s) (map party_display all_parties) /\
    date_le (period_start s) (period_end s) /\
    (forall p d, In p (get_latest self n) -> fieldwork_end p = Some d ->
                 date_le (period_start s) d /\ date_le d (period_end s)) /\
    ((forall p, In p (get_latest self n) -> fieldwork_end p = None) ->
     period_start s = today /\ period_end s = today).
Proof.
  destruct (get_latest self n) as [|p0 l0] eqn:El.
  { split.
    - split; [reflexivity|]. intros _. unfold get_summary.
      unfold get_latest in El. now rewrite El.
    - intros s. unfold get_summary. unfold get_latest in El. rewrite El.
      discriminate. }
  assert (Hne : get_latest self n <> []) by (rewrite El; discriminate).
  destruct (get_summary_some mean today self n Hne)
    as (s0 & first & rest & Es & Ec & Ea & Hl & Hc & Hs & He & _).
  rewrite El in *. split.
  { split; [rewrite Es; discriminate|discriminate]. }
  intros s E. rewrite Es in E. injection E as <-.
  split; [exact Hc|].
  assert (Ea' : averages s0 =
                map (fun p => (party_display p, party_average mean (p0 :: l0) p))
                    all_parties).
  { rewrite Ea, <- Ec. apply compute_averages_by_party. }
  split; [exact Ea'|]. split.
  { rewrite Hl.
    replace (map party_display all_parties) with (map fst (averages s0))
      by (rewrite Ea', map_map; reflexivity).
    rewrite Ea. apply in_map, max_entry_in. }
  rewrite Hs, He.
  destruct (end_dates (p0 :: l0)) as [|d ds] eqn:Ed.
  - split; [apply date_leb_le, date_leb_refl|]. split; [|now split].
    intros p d Hp Hd. exfalso.
    assert (Hin : In d (end_dates (p0 :: l0))) by (apply in_end_dates; now exists p).
    rewrite Ed in Hin. destruct Hin.
  - destruct (end_dates_bounds _ _ _ Ed) as ((q & Hq & Eq) & _ & Hb).
    split; [|split].
    + destruct (Hb q _ Hq Eq) as (H1 & _). exact H1.
    + exact Hb.
    + intros H. rewrite (H q Hq) in Eq. discriminate.
Qed.

Lemma summary_of_recent_polls_witness :
  get_summary (fun _ => ZERO) (Date 2026 11 3) new_store 10 = None.
Proof.
  apply (summary_of_recent_polls (fun _ => ZERO) (Date 2026 11 3) new_store 10).
  reflexivity.
Defined.








Lemma party_average_none (mean : list float -> float) (polls : list PollResult)
  (p : party) :
  (forall poll q, In poll polls -> party_value poll q = None) ->
  party_average mean polls p = None.
Proof.
  intros H. unfold party_average, party_values_of.
  replace (flat_map _ polls) with (@nil float); [reflexivity|].
  induction polls as [|poll polls IH]; [reflexivity|].
  cbn [flat_map]. rewrite (H poll p) by now left.
  cbn [app]. apply IH. intros poll' q Hin. apply H. now right.
Qed.

(** X20. When none of the recent polls has a value for any party, the
    summary has no average at all, names the Conservatives as leader,
    the first of the parties, and gives a lead margin of zero. *)
Theorem summary_without_values (mean : list float -> float) (today : date)
  (self : PollingStore) (n : Z) :
  get_latest self n <> [] ->
  (forall poll q, In poll (get_latest self n) -> party_value poll q = None) ->
  exists s,
    get_summary mean today self n = Some s /\
    (forall e, In e (averages s) -> snd e = None) /\
    leader s = py "Conservative" /\
    lead_margin s = ZERO.
Proof.
  intros Hne Hnone.
  destruct (get_summary_some mean today self n Hne)
    as (s & first & rest & Es & Ec & Ea & Hl & _ & _ & _ & Hm).
  exists s. split; [exact Es|].
  rewrite compute_averages_by_party in Ec. unfold all_parties in Ec.
  cbn [map] in Ec. rewrite !(party_average_none mean _ _ Hnone) in Ec.
  injection Ec as <- <-. split; [|split].
  - intros e. rewrite Ea. cbn [In]. intuition (subst; reflexivity).
  - rewrite Hl. reflexivity.
  - rewrite Hm. apply view_inj. vm_compute. reflexivity.
Qed.

Lemma summary_without_values_witness :
  exists s,
    get_summary (fun _ => ZERO) (Date 2026 11 3) blank_store 10 = Some s /\
    (forall e, In e (averages s) -> snd e = None) /\
    leader s = py "Conservative" /\
    lead_margin s = ZERO.
Proof.
  apply (summary_without_values (fun _ => ZERO) (Date 2026 11 3) blank_store 10).
  - discriminate.
  - intros poll q [<-|[]]. destruct q; reflexivity.
Defined.

(** ** Trends *)

Lemma get_trends_by_party (self : PollingStore) :
  get_trends self =
  flat_map (fun p => match party_points (get_all self) p with
                     | [] => []
                     | _ :: _ =>
                         [ {| trend_party := party_display p;
                              data_points :=
                                map trend_point (party_points (get_all self) p) |} ]
                     end) all_parties.
Proof.
  unfold get_trends. change PARTY_FIELDS with (map party_field all_parties).
  unfold all_parties. cbn [map flat_map].
  rewrite (get_by_party_resolved self _ Con (resolve_field_code Con)).
  rewrite (get_by_party_resolved self _ Lab (resolve_field_code Lab)).
  rewrite (get_by_party_resolved self _ LibDem (resolve_field_code LibDem)).
  rewrite (get_by_party_resolved self _ Reform (resolve_field_code Reform)).
  rewrite (get_by_party_resolved self _ Green (resolve_field_code Green)).
  rewrite (get_by_party_resolved self _ SNP (resolve_field_code SNP)).
  rewrite (get_by_party_resolved self _ Other (resolve_field_code Other)).
  reflexivity.
Qed.

Lemma party_points_nonempty (polls : list PollResult) (p : party) :
  party_points polls p <> [] <->
  exists poll v, In poll polls /\ party_value poll p = Some v.
Proof.
  unfold party_points. split.
  - intros H. destruct (flat_map (data_point p) polls) as [|dp l] eqn:E;
      [contradiction|].
    assert (Hin : In dp (flat_map (data_point p) polls)) by (rewrite E; now left).
    apply in_flat_map in Hin. destruct Hin as (poll & Hp & Hd).
    unfold data_point in Hd. destruct (party_value poll p) as [v|] eqn:Ev;
      [|destruct Hd].
    now exists poll, v.
  - intros (poll & v & Hp & Hv) E.
    pose proof (in_party_points polls p poll v Hp Hv) as Hin.
    unfold party_points in Hin. rewrite E in Hin. destruct Hin.
Qed.

Lemma party_display_inj (p q : party) : party_display p = party_display q -> p = q.
Proof. destruct p, q; intros H; try reflexivity; discriminate H. Qed.

(** X21. The trends name a party exactly when some stored poll has a
    value for it.  Every trend carries the display name of one of the
    seven parties and one point for each stored poll with a value for
    that party, in the order of the store, so that no trend is empty;
    and no party has two trends. *)
Theorem trends_cover_parties_with_values (self : PollingStore) :
  (forall p, (exists t, In t (get_trends self) /\ trend_party t = party_display p) <->
             (exists poll v, In poll (get_all self) /\ party_value poll p = Some v)) /\
  (forall t, In t (get_trends self) ->
     exists p, trend_party t = party_display p /\
               data_points t = map trend_point (party_points (get_all self) p) /\
               data_points t <> []) /\
  NoDup (map trend_party (get_trends self)).
Proof.
  rewrite get_trends_by_party.
  set (f := fun p => match party_points (get_all self) p with
                     | [] => []
                     | _ :: _ =>
                         [ {| trend_party := party_display p;
                              data_points :=
                                map trend_point (party_points (get_all self) p) |} ]
                     end).
  assert (Hf : forall p t, In t (f p) <->
               party_points (get_all self) p <> [] /\
               t = {| trend_party := party_display p;
                      data_points := map trend_point (party_points (get_all self) p) |}).
  { intros p t. unfold f. destruct (party_points (get_all self) p) as [|dp l].
    - split; [intros []|]. now intros (H & _).
    - cbn [In]. split.
      + intros [<-|[]]. split; [discriminate|reflexivity].
      + intros (_ & ->). now left. }
  split; [|split].
  - intros p. rewrite <- party_points_nonempty. split.
    + intros (t & Hin & Ht). apply in_flat_map in Hin.
      destruct Hin as (q & _ & Hq). apply Hf in Hq. destruct Hq as (Hne & ->).
      cbn [trend_party] in Ht. apply party_display_inj in Ht. now subst.
    + intros Hne. eexists. split.
      * apply in_flat_map. exists p. split; [destruct p; cbn; tauto|].
        apply Hf. split; [exact Hne|reflexivity].
      * reflexivity.
  - intros t Hin. apply in_flat_map in Hin. destruct Hin as (p & _ & Hp).
    apply Hf in Hp. destruct Hp as (Hne & ->). exists p. cbn [trend_party data_points].
    split; [reflexivity|]. split; [reflexivity|].
    destruct (party_points (get_all self) p); [contradiction|discriminate].
  - assert (G : forall l, NoDup l ->
              NoDup (map trend_party (flat_map f l))).
    { induction 1 as [|p l Hp Hl IH]; [constructor|].
      cbn [flat_map]. rewrite map_app. unfold f at 1.
      destruct (party_points (get_all self) p) as [|dp pts] eqn:Ep; [exact IH|].
      cbn [map app trend_party]. constructor; [|exact IH].
      intros Hin. apply in_map_iff in Hin. destruct Hin as (t & Ht & Hin).
      apply in_flat_map in Hin. destruct Hin as (q & Hq & Hfq).
      apply Hf in Hfq. destruct Hfq as (_ & ->). cbn [trend_party] in Ht.
      apply party_display_inj in Ht. subst q. contradiction. }
    apply G. unfold all_parties.
    repeat (constructor; [cbn; intuition discriminate|]). constructor.
Qed.

(* ================================================================== *)
(** * Properties of the refresh *)

Lemma len_zero {A} (l : list A) : (len l =? 0) = true <-> l = [].
Proof.
  unfold len. destruct l; simpl; split; try easy; lia.
Qed.

Lemma load_spec (utcnow : datetime) (self : PollingStore)
  (polls : list PollResult) (src : str) :
  get_all (fst (load utcnow self polls src)) = sort_desc polls /\
  snd (load utcnow self polls src) = len polls.
Proof.
  unfold load, get_all, len. cbn [fst snd _polls].
  now rewrite sort_desc_length.
Qed.

Lemma sort_desc_nil (polls : list PollResult) : sort_desc polls = [] -> polls = [].
Proof.
  intros H. pose proof (sort_desc_length polls) as L. rewrite H in L.
  destruct polls; [reflexivity|discriminate].
Qed.

(** X22. A refresh whose scrape raised, or found no polls, never
    discards what the store holds: a store that is not empty is left
    exactly as it is and the refresh returns zero; an empty store is
    loaded with the seed polls, under the source name of the seed data. *)
Theorem refresh_falls_back (utcnow : datetime) (seed : list PollResult)
  (scraped : result (list PollResult)) (store : PollingStore) :
  scraped = Ok [] \/ (exists e, scraped = Raise e) ->
  (get_all store <> [] ->
   refresh_polling_data utcnow seed scraped store = (store, 0)) /\
  (get_all store = [] ->
   refresh_polling_data utcnow seed scraped store =
   load utcnow store seed (py "seed_data")).
Proof.
  intros H. unfold refresh_polling_data, get_status, get_all.
  cbn [total_polls].
  split; intros Hs.
  - destruct (len (_polls store) =? 0) eqn:El.
    + apply len_zero in El. contradiction.
    + destruct H as [->|(e & ->)]; reflexivity.
  - rewrite Hs. cbn [len length Z.of_nat Z.eqb].
    destruct H as [->|(e & ->)]; reflexivity.
Qed.

Lemma refresh_falls_back_witness :
  refresh_polling_data 7 [] (scrape_polls 2026 WIKI_URL [bad_span_table])
    blank_store = (blank_store, 0).
Proof.
  apply (refresh_falls_back 7 [] (scrape_polls 2026 WIKI_URL [bad_span_table])
           blank_store).
  - right. exists ValueError. reflexivity.
  - discriminate.
Defined.

(** X23. Whatever the scrape did, after a refresh the store holds
    polls, unless it was empty before, nothing was scraped and there are
    no seed polls.  The number returned is zero when the polls of the
    store are the ones it had, and is otherwise the number of polls the
    store holds now; polls that were scraped are all in the store then,
    and a store that was ordered from the latest end date to the earliest
    still is. *)
Theorem refresh_keeps_store_filled (utcnow : datetime) (seed : list PollResult)
  (scraped : result (list PollResult)) (store : PollingStore) :
  let store' := fst (refresh_polling_data utcnow seed scraped store) in
  let count := snd (refresh_polling_data utcnow seed scraped store) in
  (get_all store' = [] ->
   get_all store = [] /\ seed = [] /\ forall polls, scraped = Ok polls -> polls = []) /\
  ((count = 0 /\ get_all store' = get_all store) \/
   (count = len (get_all store') /\ _last_refreshed store' = Some utcnow)) /\
  (forall p polls, scraped = Ok (p :: polls) ->
     Permutation (get_all store') (p :: polls) /\ count = len (p :: polls) /\
     _source store' = py "wikipedia") /\
  (StronglySorted key_ge (get_all store) -> StronglySorted key_ge (get_all store')).
Proof.
  intros store' count. subst store' count.
  unfold refresh_polling_data, get_status. cbn [total_polls].
  fold (get_all store).
  destruct scraped as [[|p polls]|e].
  - destruct (len (get_all store) =? 0) eqn:El.
    + apply len_zero in El. destruct (load_spec utcnow store seed (py "seed_data"))
        as (Ep & Ec).
      split; [|split; [|split]].
      * intros H. rewrite Ep in H. apply sort_desc_nil in H.
        repeat split; auto. now intros polls [= <-].
      * right. split; [|reflexivity]. rewrite Ec, Ep. unfold len.
        now rewrite sort_desc_length.
      * intros q polls H. discriminate.
      * intros _. rewrite Ep. apply sort_desc_sorted.
    + cbn [fst snd]. split; [|split; [|split]].
      * intros H. rewrite H in El. discriminate.
      * left. now split.
      * intros q polls H. discriminate.
      * auto.
  - destruct (load_spec utcnow store (p :: polls) (py "wikipedia")) as (Ep & Ec).
    split; [|split; [|split]].
    + intros H. rewrite Ep in H. apply sort_desc_nil in H. discriminate.
    + right. split; [|reflexivity]. rewrite Ec, Ep. unfold len.
      now rewrite sort_desc_length.
    + intros q polls' [= <- <-]. rewrite Ep. split; [apply sort_desc_perm|].
      split; [exact Ec|reflexivity].
    + intros _. rewrite Ep. apply sort_desc_sorted.
  - destruct (len (get_all store) =? 0) eqn:El.
    + apply len_zero in El. destruct (load_spec utcnow store seed (py "seed_data"))
        as (Ep & Ec).
      split; [|split; [|split]].
      * intros H. rewrite Ep in H. apply sort_desc_nil in H.
        repeat split; auto. intros polls H'. discriminate.
      * right. split; [|reflexivity]. rewrite Ec, Ep. unfold len.
        now rewrite sort_desc_length.
      * intros q polls H. discriminate.
      * intros _. rewrite Ep. apply sort_desc_sorted.
    + cbn [fst snd]. split; [|split; [|split]].
      * intros H. rewrite H in El. discriminate.
      * left. now split.
      * intros q polls H. discriminate.
      * auto.
Qed.

Lemma refresh_keeps_store_filled_witness :
  Permutation
    (get_all (fst (refresh_polling_data 7 []
                     (scrape_polls 2026 WIKI_URL [sample_table]) blank_store)))
    (sample_poll :: tl sample_polls).
Proof.
  apply (refresh_keeps_store_filled 7 [] (scrape_polls 2026 WIKI_URL [sample_table])
           blank_store).
  vm_compute; reflexivity.
Defined.

(* ================================================================== *)
(** * Order of equal dates, and header texts *)

(** ** Polls with the same end date *)

Lemma has_key_leb (d : date) (p q : PollResult) :
  has_key d p = true -> has_key d q = true ->
  date_leb (sort_key q) (sort_key p) = true.
Proof.
  unfold has_key. rewrite !andb_true_iff. intros (H1 & H2) (H3 & H4).
  exact (date_leb_trans _ _ _ H3 H2).
Qed.

Lemma insert_desc_stable (d : date) (p : PollResult) (l : list PollResult) :
  filter (has_key d) (insert_desc p l) = filter (has_key d) (p :: l).
Proof.
  induction l as [|q l IH]; [reflexivity|]. cbn [insert_desc].
  destruct (date_leb (sort_key q) (sort_key p)) eqn:E; [reflexivity|].
  cbn [filter] in *. rewrite IH.
  destruct (has_key d p) eqn:Hp; [|reflexivity].
  destruct (has_key d q) eqn:Hq; [|reflexivity].
  rewrite (has_key_leb d p q Hp Hq) in E. discriminate.
Qed.

Lemma sort_desc_stable (d : date) (l : list PollResult) :
  filter (has_key d) (sort_desc l) = filter (has_key d) l.
Proof.
  induction l as [|p l IH]; [reflexivity|].
  cbn [sort_desc fold_right]. fold (sort_desc l).
  rewrite insert_desc_stable. cbn [filter]. now rewrite IH.
Qed.

(** X24. The sort that the store applies when loading is stable: for
    every date, the stored polls that end on that date are the given
    polls that end on it, in the order in which they were given (polls
    without end date likewise, under the earliest possible date). *)
Theorem load_keeps_order_of_equal_dates (utcnow : datetime) (self : PollingStore)
  (polls : list PollResult) (src : str) (d : date) :
  filter (has_key d) (get_all (fst (load utcnow self polls src)))
  = filter (has_key d) polls.
Proof. unfold load, get_all. cbn [fst _polls]. apply sort_desc_stable. Qed.

(** ** Header texts *)

Lemma lower_char_nospace (c : char) :
  isspace c = false -> Forall (fun x => isspace x = false) (lower_char c).
Proof.
  intros H. unfold lower_char.
  destruct ((65 <=? c) && (c <=? 90)) eqn:E1.
  - constructor; [|constructor]. unfold isspace. lia.
  - destruct (c =? 304); [repeat constructor|].
    destruct (c =? 8490); [repeat constructor|].
    constructor; [exact H|constructor].
Qed.

Lemma lower_char_nonempty (c : char) : lower_char c <> [].
Proof.
  unfold lower_char. destruct (_ && _); [discriminate|].
  destruct (c =? 304); [discriminate|]. destruct (c =? 8490); discriminate.
Qed.

Lemma lstrip_lower (s : str) : lstrip (lower s) = lower (lstrip s).
Proof.
  induction s as [|c s IH]; [reflexivity|].
  change (lower (c :: s)) with (lower_char c ++ lower s). cbn [lstrip].
  destruct (isspace c) eqn:E.
  - rewrite (lower_char_space _ E). cbn [app lstrip]. now rewrite E.
  - change (lower (c :: s)) with (lower_char c ++ lower s).
    pose proof (lower_char_nospace _ E) as Hn.
    pose proof (lower_char_nonempty c) as Hne.
    destruct (lower_char c) as [|x l]; [contradiction|].
    inversion Hn as [|? ? Hx _]; subst. cbn [app lstrip]. now rewrite Hx.
Qed.

Lemma rstrip_last (s : str) (c : char) :
  isspace c = false -> rstrip (s ++ [c]) = s ++ [c].
Proof.
  intros H. unfold rstrip. rewrite rev_app_distr. cbn [rev app lstrip].
  rewrite H. cbn [rev]. now rewrite rev_involutive.
Qed.

Lemma rstrip_lower (s : str) : rstrip (lower s) = lower (rstrip s).
Proof.
  induction s as [|c s IH] using rev_ind; [reflexivity|].
  rewrite lower_app. change (lower [c]) with (lower_char c ++ []).
  rewrite app_nil_r. destruct (isspace c) eqn:E.
  - rewrite (lower_char_space _ E).
    rewrite !rstrip_app_space by (repeat constructor; exact E). exact IH.
  - rewrite (rstrip_last s c E), lower_app.
    change (lower [c]) with (lower_char c ++ []). rewrite app_nil_r.
    pose proof (lower_char_nospace _ E) as Hn.
    pose proof (lower_char_nonempty c) as Hne.
    destruct (exists_last Hne) as (l & x & El). rewrite El in *.
    rewrite app_assoc. apply rstrip_last.
    apply Forall_app in Hn. destruct Hn as (_ & Hx). now inversion Hx.
Qed.

Lemma strip_lower (s : str) : strip (lower s) = lower (strip s).
Proof. unfold strip. now rewrite lstrip_lower, rstrip_lower. Qed.

(** X25. The column identifier looks at a header without its surrounding
    whitespace and without regard to letter case: two header texts that
    differ only in these ways name the same field, or both none. *)
Theorem header_case_and_space_ignored (a b ws1 ws2 : str) :
  all_space ws1 -> all_space ws2 -> lower a = lower b ->
  classify_header (ws1 ++ a ++ ws2) = classify_header b.
Proof.
  intros H1 H2 E. unfold classify_header.
  rewrite (strip_surrounding _ _ _ H1 H2).
  now rewrite <- !strip_lower, E.
Qed.

Lemma header_case_and_space_ignored_witness :
  classify_header (py " " ++ py "LIB Dem" ++ py "  ") = classify_header (py "lib dem").
Proof.
  apply (header_case_and_space_ignored (py "LIB Dem") (py "lib dem") (py " ")
           (py "  ")).
  - repeat constructor.
  - repeat constructor.
  - reflexivity.
Defined.

(* ================================================================== *)
(** * Properties of the endpoints *)

(** X26. The endpoint for a period refuses a start after the end with
    status 400, and only that; it answers 404 exactly when the period is
    in order and no stored poll ends within it; otherwise it returns the
    polls of the period, at least one. *)
Theorem range_endpoint_answers (store : PollingStore) (start end_ : date) :
  (App.get_date_range store start end_ = HTTPException 400 <->
   date_leb start end_ = false) /\
  (App.get_date_range store start end_ = HTTPException 404 <->
   date_leb start end_ = true /\
   forall p d, In p (get_all store) -> fieldwork_end p = Some d ->
               ~ (date_le start d /\ date_le d end_)) /\
  (forall l, App.get_date_range store start end_ = Success l ->
             l <> [] /\ l = get_date_range store start end_) /\
  (forall code, App.get_date_range store start end_ = HTTPException code ->
                code = 400 \/ code = 404).
Proof.
  destruct (date_range_members store start end_) as (M & _ & _).
  unfold App.get_date_range.
  destruct (date_leb start end_) eqn:E; cbn [negb].
  - destruct (get_date_range store start end_) as [|p l] eqn:Er.
    + split; [split; discriminate|]. split; [|split].
      * split; [|reflexivity]. intros _. split; [reflexivity|].
        intros p d Hp Hd Hr.
        assert (Hin : In p []) by (apply M; split; [exact Hp|now exists d]).
        destruct Hin.
      * discriminate.
      * intros code [= <-]. now right.
    + split; [split; discriminate|]. split; [|split].
      * split; [discriminate|]. intros (_ & H). exfalso.
        destruct (proj1 (M p) (or_introl eq_refl)) as (Hp & d & Hd & H1 & H2).
        exact (H p d Hp Hd (conj H1 H2)).
      * intros l' [= <-]. split; [discriminate|reflexivity].
      * discriminate.
  - split; [split; reflexivity|]. split; [|split].
    + split; [discriminate|]. intros (H & _). discriminate.
    + discriminate.
    + intros code [= <-]. now left.
Qed.

Lemma flat_map_nil {A B} (f : A -> list B) (l : list A) :
  flat_map f l = [] <-> forall x, In x l -> f x = [].
Proof.
  induction l as [|a l IH]; cbn [flat_map In].
  - split; [intros _ x []|reflexivity].
  - split.
    + intros H. apply app_eq_nil in H. destruct H as (Ha & Hl).
      intros x [<-|Hx]; [exact Ha|]. now apply IH.
    + intros H. rewrite (H a) by now left. apply IH. intros x Hx. apply H. now right.
Qed.

(** X27. The endpoints that look something up answer 404 exactly when
    there is nothing to return, and never return an empty answer: the
    summary of the last [n] polls, [n] at least one, exactly when the
    store is empty; the polls of a pollster exactly when no stored name
    contains the query; the values of a party exactly when the name is
    not understood or no stored poll has a value for that party. *)
Theorem lookup_endpoints_answer_404_when_empty (mean : list float -> float)
  (today : date) (str_lower : str -> str) (store : PollingStore) (name : str)
  (n : Z) :
  1 <= n ->
  (App.get_summary mean today store n = HTTPException 404 <-> get_all store = []) /\
  (forall s, App.get_summary mean today store n = Success s ->
             get_summary mean today store n = Some s) /\
  (App.get_by_pollster str_lower store name = HTTPException 404 <->
   forall p, In p (get_all store) ->
             is_substr (str_lower name) (str_lower (pollster p)) = false) /\
  (forall l, App.get_by_pollster str_lower store name = Success l ->
             l <> [] /\ l = get_by_pollster str_lower store name) /\
  (App.get_by_party store name = HTTPException 404 <->
   resolve_field name = None \/
   exists p, resolve_field name = Some (party_field p) /\
             forall poll, In poll (get_all store) -> party_value poll p = None) /\
  (forall l, App.get_by_party store name = Success l ->
             l <> [] /\ l = get_by_party store name).
Proof.
  intros Hn. split; [|split; [|split; [|split; [|split]]]].
  - unfold App.get_summary.
    destruct (summary_of_recent_polls mean today store n) as (Hnone & _).
    assert (Hl : get_latest store n = [] <-> get_all store = []).
    { unfold get_latest, get_all, slice_to.
      destruct (Z.ltb_spec n 0); [lia|].
      destruct (_polls store) as [|p l]; [now rewrite firstn_nil|].
      replace (Z.to_nat n) with (S (Z.to_nat (n - 1))) by lia.
      cbn [firstn]. split; discriminate. }
    rewrite <- Hl, <- Hnone.
    destruct (get_summary mean today store n); split; congruence.
  - unfold App.get_summary. destruct (get_summary mean today store n);
      [now intros s0 [= ->]|discriminate].
  - unfold App.get_by_pollster.
    destruct (get_by_pollster str_lower store name) as [|p l] eqn:E.
    + split; [|reflexivity]. intros _ p Hp.
      destruct (is_substr _ _) eqn:Es; [|reflexivity]. exfalso.
      assert (Hin : In p (get_by_pollster str_lower store name))
        by (unfold get_by_pollster; apply filter_In; split; assumption).
      rewrite E in Hin. destruct Hin.
    + split; [discriminate|]. intros H. exfalso.
      assert (Hin : In p (get_by_pollster str_lower store name))
        by (rewrite E; now left).
      unfold get_by_pollster in Hin. apply filter_In in Hin.
      destruct Hin as (Hp & Hs). rewrite (H p Hp) in Hs. discriminate.
  - unfold App.get_by_pollster.
    destruct (get_by_pollster str_lower store name) as [|p l];
      [discriminate|]. intros l' [= <-]. split; [discriminate|reflexivity].
  - unfold App.get_by_party.
    assert (K : get_by_party store name = [] <->
                resolve_field name = None \/
                exists p, resolve_field name = Some (party_field p) /\
                  forall poll, In poll (get_all store) -> party_value poll p = None).
    { destruct (resolve_field name) as [f|] eqn:Ef.
      - destruct (resolve_field_party _ _ Ef) as (p & ->).
        rewrite (get_by_party_resolved _ _ _ Ef). unfold party_points.
        rewrite flat_map_nil. split.
        + intros H. right. exists p. split; [reflexivity|].
          intros poll Hp. specialize (H poll Hp). unfold data_point in H.
          destruct (party_value poll p); [discriminate|reflexivity].
        + intros [H|(q & Hq & H)]; [discriminate|].
          injection Hq as Hq.
          assert (q = p) as ->.
          { destruct p, q; try reflexivity; discriminate Hq. }
          intros poll Hp. unfold data_point. now rewrite (H poll Hp).
      - unfold get_by_party. rewrite Ef. split; [now left|reflexivity]. }
    rewrite <- K. destruct (get_by_party store name); split; congruence.
  - unfold App.get_by_party. destruct (get_by_party store name) as [|p l];
      [discriminate|]. intros l' [= <-]. split; [discriminate|reflexivity].
Qed.

Lemma lookup_endpoints_answer_404_when_empty_witness :
  App.get_summary (fun _ => ZERO) (Date 2026 11 3) new_store 10 = HTTPException 404.
Proof.
  apply (lookup_endpoints_answer_404_when_empty (fun _ => ZERO) (Date 2026 11 3)
           lower new_store (py "yougov") 10).
  - lia.
  - reflexivity.
Defined.

(* ================================================================== *)
(** * Properties of the row mapper *)

(** ** The row mapper *)

Lemma pv_get_pv_set (d : PartyValues) (k q : party) (v : option float) :
  pv_get (pv_set d k v) q = if party_eqb k q then v else pv_get d q.
Proof.
  induction d as [|[k' v'] d IH]; cbn [pv_set pv_get]; [reflexivity|].
  destruct (party_eqb k' k) eqn:E; cbn [pv_get].
  - apply party_eqb_eq in E. subst k'. now destruct (party_eqb k q).
  - rewrite IH. destruct (party_eqb k' q) eqn:E1; [|reflexivity].
    destruct (party_eqb k q) eqn:E2; [|reflexivity].
    apply party_eqb_eq in E1, E2. subst. rewrite party_eqb_refl in E. discriminate.
Qed.

Lemma for_each_snoc {A S} (l : list A) (a : A) (s s' : S)
  (body : S -> A -> result S) :
  for_each (l ++ [a]) s body = Ok s' ->
  exists s1, for_each l s body = Ok s1 /\ body s1 a = Ok s'.
Proof.
  revert s. induction l as [|x l IH]; intros s; cbn [app for_each].
  - destruct (body s a) as [s1|e] eqn:E; cbn [bind]; [|discriminate].
    intros [= <-]. now exists s.
  - destruct (body s x) as [s1|e]; cbn [bind]; [|discriminate]. apply IH.
Qed.

Lemma cell_of_snoc (cm : list (nat * field)) (row : list str) (i : nat)
  (f g : field) :
  cell_of (cm ++ [(i, f)]) row g =
  if field_eqb f g
  then match nth_error row i with
       | Some text => Some text
       | None => cell_of cm row g
       end
  else cell_of cm row g.
Proof. unfold cell_of. now rewrite fold_left_app. Qed.

Lemma columns_read_cells (today_year : Z) (row : list str)
  (cm : list (nat * field)) (st : Data * PartyValues) :
  for_each cm (empty_data, []) (apply_column today_year row) = Ok st ->
  reads_cells today_year cm row st.
Proof.
  revert st. induction cm as [|[i f] cm IH] using rev_ind; intros st.
  - cbn [for_each]. intros [= <-]. unfold reads_cells. cbn. repeat split.
  - intros H. apply for_each_snoc in H. destruct H as ([data pv] & H1 & H2).
    specialize (IH _ H1). destruct IH as (Ip & Ic & If & Is & Iv).
    cbn [fst snd] in *. unfold apply_column in H2.
    unfold reads_cells. rewrite !cell_of_snoc.
    assert (Hv : forall p, cell_of (cm ++ [(i, f)]) row (F_party p) =
                           if field_eqb f (F_party p)
                           then match nth_error row i with
                                | Some text => Some text
                                | None => cell_of cm row (F_party p)
                                end
                           else cell_of cm row (F_party p))
      by (intros p; apply cell_of_snoc).
    destruct (nth_error row i) as [text|].
    2:{ injection H2 as <-. cbn [fst snd].
        repeat split; try (destruct (field_eqb f _); assumption).
        intros p. rewrite Hv. destruct (field_eqb f (F_party p)); apply Iv. }
    destruct f as [p| | | | | |]; cbn [field_eqb].
    + injection H2 as <-. cbn [fst snd]. repeat split; try assumption.
      intros q. rewrite Hv, pv_get_pv_set. cbn [field_eqb].
      destruct (party_eqb p q); [reflexivity|apply Iv].
    + destruct (_parse_fieldwork_dates today_year text) as [[s e]|err] eqn:E;
        cbn [bind] in H2; [|discriminate].
      injection H2 as <-. cbn [fst snd data_pollster data_client
        data_fieldwork_start data_fieldwork_end data_sample_size].
      repeat split; try assumption. intros q. rewrite Hv. apply Iv.
    + injection H2 as <-. cbn [fst snd data_pollster data_client
        data_fieldwork_start data_fieldwork_end data_sample_size].
      repeat split; try assumption. intros q. rewrite Hv. apply Iv.
    + injection H2 as <-. cbn [fst snd data_pollster data_client
        data_fieldwork_start data_fieldwork_end data_sample_size].
      repeat split; try assumption. intros q. rewrite Hv. apply Iv.
    + destruct (_parse_sample_size text) as [n|err] eqn:E;
        cbn [bind] in H2; [|discriminate].
      injection H2 as <-. cbn [fst snd data_pollster data_client
        data_fieldwork_start data_fieldwork_end data_sample_size].
      repeat split; try assumption. intros q. rewrite Hv. apply Iv.
    + injection H2 as <-. cbn [fst snd]. repeat split; try assumption.
      intros q. rewrite Hv. apply Iv.
    + injection H2 as <-. cbn [fst snd]. repeat split; try assumption.
      intros q. rewrite Hv. apply Iv.
Qed.

(** X28. Each field of a record comes from one cell of its row: the cell
    of the last column that the column map gives to that field, if that
    column lies within the row.  The pollster is the stripped text of its
    cell, the client the text of its cell unless that is empty, the
    fieldwork dates and the sample size what their parsers make of their
    cells, and each party value what the percentage parser makes of the
    cell of that party; a field without cell is missing. *)
Theorem record_fields_come_from_cells (today_year : Z) (url : str)
  (col_map : list (nat * field)) (row : list str) (poll : PollResult) :
  process_row today_year url col_map row = Ok (Some poll) ->
  pollster poll =
    strip (match cell_of col_map row F_pollster with
           | Some text => text
           | None => []
           end) /\
  client poll =
    match cell_of col_map row F_client with
    | Some text => if is_empty text then None else Some text
    | None => None
    end /\
  Ok (fieldwork_start poll, fieldwork_end poll) =
    match cell_of col_map row F_fieldwork with
    | Some text => _parse_fieldwork_dates today_year text
    | None => Ok (None, None)
    end /\
  Ok (sample_size poll) =
    match cell_of col_map row F_sample_size with
    | Some text => _parse_sample_size text
    | None => Ok None
    end /\
  forall p, party_value poll p =
    match cell_of col_map row (F_party p) with
    | Some text => _parse_percentage text
    | None => None
    end.
Proof.
  intros H. destruct (process_row_made _ _ _ _ _ H) as (data & pv & E & ->).
  destruct (columns_read_cells _ _ _ _ E) as (Ip & Ic & If & Is & Iv).
  cbn [fst snd] in *.
  destruct (make_poll_data url
              (strip (match data_pollster data with Some s => s | None => [] end))
              data pv) as (-> & -> & -> & -> & -> & _).
  destruct (make_poll_fields url
              (strip (match data_pollster data with Some s => s | None => [] end))
              data pv) as (_ & _ & Hq & _).
  split; [now rewrite Ip|]. repeat split; try assumption.
  intros p. rewrite Hq. apply Iv.
Qed.

Lemma record_fields_come_from_cells_witness :
  process_row 2026 WIKI_URL sample_col_map sample_row = Ok (Some sample_yougov) /\
  pollster sample_yougov = py "YouGov" /\
  party_value sample_yougov Green = _parse_percentage (py "14.1").
Proof.
  assert (H : process_row 2026 WIKI_URL sample_col_map sample_row
              = Ok (Some sample_yougov)) by (vm_compute; reflexivity).
  split; [exact H|].
  destruct (record_fields_come_from_cells 2026 WIKI_URL sample_col_map sample_row
              sample_yougov H) as (Hp & _ & _ & _ & Hv).
  split; [exact Hp|exact (Hv Green)].
Defined.
